(** * go_to_sheets: a shallow embedding of main.go

    The program reads its configuration with viper, obtains an OAuth2
    client (token cached in ./cache.json), and for every configured
    loader runs a SQL query, turns the result cursor into a grid of cells
    and sends one BatchUpdate request to the Sheets API.

    Go strings are byte sequences; they are modelled by [string], whose
    characters are the 256 byte values.  Integers are [Z].  Everything the
    program obtains from outside (files, the database, the OAuth provider,
    the Sheets API, the operator's keyboard) comes from an [Env] record;
    everything it changes lives in a [State] that is passed along. *)

From Stdlib Require Import ZArith List String Ascii Lia Bool.
From stdpp Require Import base option list strings gmap.

Local Open Scope string_scope.
Local Open Scope list_scope.
Local Open Scope Z_scope.
Local Open Scope stdpp_scope.

(** ** Basic data *)

Definition error := string.

(** [time.Time], seen through what its RFC 3339 text carries: the calendar
    reading in the value's own zone and the zone's offset from UTC. *)
Record Time := mkTime {
  t_year : Z; t_month : Z; t_day : Z;
  t_hour : Z; t_minute : Z; t_second : Z;
  t_nsec : Z;
  t_offset : Z   (* minutes east of UTC *)
}.

(** [oauth2.Token]: the four exported fields. *)
Record Token := mkToken {
  AccessToken : string;
  TokenType : string;
  RefreshToken : string;
  Expiry : Time
}.

(** The dynamic types a [driver.Value] can have once it sits in an
    [interface{}]; a float64 is given by its IEEE 754 bits. *)
Inductive Value : Type :=
| VNil
| VInt64 (n : Z)
| VFloat64 (bits : Z)
| VBool (b : bool)
| VBytes (b : string)
| VString (s : string)
| VTime (t : Time).

Abbreviation Grid := (list (list Value)).

(** [sheets.ValueRange] and [sheets.BatchUpdateValuesRequest]. *)
Record ValueRange := mkValueRange { Range : string; Values : Grid }.
Record BatchUpdateValuesRequest := mkRequest {
  ValueInputOption : string;
  Data : list ValueRange
}.

(** ** Outcomes of a Go computation *)

Inductive Res (A : Type) : Type :=
| Ret (a : A)
| Fatal (msg : string)   (* log.Fatal / log.Fatalf: os.Exit(1), no deferred call runs *)
| Panic (msg : string).  (* panic: deferred calls run, then the process dies *)
Arguments Ret {A} a.
Arguments Fatal {A} msg.
Arguments Panic {A} msg.

Definition is_Ret {A} (r : Res A) : bool :=
  match r with Ret _ => true | _ => false end.

(** ** The database cursor ([*sql.Rows]) *)

(** What the cursor has for one call of [rows.Next()] that returns true:
    a decoded row, or the error [rows.Scan] will report for it.  The two
    error events are what the cases of lines 144 and 160 provide for; with
    one [*interface{}] destination per column, as main passes them, the
    Scan of database/sql does not fail, and the cursors database/sql
    builds ([sql_Rows] below) hold rows only. *)
Inductive RowEvent : Type :=
| RowData (vs : list Value)
| RowErrNoRows
| RowScanFailure (err : error).

(** [rows_next_set] tells whether the driver has a further result set
    behind the one being read (a query text with several statements);
    database/sql closes a cursor by itself when [Next] reaches the end of
    the last result set, and only then. *)
Record Rows := mkRows {
  rows_columns : list string;
  rows_stream : list RowEvent;
  rows_next_set : bool
}.





Inductive ScanResult : Type :=
| ScanNil (values : list Value)     (* err == nil; the destinations now hold the row *)
| ScanErrNoRows
| ScanErr (err : error).

(** [rows.Scan(valuePtrs...)], every pointer aiming at a slot of [values]:
    database/sql refuses a destination count different from the row's. *)
Definition rows_Scan (ev : RowEvent) (values : list Value) : ScanResult :=
  match ev with
  | RowData vs =>
      if decide (length vs = length values) then ScanNil vs
      else ScanErr "sql: wrong number of destination arguments in Scan"
  | RowErrNoRows => ScanErrNoRows
  | RowScanFailure e => ScanErr e
  end.

(** ** Row-to-grid conversion (main.go, lines 128-163) *)

(** Lines 150-156: [b, ok := val.([]byte)]; a byte slice becomes the string
    with the same bytes, any other value is kept as it is. *)
Definition coerce (val : Value) : Value :=
  match val with
  | VBytes b => VString b
  | _ => val
  end.

(** Lines 147-158: [for i := range columns { ...; x = append(x, v) }]. *)
Fixpoint cells (values : list Value) (idx : list nat) (x : list Value)
  : Res (list Value) :=
  match idx with
  | [] => Ret x
  | i :: idx' =>
      match values !! i with
      | None => Panic "runtime error: index out of range"
      | Some val => cells values idx' (x ++ [coerce val])
      end
  end.

(** Lines 138-163: one turn of the loop per row the cursor yields. *)
Fixpoint scan_loop (columns : list string) (stream : list RowEvent)
    (values : list Value) (sheetValues : Grid) : Res Grid :=
  match stream with
  | [] => Ret sheetValues
  | ev :: stream' =>
      match rows_Scan ev values with
      | ScanErrNoRows => Panic "something went wrong.."
      | ScanNil values' =>
          match cells values' (seq 0 (length columns)) [] with
          | Ret x => scan_loop columns stream' values' (sheetValues ++ [x])
          | Fatal m => Fatal m
          | Panic m => Panic m
          end
      | ScanErr _ => Panic "row scan failure"
      end
  end.

(** Lines 128-163 as a whole. *)
Definition convert (rows : Rows) : Res Grid :=
  let columns := rows_columns rows in
  let headers := map VString columns in
  let sheetValues := [headers] in
  let count := length columns in
  let values := replicate count VNil in
  scan_loop columns (rows_stream rows) values sheetValues.

(** ** Bytes and UTF-8 (package unicode/utf8) *)

Definition byte (c : ascii) : Z := Z.of_N (N_of_ascii c).
Definition chr (n : Z) : ascii := ascii_of_N (Z.to_N n).
Definition str1 (n : Z) : string := String (chr n) "".
Definition DQ : string := str1 0x22.          (* the double quote *)
Definition LF : string := str1 0x0A.
Definition RuneError : Z := 0xFFFD.
Definition between (lo x hi : Z) : bool := (lo <=? x) && (x <=? hi).

(** The six payload bits of a continuation byte 0x80..0xBF. *)
Definition low6 (c : ascii) : Z := byte c - 0x80.
Definition is_cont (c : ascii) : bool := between 0x80 (byte c) 0xBF.

(** [utf8.DecodeRuneInString]: the first rune of [s] and its width; an
    ill-formed or truncated sequence gives [(RuneError, 1)].  The masks of
    the Go code are written as subtractions, which they equal on the byte
    ranges each branch has checked. *)
Definition DecodeRune (s : string) : Z * nat :=
  match s with
  | EmptyString => (RuneError, 0%nat)
  | String c0 s1 =>
      let b0 := byte c0 in
      if b0 <? 0x80 then (b0, 1%nat)
      else if between 0xC2 b0 0xDF then
        match s1 with
        | String c1 _ =>
            if is_cont c1 then ((b0 - 0xC0) * 64 + low6 c1, 2%nat)
            else (RuneError, 1%nat)
        | _ => (RuneError, 1%nat)
        end
      else if between 0xE0 b0 0xEF then
        let lo := if b0 =? 0xE0 then 0xA0 else 0x80 in
        let hi := if b0 =? 0xED then 0x9F else 0xBF in
        match s1 with
        | String c1 (String c2 _) =>
            if between lo (byte c1) hi && is_cont c2
            then ((b0 - 0xE0) * 4096 + low6 c1 * 64 + low6 c2, 3%nat)
            else (RuneError, 1%nat)
        | _ => (RuneError, 1%nat)
        end
      else if between 0xF0 b0 0xF4 then
        let lo := if b0 =? 0xF0 then 0x90 else 0x80 in
        let hi := if b0 =? 0xF4 then 0x8F else 0xBF in
        match s1 with
        | String c1 (String c2 (String c3 _)) =>
            if between lo (byte c1) hi && is_cont c2 && is_cont c3
            then ((b0 - 0xF0) * 262144 + low6 c1 * 4096 + low6 c2 * 64 + low6 c3, 4%nat)
            else (RuneError, 1%nat)
        | _ => (RuneError, 1%nat)
        end
      else (RuneError, 1%nat)
  end.

(** [utf8.EncodeRune]; surrogates and values outside Unicode are written
    as U+FFFD. *)
Definition EncodeRune (r : Z) : string :=
  let three (r : Z) :=
    str1 (0xE0 + r / 4096) +:+ str1 (0x80 + (r / 64) mod 64) +:+ str1 (0x80 + r mod 64) in
  if r <? 0 then three RuneError
  else if r <=? 0x7F then str1 r
  else if r <=? 0x7FF then str1 (0xC0 + r / 64) +:+ str1 (0x80 + r mod 64)
  else if (0x10FFFF <? r) || between 0xD800 r 0xDFFF then three RuneError
  else if r <=? 0xFFFF then three r
  else str1 (0xF0 + r / 262144) +:+ str1 (0x80 + (r / 4096) mod 64)
       +:+ str1 (0x80 + (r / 64) mod 64) +:+ str1 (0x80 + r mod 64).

(** [utf8.ValidString]; [skip] counts the continuation bytes still owed to
    the rune being read. *)
Fixpoint utf8_valid (s : string) (skip : nat) : bool :=
  match s with
  | EmptyString => match skip with O => true | S _ => false end
  | String c s' =>
      match skip with
      | S k => utf8_valid s' k
      | O =>
          if byte c <? 0x80 then utf8_valid s' 0
          else
            let '(_, size) := DecodeRune s in
            match size with
            | S (S k) => utf8_valid s' (S k)
            | _ => false
            end
      end
  end.

Definition ValidString (s : string) : bool := utf8_valid s 0.

(** ** encoding/json: string literals *)

Definition hex (n : Z) : string :=
  str1 (if n <? 10 then 0x30 + n else 0x61 + (n - 10)).

(** [htmlSafeSet]: the ASCII bytes written without escaping when HTML
    escaping is on, as it is for an [Encoder]. *)
Definition htmlSafe (b : Z) : bool :=
  (0x20 <=? b) && negb (b =? 0x22) && negb (b =? 0x26) && negb (b =? 0x3C)
  && negb (b =? 0x3E) && negb (b =? 0x5C).

Definition escape_ascii (b : Z) : string :=
  if (b =? 0x5C) || (b =? 0x22) then "\" +:+ str1 b
  else if b =? 0x0A then "\n"
  else if b =? 0x0D then "\r"
  else if b =? 0x09 then "\t"
  else "\u00" +:+ hex (b / 16) +:+ hex (b mod 16).

(** The body of [encodeState.string]: ill-formed UTF-8 is written as the
    escape of U+FFFD, U+2028 and U+2029 are escaped, every other rune is
    copied.  [skip] and [keep] deal with the continuation bytes of the
    rune met last: copied, or dropped after an escape. *)
Fixpoint quote_body (s : string) (skip : nat) (keep : bool) : string :=
  match s with
  | EmptyString => ""
  | String c s' =>
      match skip with
      | S k => if keep then String c (quote_body s' k keep) else quote_body s' k keep
      | O =>
          let b := byte c in
          if b <? 0x80 then
            (if htmlSafe b then String c "" else escape_ascii b) +:+ quote_body s' 0 true
          else
            let '(r, size) := DecodeRune s in
            if (r =? RuneError) && (size =? 1)%nat then "\u" +:+ "fffd" +:+ quote_body s' 0 true
            else if (r =? 0x2028) || (r =? 0x2029)
            then "\u202" +:+ hex (r mod 16) +:+ quote_body s' (size - 1) false
            else String c (quote_body s' (size - 1) true)
      end
  end.

Definition quote (s : string) : string := DQ +:+ quote_body s 0 true +:+ DQ.

Definition unhex (c : ascii) : option Z :=
  let b := byte c in
  if between 0x30 b 0x39 then Some (b - 0x30)
  else if between 0x61 b 0x66 then Some (b - 0x61 + 10)
  else if between 0x41 b 0x46 then Some (b - 0x41 + 10)
  else None.

(** [getu4]: the value of four hexadecimal digits. *)
Definition getu4 (h1 h2 h3 h4 : ascii) : option Z :=
  match unhex h1, unhex h2, unhex h3, unhex h4 with
  | Some a, Some b, Some c, Some d => Some (((a * 16 + b) * 16 + c) * 16 + d)
  | _, _, _, _ => None
  end.

Definition IsSurrogate (r : Z) : bool := (0xD800 <=? r) && (r <? 0xE000).

(** [utf16.DecodeRune]. *)
Definition utf16_DecodeRune (r1 r2 : Z) : Z :=
  if (0xD800 <=? r1) && (r1 <? 0xDC00) && (0xDC00 <=? r2) && (r2 <? 0xE000)
  then (r1 - 0xD800) * 1024 + (r2 - 0xDC00) + 0x10000
  else RuneError.

(** Adds decoded bytes in front of what the rest of the literal gives;
    [raw] tells whether these bytes stood in the input as they are. *)
Definition push (d : string) (raw : bool) (r : option (string * bool * string))
  : option (string * bool * string) :=
  match r with
  | Some (t, plain, rest) => Some (d +:+ t, raw && plain, rest)
  | None => None
  end.

(** Reads a string literal whose opening quote has been consumed: the
    decoded bytes, whether the literal was free of escapes and of
    replaced bytes (its text is then the decoded bytes), and the input
    after the closing quote.  [None] is a syntax error (a raw control
    character, a bad escape, no closing quote).  Ill-formed UTF-8 is
    replaced by U+FFFD. *)
Fixpoint unquote_body (s : string) (skip : nat) : option (string * bool * string) :=
  match s with
  | EmptyString => None
  | String c s' =>
      match skip with
      | S k => push (String c "") true (unquote_body s' k)
      | O =>
          let b := byte c in
          if b =? 0x22 then Some ("", true, s')
          else if b =? 0x5C then
            match s' with
            | EmptyString => None
            | String e s'' =>
                let e' := byte e in
                if (e' =? 0x22) || (e' =? 0x5C) || (e' =? 0x2F)
                then push (String e "") false (unquote_body s'' 0)
                else if e' =? 0x62 then push (str1 0x08) false (unquote_body s'' 0)
                else if e' =? 0x66 then push (str1 0x0C) false (unquote_body s'' 0)
                else if e' =? 0x6E then push (str1 0x0A) false (unquote_body s'' 0)
                else if e' =? 0x72 then push (str1 0x0D) false (unquote_body s'' 0)
                else if e' =? 0x74 then push (str1 0x09) false (unquote_body s'' 0)
                else if e' =? 0x75 then
                  match s'' with
                  | String h1 (String h2 (String h3 (String h4 s5))) =>
                      match getu4 h1 h2 h3 h4 with
                      | None => None
                      | Some rr =>
                          if IsSurrogate rr then
                            match s5 with
                            | String p (String q (String g1 (String g2 (String g3 (String g4 s11))))) =>
                                if (byte p =? 0x5C) && (byte q =? 0x75) then
                                  match getu4 g1 g2 g3 g4 with
                                  | None => None
                                  | Some rr1 =>
                                      let dec := utf16_DecodeRune rr rr1 in
                                      if dec =? RuneError
                                      then push (EncodeRune RuneError) false (unquote_body s5 0)
                                      else push (EncodeRune dec) false (unquote_body s11 0)
                                  end
                                else push (EncodeRune RuneError) false (unquote_body s5 0)
                            | _ => push (EncodeRune RuneError) false (unquote_body s5 0)
                            end
                          else push (EncodeRune rr) false (unquote_body s5 0)
                      end
                  | _ => None
                  end
                else None
            end
          else if b <? 0x20 then None
          else if b <? 0x80 then push (String c "") true (unquote_body s' 0)
          else
            let '(_, size) := DecodeRune s in
            match size with
            | S (S k) => push (String c "") true (unquote_body s' (S k))
            | _ => push (EncodeRune RuneError) false (unquote_body s' 0)
            end
      end
  end.

(** ** time.Time as JSON (RFC 3339 with nanoseconds) *)

Definition digit (n : Z) : ascii := chr (0x30 + n).
Definition pad2 (n : Z) : string :=
  String (digit (n / 10)) (String (digit (n mod 10)) "").
Definition pad4 (n : Z) : string :=
  String (digit (n / 1000)) (String (digit (n / 100 mod 10))
    (String (digit (n / 10 mod 10)) (String (digit (n mod 10)) ""))).

(** The digits of a fraction of [w] places, trailing zeros left out. *)
Fixpoint fmt_frac (w : nat) (n : Z) : string :=
  match w with
  | O => ""
  | S w' =>
      if n =? 0 then ""
      else String (digit (n / 10 ^ Z.of_nat w')) (fmt_frac w' (n mod 10 ^ Z.of_nat w'))
  end.

Definition fmt_nano (nsec : Z) : string :=
  if nsec =? 0 then "" else "." +:+ fmt_frac 9 nsec.

Definition fmt_zone (off : Z) : string :=
  if off =? 0 then "Z"
  else (if off <? 0 then "-" else "+")
       +:+ pad2 (Z.abs off / 60) +:+ ":" +:+ pad2 (Z.abs off mod 60).

(** [t.Format(time.RFC3339Nano)]. *)
Definition RFC3339Nano (t : Time) : string :=
  pad4 (t_year t) +:+ "-" +:+ pad2 (t_month t) +:+ "-" +:+ pad2 (t_day t) +:+ "T"
  +:+ pad2 (t_hour t) +:+ ":" +:+ pad2 (t_minute t) +:+ ":" +:+ pad2 (t_second t)
  +:+ fmt_nano (t_nsec t) +:+ fmt_zone (t_offset t).

(** [Time.MarshalJSON]. *)
Definition Time_MarshalJSON (t : Time) : error + string :=
  if (t_year t <? 0) || (10000 <=? t_year t)
  then inl "Time.MarshalJSON: year outside of range [0,9999]"
  else inr (DQ +:+ RFC3339Nano t +:+ DQ).

Definition digit_val (c : ascii) : option Z :=
  if between 0x30 (byte c) 0x39 then Some (byte c - 0x30) else None.

Definition num2 (a b : ascii) : option Z :=
  match digit_val a, digit_val b with
  | Some x, Some y => Some (x * 10 + y)
  | _, _ => None
  end.

Definition num4 (a b c d : ascii) : option Z :=
  match num2 a b, num2 c d with
  | Some x, Some y => Some (x * 100 + y)
  | _, _ => None
  end.

(** The digits after the point, read as a fraction of [w] places; digits
    past the last place are dropped. *)
Fixpoint parse_frac (w : nat) (s : string) : Z * string :=
  match s with
  | EmptyString => (0, s)
  | String c s' =>
      match digit_val c with
      | None => (0, s)
      | Some d =>
          match w with
          | O => parse_frac O s'
          | S w' => let '(v, rest) := parse_frac w' s' in (d * 10 ^ Z.of_nat w' + v, rest)
          end
      end
  end.

Definition parse_nano (s : string) : option (Z * string) :=
  match s with
  | String p (String c s') =>
      if byte p =? 0x2E then
        match digit_val c with
        | Some _ => Some (parse_frac 9 (String c s'))
        | None => None
        end
      else Some (0, s)
  | _ => Some (0, s)
  end.

Definition parse_zone (s : string) : option Z :=
  match s with
  | String z EmptyString => if byte z =? 0x5A then Some 0 else None
  | String sg (String h1 (String h2 (String c (String m1 (String m2 EmptyString))))) =>
      if ((byte sg =? 0x2B) || (byte sg =? 0x2D)) && (byte c =? 0x3A) then
        match num2 h1 h2, num2 m1 m2 with
        | Some hh, Some mm =>
            if (hh <? 24) && (mm <? 60)
            then Some ((if byte sg =? 0x2D then -1 else 1) * (hh * 60 + mm))
            else None
        | _, _ => None
        end
      else None
  | _ => None
  end.

Definition isLeap (y : Z) : bool :=
  (y mod 4 =? 0) && (negb (y mod 100 =? 0) || (y mod 400 =? 0)).

Definition daysIn (m y : Z) : Z :=
  if m =? 2 then (if isLeap y then 29 else 28)
  else if (m =? 4) || (m =? 6) || (m =? 9) || (m =? 11) then 30
  else 31.

(** [time.Parse(time.RFC3339, s)] as [Time.UnmarshalJSON] uses it. *)
Definition parse_RFC3339 (s : string) : option Time :=
  match s with
  | String y1 (String y2 (String y3 (String y4 (String d1
    (String mo1 (String mo2 (String d2
    (String da1 (String da2 (String sep
    (String h1 (String h2 (String c1
    (String mi1 (String mi2 (String c2
    (String s1 (String s2 rest)))))))))))))))))) =>
      if (byte d1 =? 0x2D) && (byte d2 =? 0x2D) && (byte sep =? 0x54)
         && (byte c1 =? 0x3A) && (byte c2 =? 0x3A) then
        match num4 y1 y2 y3 y4, num2 mo1 mo2, num2 da1 da2,
              num2 h1 h2, num2 mi1 mi2, num2 s1 s2, parse_nano rest with
        | Some y, Some mo, Some da, Some h, Some mi, Some se, Some (ns, rest') =>
            match parse_zone rest' with
            | Some off =>
                if (1 <=? mo) && (mo <=? 12) && (1 <=? da) && (da <=? daysIn mo y)
                   && (h <? 24) && (mi <? 60) && (se <? 60)
                then Some (mkTime y mo da h mi se ns off)
                else None
            | None => None
            end
        | _, _, _, _, _, _, _ => None
        end
      else None
  | _ => None
  end.

(** ** encoding/json: values *)

#[warnings="-register-all"]
Inductive Json : Type :=
| JNull
| JBool (b : bool)
| JNumber (lit : string)
| JString (s : string) (plain : bool)
| JArray (l : list Json)
| JObject (kvs : list (string * Json)).

Definition is_ws (b : Z) : bool :=
  (b =? 0x20) || (b =? 0x09) || (b =? 0x0D) || (b =? 0x0A).

Fixpoint skip_ws (s : string) : string :=
  match s with
  | String c s' => if is_ws (byte c) then skip_ws s' else s
  | EmptyString => s
  end.

Definition is_digit (c : ascii) : bool := between 0x30 (byte c) 0x39.

(** The longest prefix of digits, and what follows it. *)
Fixpoint digits (s : string) : string * string :=
  match s with
  | String c s' =>
      if is_digit c then let '(d, rest) := digits s' in (String c d, rest)
      else ("", s)
  | EmptyString => ("", s)
  end.

Fixpoint strip_prefix (p s : string) : option string :=
  match p, s with
  | EmptyString, _ => Some s
  | String a p', String b s' => if Ascii.eqb a b then strip_prefix p' s' else None
  | String _ _, EmptyString => None
  end.

(** A number literal: [-? int frac? exp?].  An integer part that starts
    with 0 is that digit alone: the scanner ends the number there unless a
    fraction or an exponent follows. *)
Definition parse_number (s : string) : option (string * string) :=
  let '(sign, s1) :=
    match s with
    | String c s' => if byte c =? 0x2D then ("-", s') else ("", s)
    | EmptyString => ("", s)
    end in
  let '(int, s2) :=
    match s1 with
    | String z s' => if byte z =? 0x30 then ("0", s') else digits s1
    | EmptyString => ("", s1)
    end in
  match int with
  | EmptyString => None
  | String z int' =>
        let frac :=
          match s2 with
          | String c s' =>
              if byte c =? 0x2E then
                let '(f, s3) := digits s' in
                if String.eqb f "" then None else Some ("." +:+ f, s3)
              else Some ("", s2)
          | EmptyString => Some ("", s2)
          end in
        match frac with
        | None => None
        | Some (f, s3) =>
            match s3 with
            | String c s' =>
                if (byte c =? 0x65) || (byte c =? 0x45) then
                  let '(sg, s4) :=
                    match s' with
                    | String g s'' =>
                        if (byte g =? 0x2B) || (byte g =? 0x2D) then (String g "", s'')
                        else ("", s')
                    | EmptyString => ("", s')
                    end in
                  let '(e, s5) := digits s4 in
                  if String.eqb e "" then None
                  else Some (sign +:+ int +:+ f +:+ String c "" +:+ sg +:+ e, s5)
                else Some (sign +:+ int +:+ f, s3)
            | EmptyString => Some (sign +:+ int +:+ f, s3)
            end
        end
  end.

(** The nesting the scanner of encoding/json allows (Go 1.15 and later). *)
Definition maxNestingDepth : Z := 10000.

(** One JSON value at the head of the input, and the input after it.
    [fuel] bounds the recursion; [depth] counts the objects and arrays
    that are open, which the scanner refuses beyond [maxNestingDepth]. *)
Fixpoint parse_value (fuel : nat) (depth : Z) (s : string) : option (Json * string) :=
  match fuel with
  | O => None
  | S fuel' =>
      match skip_ws s with
      | EmptyString => None
      | String c s' =>
          let b := byte c in
          if b =? 0x22 then
            match unquote_body s' 0 with
            | Some (str, plain, rest) => Some (JString str plain, rest)
            | None => None
            end
          else if b =? 0x7B then
            if maxNestingDepth <? depth + 1 then None
            else
              match skip_ws s' with
              | EmptyString => None
              | String c' s'' =>
                  if byte c' =? 0x7D then Some (JObject [], s'')
                  else
                    match parse_members fuel' (depth + 1) s' with
                    | Some (kvs, rest) => Some (JObject kvs, rest)
                    | None => None
                    end
              end
          else if b =? 0x5B then
            if maxNestingDepth <? depth + 1 then None
            else
              match skip_ws s' with
              | EmptyString => None
              | String c' s'' =>
                  if byte c' =? 0x5D then Some (JArray [], s'')
                  else
                    match parse_elements fuel' (depth + 1) s' with
                    | Some (l, rest) => Some (JArray l, rest)
                    | None => None
                    end
              end
          else
            match strip_prefix "true" (String c s'), strip_prefix "false" (String c s'),
                  strip_prefix "null" (String c s') with
            | Some rest, _, _ => Some (JBool true, rest)
            | _, Some rest, _ => Some (JBool false, rest)
            | _, _, Some rest => Some (JNull, rest)
            | None, None, None =>
                match parse_number (String c s') with
                | Some (lit, rest) => Some (JNumber lit, rest)
                | None => None
                end
            end
      end
  end
with parse_members (fuel : nat) (depth : Z) (s : string)
  : option (list (string * Json) * string) :=
  match fuel with
  | O => None
  | S fuel' =>
      match skip_ws s with
      | EmptyString => None
      | String c s' =>
          if byte c =? 0x22 then
            match unquote_body s' 0 with
            | None => None
            | Some (k, _, r1) =>
                match skip_ws r1 with
                | EmptyString => None
                | String c1 r2 =>
                    if byte c1 =? 0x3A then
                      match parse_value fuel' depth r2 with
                      | None => None
                      | Some (v, r3) =>
                          match skip_ws r3 with
                          | EmptyString => None
                          | String c2 r4 =>
                              if byte c2 =? 0x2C then
                                match parse_members fuel' depth r4 with
                                | Some (kvs, r5) => Some ((k, v) :: kvs, r5)
                                | None => None
                                end
                              else if byte c2 =? 0x7D then Some ([(k, v)], r4)
                              else None
                          end
                      end
                    else None
                end
            end
          else None
      end
  end
with parse_elements (fuel : nat) (depth : Z) (s : string) : option (list Json * string) :=
  match fuel with
  | O => None
  | S fuel' =>
      match parse_value fuel' depth s with
      | None => None
      | Some (v, r1) =>
          match skip_ws r1 with
          | EmptyString => None
          | String c r2 =>
              if byte c =? 0x2C then
                match parse_elements fuel' depth r2 with
                | Some (l, r3) => Some (v :: l, r3)
                | None => None
                end
              else if byte c =? 0x5D then Some ([v], r2)
              else None
          end
      end
  end.

(** ** encoding/json for [oauth2.Token] *)

(** Go's zero [time.Time]: January 1 of year 1, 00:00:00 UTC. *)
Definition zero_Time : Time := mkTime 1 1 1 0 0 0 0 0.
Definition zero_Token : Token := mkToken "" "" "" zero_Time.

Definition key (name : string) : string := DQ +:+ name +:+ DQ +:+ ":".

(** [json.Marshal(token)]: the struct tags are [access_token],
    [token_type,omitempty], [refresh_token,omitempty] and
    [expiry,omitempty]; omitempty leaves out an empty string and has no
    effect on a struct such as [time.Time]. *)
Definition json_Marshal (t : Token) : error + string :=
  match Time_MarshalJSON (Expiry t) with
  | inl e => inl e
  | inr expiry =>
      inr ("{" +:+ key "access_token" +:+ quote (AccessToken t)
           +:+ (if String.eqb (TokenType t) "" then ""
                else "," +:+ key "token_type" +:+ quote (TokenType t))
           +:+ (if String.eqb (RefreshToken t) "" then ""
                else "," +:+ key "refresh_token" +:+ quote (RefreshToken t))
           +:+ "," +:+ key "expiry" +:+ expiry +:+ "}")
  end.

(** [n] bytes of [s] dropped. *)
Fixpoint string_drop (n : nat) (s : string) : string :=
  match n, s with
  | O, _ => s
  | S n', String _ s' => string_drop n' s'
  | S _, EmptyString => EmptyString
  end.

(** How the decoder matches the key of a member against the name of a
    field ([equalFoldRight] of encoding/json; from Go 1.21 on the folded
    names are compared, to the same effect for names that are ASCII): the
    name is ASCII, its letters match without regard to case, and on top of
    that s matches the long s U+017F and k the Kelvin sign U+212A, the two
    letters Unicode's simple case folding joins to an ASCII one. *)
Fixpoint equalFold (key name : string) : bool :=
  match name with
  | EmptyString => match key with EmptyString => true | _ => false end
  | String sc name' =>
      match key with
      | EmptyString => false
      | String tc key' =>
          let sb := byte sc in
          let tb := byte tc in
          if tb <? 0x80 then
            if sb =? tb then equalFold key' name'
            else
              let sbUpper := Z.land sb 0xDF in
              if between 0x41 sbUpper 0x5A && (sbUpper =? Z.land tb 0xDF)
              then equalFold key' name'
              else false
          else
            let '(tr, size) := DecodeRune key in
            if (sb =? 0x73) || (sb =? 0x53) then
              (if tr =? 0x17F then equalFold (string_drop size key) name' else false)
            else if (sb =? 0x6B) || (sb =? 0x4B) then
              (if tr =? 0x212A then equalFold (string_drop size key) name' else false)
            else false
      end
  end.

(** Storing a JSON value into a field of type string. *)
Definition store_string (v : Json) (set : string → Token) (t : Token)
  : Token * option error :=
  match v with
  | JString s _ => (set s, None)
  | JNull => (t, None)
  | _ => (t, Some "json: cannot unmarshal value into Go struct field of type string")
  end.

(** Storing into [Expiry], which goes through [Time.UnmarshalJSON]: it
    parses the text of the literal, so a literal written with escapes is
    refused. *)
Definition store_time (v : Json) (t : Token) : Token * option error :=
  match v with
  | JNull => (t, None)
  | JString s true =>
      match parse_RFC3339 s with
      | Some tm => (mkToken (AccessToken t) (TokenType t) (RefreshToken t) tm, None)
      | None => (t, Some "parsing time: cannot parse as RFC 3339")
      end
  | _ => (t, Some "parsing time: cannot parse as RFC 3339")
  end.

Definition store_field (k : string) (v : Json) (t : Token) : Token * option error :=
  if equalFold k "access_token"
  then store_string v (λ s, mkToken s (TokenType t) (RefreshToken t) (Expiry t)) t
  else if equalFold k "token_type"
  then store_string v (λ s, mkToken (AccessToken t) s (RefreshToken t) (Expiry t)) t
  else if equalFold k "refresh_token"
  then store_string v (λ s, mkToken (AccessToken t) (TokenType t) s (Expiry t)) t
  else if equalFold k "expiry"
  then store_time v t
  else (t, None).

(** The members of an object are stored in the order they stand in; the
    first error is the one reported. *)
Fixpoint store_members (kvs : list (string * Json)) (t : Token) : Token * option error :=
  match kvs with
  | [] => (t, None)
  | (k, v) :: kvs' =>
      let '(t1, e1) := store_field k v t in
      let '(t2, e2) := store_members kvs' t1 in
      (t2, match e1 with Some e => Some e | None => e2 end)
  end.

Definition unmarshal_Token (v : Json) (t : Token) : Token * option error :=
  match v with
  | JNull => (t, None)
  | JObject kvs => store_members kvs t
  | _ => (t, Some "json: cannot unmarshal value into Go value of type oauth2.Token")
  end.

(** [json.NewDecoder(f).Decode(t)] on a file holding [data]: the first
    JSON value of the file is read and stored into [t].  The value ends
    where the scanner completes it; what follows it in the file is left
    for a next call of Decode, which main.go never makes. *)
Definition json_Decode (data : string) (t : Token) : Token * option error :=
  match skip_ws data with
  | EmptyString => (t, Some "EOF")
  | String _ _ =>
      match parse_value (S (String.length data)) 0 data with
      | None => (t, Some "json: syntax error")
      | Some (v, _) => unmarshal_Token v t
      end
  end.

(** ** encoding/json for the body of a request *)

Fixpoint first_error {A} (f : A → option error) (l : list A) : option error :=
  match l with
  | [] => None
  | a :: l' =>
      match f a with
      | Some e => Some e
      | None => first_error f l'
      end
  end.

(** A float64 that is neither an infinity nor a NaN: its exponent bits are
    not all ones. *)
Definition float_is_finite (bits : Z) : bool :=
  negb (Z.land (Z.shiftr bits 52) 0x7FF =? 0x7FF).

(** How strconv writes a float64 that is not finite. *)
Definition float_special (bits : Z) : string :=
  if Z.land bits 0xFFFFFFFFFFFFF =? 0
  then (if Z.testbit bits 63 then "-Inf" else "+Inf")
  else "NaN".

(** The error [json.Marshal] has for a cell: a float64 must be finite and
    a time must have a year it can write; every other value of a cell is
    encoded.  The text is that of the encoder's own error, without what
    the MarshalJSON methods of the request around it add in front. *)
Definition cell_encode_error (v : Value) : option error :=
  match v with
  | VFloat64 bits =>
      if float_is_finite bits then None
      else Some ("json: unsupported value: " +:+ float_special bits)
  | VTime t =>
      match Time_MarshalJSON t with
      | inl e => Some ("json: error calling MarshalJSON for type time.Time: " +:+ e)
      | inr _ => None
      end
  | _ => None
  end.

Definition grid_encode_error (g : Grid) : option error :=
  first_error (first_error cell_encode_error) g.

(** The error of encoding the body of a request, if there is one. *)
Definition request_encode_error (rb : BatchUpdateValuesRequest) : option error :=
  first_error (λ vr, grid_encode_error (Values vr)) (Data rb).

(** ** Configuration (viper) *)

(** The parsed config.yml: scalars and nested mappings. *)
#[warnings="-register-all"]
Inductive Yaml : Type :=
| YStr (s : string)
| YMap (kvs : list (string * Yaml)).

Fixpoint assoc {A} (k : string) (kvs : list (string * A)) : option A :=
  match kvs with
  | [] => None
  | (k', v) :: kvs' => if decide (k = k') then Some v else assoc k kvs'
  end.

(** Splits a key at every ["."], viper's key delimiter. *)
Fixpoint split_key (key : string) (cur : string) : list string :=
  match key with
  | EmptyString => [cur]
  | String c key' =>
      if Ascii.eqb c "." then cur :: split_key key' ""
      else split_key key' (cur +:+ String c "")
  end.

(** [strings.Join(path, ".")]. *)
Fixpoint join (path : list string) : string :=
  match path with
  | [] => ""
  | [k] => k
  | k :: path' => k +:+ "." +:+ join path'
  end.

(** viper's [searchMapWithPathPrefixes]: the value at [path] in a nested
    mapping.  A key of the mapping may itself hold the delimiter, so at
    each level the prefixes of the path are tried as one key, the longest
    first; a prefix that leads to a scalar or to nothing is given up for
    the next shorter one.  [fuel] bounds the descent. *)
Fixpoint searchMapWithPathPrefixes (fuel : nat) (y : Yaml) (path : list string)
  : option Yaml :=
  match path with
  | [] => Some y
  | _ :: _ =>
      match fuel, y with
      | S fuel', YMap kvs =>
          (fix try (i : nat) : option Yaml :=
             match i with
             | O => None
             | S i' =>
                 let found :=
                   match assoc (join (take i path)) kvs with
                   | None => None
                   | Some next =>
                       if (i =? length path)%nat then Some next
                       else
                         match next with
                         | YMap _ => searchMapWithPathPrefixes fuel' next (drop i path)
                         | YStr _ => None
                         end
                   end in
                 match found with
                 | Some v => Some v
                 | None => try i'
                 end
             end) (length path)
      | _, _ => None
      end
  end.

(** [strings.ToLower] on a key: the letters A to Z become a to z.  The
    other bytes are kept, so a key with letters outside ASCII is looked up
    in the case it is written in. *)
Fixpoint ToLower (s : string) : string :=
  match s with
  | EmptyString => EmptyString
  | String c s' =>
      String (if between 0x41 (byte c) 0x5A then chr (byte c + 32) else c) (ToLower s')
  end.

(** [viper.Get(key)] on a configuration read from a file: the key is put
    in lower case and split at the delimiter.  The settings are as viper
    holds them, with their keys in lower case. *)
Definition viper_Get (cfg : Yaml) (key : string) : option Yaml :=
  let path := split_key (ToLower key) "" in
  searchMapWithPathPrefixes (S (length path)) cfg path.

(** [viper.GetString(key)]: the empty string when the key is absent or is
    not a scalar. *)
Definition GetString (cfg : Yaml) (key : string) : string :=
  match viper_Get cfg key with
  | Some (YStr s) => s
  | _ => ""
  end.

(** The keys of [viper.GetStringMap(key)]. *)
Definition GetStringMap_keys (cfg : Yaml) (key : string) : list string :=
  match viper_Get cfg key with
  | Some (YMap kvs) => map fst kvs
  | _ => []
  end.

(** ** Events, state and environment *)

Inductive Level : Type := DebugLevel | InfoLevel | FatalLevel.

(** [oauth2.Config] as read from client_secret.json. *)
Record OAuthConfig := mkOAuthConfig {
  ClientID : string;
  ClientSecret : string;
  RedirectURL : string;
  Scopes : list string
}.

Inductive Event : Type :=
| EvLog (lvl : Level) (msg : string)           (* a logrus line *)
| EvPrint (out : string)                       (* fmt.Printf / fmt.Println *)
| EvScan                                       (* fmt.Scan(&code) *)
| EvExchange (code : string)                   (* config.Exchange *)
| EvCreate (file : string)                     (* os.Create *)
| EvWrite (file : string) (data : string)      (* bytes written to a created file *)
| EvDbOpen                                     (* sql.Open + db.Ping *)
| EvQuery (q : string)                         (* db.Query *)
| EvRowsOpen (id : nat)                        (* the cursor a query returned *)
| EvRowsClose (id : nat)                       (* a cursor gets closed *)
| EvRefresh (refresh : string)                 (* the token source mints a new token *)
| EvBatchUpdate (access : string) (spreadsheetId : string)
                (rb : BatchUpdateValuesRequest). (* ...Values.BatchUpdate(...).Do() *)

Record State := mkState {
  st_viper : Yaml;                   (* viper's global settings *)
  st_fs : gmap string string;        (* files: path to contents *)
  st_trace : list Event;             (* what the process has done, oldest first *)
  st_open : list nat;                (* cursors opened and not closed *)
  st_rows : nat;                     (* number of cursors opened so far *)
  st_deferred : list (option nat);   (* main's deferred rows.Close(), last deferred first *)
  st_source : Token                  (* the token the client's token source holds *)
}.

(** Answers of the outside world; those that may change during a run take
    the events so far. *)
Record Env := mkEnv {
  env_config : option Yaml;                           (* viper.ReadInConfig *)
  env_range : list string → list string;              (* order in which range walks a map's keys *)
  env_ConfigFromJSON : string → error + OAuthConfig;  (* google.ConfigFromJSON *)
  env_AuthCodeURL : OAuthConfig → string;             (* config.AuthCodeURL("state-token", offline) *)
  env_Scan : error + string;                          (* fmt.Scan(&code) *)
  env_Exchange : string → error + Token;              (* config.Exchange *)
  env_Create : string → option error;                 (* does os.Create fail? *)
  env_DbOpen : list Event → option error;             (* sql.Open *)
  env_Ping : list Event → option error;               (* db.Ping *)
  env_Query : list Event → string → error + Rows;     (* db.Query *)
  env_valid : list Event → Token → bool;              (* is the held access token still valid? *)
  env_refresh : list Event → Token → error + Token;   (* refresh with the refresh token *)
  env_BatchUpdate : list Event → string → BatchUpdateValuesRequest → option error
}.

Definition init_State (fs : gmap string string) : State :=
  mkState (YMap []) fs [] [] 0 [] zero_Token.

(** ** The monad of main.go: state, fatal exit and panic *)

Definition M (A : Type) : Type := State → Res A * State.

Definition m_ret {A} (a : A) : M A := fun st => (Ret a, st).

Definition m_bind {A B} (c : M A) (k : A → M B) : M B :=
  fun st =>
    match c st with
    | (Ret a, st') => k a st'
    | (Fatal m, st') => (Fatal m, st')
    | (Panic m, st') => (Panic m, st')
    end.

Notation "'let*' x ':=' c 'in' k" := (m_bind c (fun x => k))
  (at level 10, x name, c at level 100, k at level 200).
Notation "c ';;' k" := (m_bind c (fun _ => k))
  (at level 100, k at level 200, right associativity).

Definition get {A} (f : State → A) : M A := fun st => (Ret (f st), st).
Definition emit (e : Event) : M unit :=
  fun st => (Ret tt, mkState (st_viper st) (st_fs st) (st_trace st ++ [e])
                             (st_open st) (st_rows st) (st_deferred st) (st_source st)).
Definition panic {A} (msg : string) : M A := fun st => (Panic msg, st).
Definition lift {A} (r : Res A) : M A := fun st => (r, st).

Definition set_viper (y : Yaml) : M unit :=
  fun st => (Ret tt, mkState y (st_fs st) (st_trace st)
                             (st_open st) (st_rows st) (st_deferred st) (st_source st)).
Definition set_file (file data : string) : M unit :=
  fun st => (Ret tt, mkState (st_viper st) (<[file := data]> (st_fs st)) (st_trace st)
                             (st_open st) (st_rows st) (st_deferred st) (st_source st)).
Definition set_source (t : Token) : M unit :=
  fun st => (Ret tt, mkState (st_viper st) (st_fs st) (st_trace st)
                             (st_open st) (st_rows st) (st_deferred st) t).

(** logrus *)
Definition log_Debug (msg : string) : M unit := emit (EvLog DebugLevel msg).
Definition log_Infof (msg : string) : M unit := emit (EvLog InfoLevel msg).
Definition log_Fatal {A} (msg : string) : M A :=
  fun st => let '(_, st') := emit (EvLog FatalLevel msg) st in (Fatal msg, st').

(** Cursor bookkeeping. *)
Definition open_rows : M nat :=
  fun st =>
    let id := st_rows st in
    (Ret id, mkState (st_viper st) (st_fs st) (st_trace st ++ [EvRowsOpen id])
                     (id :: st_open st) (S id) (st_deferred st) (st_source st)).

(** [rows.Close()]: closing a closed cursor does nothing. *)
Definition close_rows (id : nat) : M unit :=
  fun st =>
    if decide (id ∈ st_open st) then
      (Ret tt, mkState (st_viper st) (st_fs st) (st_trace st ++ [EvRowsClose id])
                       (filter (λ j, j ≠ id) (st_open st)) (st_rows st)
                       (st_deferred st) (st_source st))
    else (Ret tt, st).

(** [defer rows.Close()] in main: the call is kept until main returns or
    panics; [None] is a nil [*sql.Rows]. *)
Definition defer_Close (rows : option nat) : M unit :=
  fun st => (Ret tt, mkState (st_viper st) (st_fs st) (st_trace st)
                             (st_open st) (st_rows st) (rows :: st_deferred st)
                             (st_source st)).

(** [rows.Next()] returning false: database/sql closes the cursor unless
    the driver announces a further result set. *)
Definition Next_false (id : nat) (rows : Rows) : M unit :=
  if rows_next_set rows then m_ret tt else close_rows id.

Inductive Client : Type := HttpClient (config : OAuthConfig).

(** The text getTokenFromWeb prints (lines 38-39). *)
Definition prompt (authURL : string) : string :=
  "Go to the following link in your browser then type the "
  +:+ "authorization code: " +:+ LF +:+ authURL +:+ LF.

Section Program.
Variable env : Env.

(** *** Credential store *)

(** tokenFromFile (lines 55-64).  On an open error Go returns a nil
    token, which getClient never reads; [zero_Token] stands for it. *)
Definition tokenFromFile (file : string) : M (Token * option error) :=
  let* fs := get st_fs in
  match fs !! file with
  | None => m_ret (zero_Token, Some ("open " +:+ file +:+ ": no such file or directory"))
  | Some data => m_ret (json_Decode data zero_Token)
  end.

(** saveToken (lines 66-74).  [os.Create] truncates; the error of
    [Encode] is not looked at. *)
Definition saveToken (file : string) (token : Token) : M unit :=
  emit (EvPrint ("Saving credential file to: " +:+ file +:+ LF)) ;;
  match env_Create env file with
  | Some err => log_Fatal ("Unable to cache oauth token: " +:+ err)
  | None =>
      emit (EvCreate file) ;;
      set_file file "" ;;
      match json_Marshal token with
      | inl _ => m_ret tt
      | inr data =>
          emit (EvWrite file (data +:+ LF)) ;;
          set_file file (data +:+ LF)
      end
  end.

(** *** Delegated-auth client *)

(** getTokenFromWeb (lines 36-51). *)
Definition getTokenFromWeb (config : OAuthConfig) : M Token :=
  let authURL := env_AuthCodeURL env config in
  emit (EvPrint ("Go to the following link in your browser then type the "
                 +:+ "authorization code: " +:+ LF +:+ authURL +:+ LF)) ;;
  emit EvScan ;;
  match env_Scan env with
  | inl err => log_Fatal ("Unable to read authorization code " +:+ err)
  | inr code =>
      emit (EvExchange code) ;;
      match env_Exchange env code with
      | inl err => log_Fatal ("Unable to retrieve token from web " +:+ err)
      | inr tok => m_ret tok
      end
  end.

(** [config.Client(ctx, tok)]: an HTTP client whose transport draws its
    token from a reusing token source that starts with [tok]. *)
Definition config_Client (config : OAuthConfig) (tok : Token) : M Client :=
  set_source tok ;; m_ret (HttpClient config).

(** getClient (lines 24-32). *)
Definition cacheFile : string := "./cache.json".

Definition getClient (config : OAuthConfig) : M Client :=
  let* r := tokenFromFile cacheFile in
  let* tok :=
    match snd r with
    | Some _ =>
        let* tok := getTokenFromWeb config in
        saveToken cacheFile tok ;;
        m_ret tok
    | None => m_ret (fst r)
    end in
  config_Client config tok.

(** The token source behind the client: the held token while it is
    valid, otherwise a refreshed one, kept in memory only. *)
Definition source_Token : M (error + Token) :=
  let* tok := get st_source in
  let* tr := get st_trace in
  if env_valid env tr tok then m_ret (inr tok)
  else
    emit (EvRefresh (RefreshToken tok)) ;;
    match env_refresh env tr tok with
    | inl e => m_ret (inl e)
    | inr tok' => set_source tok' ;; m_ret (inr tok')
    end.

(** [sheetsService.Spreadsheets.Values.BatchUpdate(id, rb).Context(ctx).Do()]:
    the body is encoded first, and an error of the encoder is returned
    before anything else is done; then the HTTP client asks the token
    source for a token, and the request goes out. *)
Definition BatchUpdate_Do (spreadsheetId : string) (rb : BatchUpdateValuesRequest)
  : M (option error) :=
  match request_encode_error rb with
  | Some e => m_ret (Some e)
  | None =>
      let* t := source_Token in
      match t with
      | inl e => m_ret (Some e)
      | inr tok =>
          let* tr := get st_trace in
          emit (EvBatchUpdate (AccessToken tok) spreadsheetId rb) ;;
          m_ret (env_BatchUpdate env tr spreadsheetId rb)
      end
  end.

(** *** Database *)

(** DbConnect (lines 180-198). *)
Definition DbConnect : M unit :=
  let* tr := get st_trace in
  emit EvDbOpen ;;
  match env_DbOpen env tr with
  | Some _ => log_Fatal "Unable to connect to Postgres DB"
  | None =>
      match env_Ping env tr with
      | Some _ => log_Fatal "Unable to connect to Postgres DB"
      | None => log_Debug "You are Successfully connected!"
      end
  end.

(** [db.Query(q)]: a nil cursor when the query fails. *)
Definition db_Query (q : string) : M (option (nat * Rows)) :=
  let* tr := get st_trace in
  emit (EvQuery q) ;;
  match env_Query env tr q with
  | inl _ => m_ret None
  | inr rows => let* id := open_rows in m_ret (Some (id, rows))
  end.

(** *** Loader runner *)

(** The body of the loop of main (lines 120-176). *)
Definition run_loader (loader : string) : M unit :=
  log_Infof ("Running Loader " +:+ loader) ;;
  let* cfg := get st_viper in
  let spreadsheetId := GetString cfg ("loaders." +:+ loader +:+ ".sheet") in
  let rangeData := GetString cfg "loaders.ulta.range" in
  DbConnect ;;
  let* rows := db_Query (GetString cfg ("loaders." +:+ loader +:+ ".query")) in
  defer_Close (fst <$> rows) ;;
  match rows with
  | None => panic "runtime error: invalid memory address or nil pointer dereference"
  | Some (id, rows) =>
      let* sheetValues := lift (convert rows) in
      Next_false id rows ;;
      let rb := mkRequest "USER_ENTERED" [mkValueRange rangeData sheetValues] in
      let* err := BatchUpdate_Do spreadsheetId rb in
      match err with
      | Some e => log_Fatal e
      | None => emit (EvPrint ("Done." +:+ LF))
      end
  end.

(** [for loader := range loaders { ... }] (lines 119-177). *)
Fixpoint run_loaders (loaders : list string) : M unit :=
  match loaders with
  | [] => m_ret tt
  | loader :: loaders' => run_loader loader ;; run_loaders loaders'
  end.

(** config (lines 200-208), called by init. *)
Definition config : M unit :=
  match env_config env with
  | None => panic "Could not read config file"
  | Some y => set_viper y
  end.

(** main (lines 100-178). *)
Definition main : M unit :=
  let* fs := get st_fs in
  match fs !! "client_secret.json" with
  | None => log_Fatal "Unable to read client secret file"
  | Some b =>
      match env_ConfigFromJSON env b with
      | inl err => log_Fatal ("Unable to parse client secret file to config: " +:+ err)
      | inr config =>
          let* client := getClient config in
          let* cfg := get st_viper in
          let loaders := GetStringMap_keys cfg "loaders" in
          run_loaders (env_range env loaders)
      end
  end.

(** The deferred calls of main, last deferred first. *)
Definition run_deferred (st : State) : State :=
  foldl (λ st d, match d with
                 | Some id => snd (close_rows id st)
                 | None => st
                 end) st (st_deferred st).

(** The process: init, then main; deferred calls run when main returns
    or panics, not on a fatal exit. *)
Definition program (fs : gmap string string) : Res unit * State :=
  match (config ;; main) (init_State fs) with
  | (Ret tt, st) => (Ret tt, run_deferred st)
  | (Panic m, st) => (Panic m, run_deferred st)
  | (Fatal m, st) => (Fatal m, st)
  end.

End Program.

(** What saveToken leaves in the file for a token: [Encode] writes the
    JSON text and a line feed, or nothing when marshalling fails. *)
Definition saved (t : Token) : string :=
  match json_Marshal t with
  | inr data => data +:+ LF
  | inl _ => ""
  end.


(** ** A sample installation, used to run the model *)

Definition demo_config : Yaml :=
  YMap [("database", YMap [("host", YStr "localhost"); ("dbname", YStr "shop")]);
        ("loaders",
         YMap [("orders", YMap [("query", YStr "SELECT id, total FROM orders");
                                ("sheet", YStr "sheet-orders");
                                ("range", YStr "Orders!A1")]);
               ("ulta", YMap [("query", YStr "SELECT sku, price FROM ulta");
                              ("sheet", YStr "sheet-ulta");
                              ("range", YStr "Ulta!A1")])])].

Definition demo_token : Token :=
  mkToken "ya29.access" "Bearer" "1/refresh" (mkTime 2018 6 1 12 30 0 0 120).

Definition demo_fresh_token : Token :=
  mkToken "ya29.minted" "Bearer" "1/refresh" (mkTime 2018 6 1 13 30 0 0 120).

Definition demo_fs : gmap string string :=
  <["./cache.json" := saved demo_token]> (<["client_secret.json" := "{}"]> ∅).

Definition demo_fs_first_run : gmap string string :=
  <["client_secret.json" := "{}"]> ∅.

Definition demo_rows : Rows :=
  mkRows ["id"; "total"] [RowData [VInt64 1; VBytes "9.50"]; RowData [VInt64 2; VNil]] false.

(** The installation: [query] and [update] are the answers of the database
    and of the Sheets API, [valid] tells whether the held token is still
    good when a request goes out. *)
Definition demo_env (query : string → error + Rows)
    (update : string → option error) (valid : bool) : Env :=
  mkEnv (Some demo_config) (λ keys, keys)
        (λ _, inr (mkOAuthConfig "client-id" "client-secret" "urn:ietf:wg:oauth:2.0:oob"
                                 ["https://www.googleapis.com/auth/spreadsheets"]))
        (λ _, "https://accounts.google.com/o/oauth2/auth")
        (inr "4/code") (λ _, inr demo_token) (λ _, None)
        (λ _, None) (λ _, None) (λ _ q, query q)
        (λ _ tok, valid || String.eqb (AccessToken tok) "ya29.minted")
        (λ _ _, inr demo_fresh_token)
        (λ _ sid _, update sid).

(** A cursor with a further result set behind the one read, as a query
    text with several statements gives. *)
Definition demo_rows_more : Rows := mkRows ["id"] [RowData [VInt64 1]] true.


(** The Sheets API refusing the writes to one spreadsheet. *)
Definition reject (sheet : string) (sid : string) : option error :=
  if String.eqb sid sheet then Some "googleapi: Error 403: forbidden" else None.

(** The state main's loop starts in on the sample installation. *)
Definition demo_start : State :=
  mkState demo_config demo_fs [] [] 0 [] demo_token.

(** ** Reading a trace *)

(** The writes sent to the Sheets API: spreadsheet and ranges of each. *)
Fixpoint written_ranges (tr : list Event) : list (string * list string) :=
  match tr with
  | [] => []
  | EvBatchUpdate _ sid rb :: tr' => (sid, map Range (Data rb)) :: written_ranges tr'
  | _ :: tr' => written_ranges tr'
  end.

(** The life of the cursors: queries, openings, closings, and the "Done."
    that ends a loader's turn. *)
Fixpoint cursor_events (tr : list Event) : list Event :=
  match tr with
  | [] => []
  | EvQuery q :: tr' => EvQuery q :: cursor_events tr'
  | EvRowsOpen id :: tr' => EvRowsOpen id :: cursor_events tr'
  | EvRowsClose id :: tr' => EvRowsClose id :: cursor_events tr'
  | EvPrint out :: tr' => EvPrint out :: cursor_events tr'
  | _ :: tr' => cursor_events tr'
  end.

(** The loaders main has started on. *)
Fixpoint started (tr : list Event) : list string :=
  match tr with
  | [] => []
  | EvLog InfoLevel msg :: tr' => msg :: started tr'
  | _ :: tr' => started tr'
  end.

(** * Predicates and sample data of the properties *)

(** Events the loop of main can add to the trace. *)
Definition loader_event (e : Event) : Prop :=
  match e with
  | EvCreate _ | EvWrite _ _ | EvScan | EvExchange _ => False
  | _ => True
  end.

(** [st'] comes from [st] by loader events only: same files, same
    settings. *)
Definition quiet_step (st st' : State) : Prop :=
  st_fs st' = st_fs st ∧ st_viper st' = st_viper st
  ∧ ∃ evs, st_trace st' = st_trace st ++ evs ∧ Forall loader_event evs.

(** A computation that only takes quiet steps. *)
Definition quiet {A} (c : M A) : Prop := ∀ st, quiet_step st (c st).2.

Definition cache_loads (fs : gmap string string) : Prop :=
  ∃ data tok, fs !! cacheFile = Some data ∧ json_Decode data zero_Token = (tok, None).

Definition exchanged (env : Env) (st : State) : Prop :=
  ∃ code tok, EvExchange code ∈ st_trace st ∧ env_Exchange env code = inr tok.

(** What holds of the files and of the trace all along a run started on
    the files [fs0]. *)
Definition cache_inv (env : Env) (fs0 : gmap string string) (st : State) : Prop :=
  (∀ file, EvCreate file ∈ st_trace st →
     file = cacheFile ∧ exchanged env st ∧ ¬ cache_loads fs0)
  ∧ (∀ file data, EvWrite file data ∈ st_trace st → EvCreate file ∈ st_trace st)
  ∧ ((∀ file, EvCreate file ∉ st_trace st) → st_fs st = fs0).

Definition no_write (e : Event) : Prop :=
  match e with
  | EvCreate _ | EvWrite _ _ => False
  | _ => True
  end.

(** Strings the encoder writes as they are: ASCII with nothing to escape. *)
Fixpoint is_plain (s : string) : bool :=
  match s with
  | EmptyString => true
  | String c s' => (byte c <? 0x80) && htmlSafe (byte c) && is_plain s'
  end.

(** The calendar times a [time.Time] can hold whose year the JSON encoder
    accepts. *)
Definition wf_Time (t : Time) : Prop :=
  0 ≤ t_year t ≤ 9999
  ∧ 1 ≤ t_month t ≤ 12
  ∧ 1 ≤ t_day t ≤ daysIn (t_month t) (t_year t)
  ∧ 0 ≤ t_hour t < 24 ∧ 0 ≤ t_minute t < 60 ∧ 0 ≤ t_second t < 60
  ∧ 0 ≤ t_nsec t < 1000000000
  ∧ -1440 < t_offset t < 1440.

Definition starts_without_digit (s : string) : Prop :=
  match s with
  | EmptyString => True
  | String c _ => digit_val c = None
  end.

(** A well-formed credential: text fields in valid UTF-8 and a representable
    expiry. *)
Definition wf_Token (t : Token) : Prop :=
  ValidString (AccessToken t) = true
  ∧ ValidString (TokenType t) = true
  ∧ ValidString (RefreshToken t) = true
  ∧ wf_Time (Expiry t).

(** A credential whose access token is the single byte 0xFF, which is not
    UTF-8. *)
Definition odd_token : Token :=
  mkToken (str1 0xFF) "Bearer" "1/refresh" (mkTime 2018 6 1 12 30 0 0 120).

(** A credential expiring in the year 10000. *)
Definition late_token : Token :=
  mkToken "ya29.access" "Bearer" "1/refresh" (mkTime 10000 1 1 0 0 0 0 0).

(** The state [saveToken] leaves when it returns. *)
Definition after_save (env : Env) (file : string) (tok : Token) (st : State) : State :=
  (saveToken env file tok st).2.

(** A start on a cache file that holds no JSON. *)
Definition demo_broken_start : State :=
  mkState demo_config (<[cacheFile := "not json"]> demo_fs) [] [] 0 [] zero_Token.

Definition demo_oauth : OAuthConfig :=
  mkOAuthConfig "client-id" "client-secret" "urn:ietf:wg:oauth:2.0:oob"
                ["https://www.googleapis.com/auth/spreadsheets"].

(** * Further predicates and trace readers *)

(** A cell that is not a byte slice. *)
Definition no_bytes (v : Value) : Prop :=
  match v with
  | VBytes _ => False
  | _ => True
  end.

(** The requests sent to the Sheets API, oldest first: the access token
    each went out with, the spreadsheet, and the request body. *)
Fixpoint updates (tr : list Event) : list (string * string * BatchUpdateValuesRequest) :=
  match tr with
  | [] => []
  | EvBatchUpdate access sid rb :: tr' => (access, sid, rb) :: updates tr'
  | _ :: tr' => updates tr'
  end.

(** The number of database handles opened. *)
Fixpoint connections (tr : list Event) : nat :=
  match tr with
  | [] => 0
  | EvDbOpen :: tr' => S (connections tr')
  | _ :: tr' => connections tr'
  end.

(** A cursor whose third row reports [sql.ErrNoRows]. *)
Definition demo_rows_norows : Rows :=
  mkRows ["id"; "total"]
         (map RowData [[VInt64 1; VBytes "9.50"]; [VInt64 2; VNil]]
          ++ RowErrNoRows :: [RowData [VInt64 3; VNil]]) false.

(** The grid of [demo_rows]. *)
Definition demo_grid : Grid :=
  [[VString "id"; VString "total"]; [VInt64 1; VString "9.50"]; [VInt64 2; VNil]].


(** A cache file written by hand, with a day that does not exist. *)
Definition demo_fs_feb30 : gmap string string :=
  <[cacheFile := "{" +:+ key "access_token" +:+ quote "ya29.access" +:+ ","
                 +:+ key "expiry" +:+ quote "2018-02-30T12:30:00Z" +:+ "}"]> demo_fs.

(** ** Frames: what a computation leaves as it is *)

(** Every run of [c] ends in a state that [R] relates to the start. *)
Definition frames {A} (R : State → State → Prop) (c : M A) : Prop :=
  ∀ st, R st (c st).2.

(** Events are only added, and every added event satisfies [P]. *)
Definition adds (P : Event → Prop) (st st' : State) : Prop :=
  ∃ evs, st_trace st' = st_trace st ++ evs ∧ Forall P evs.

(** No cursor is opened and no call is deferred. *)
Definition settles (st st' : State) : Prop :=
  st_open st' ⊆ st_open st
  ∧ st_deferred st' = st_deferred st
  ∧ st_rows st' = st_rows st.

(** The set of open cursors stays as it is. *)
Definition same_cursors (st st' : State) : Prop :=
  st_open st' = st_open st ∧ st_rows st' = st_rows st.

(** Every open cursor has its Close among main's deferred calls. *)
Definition tidy (st : State) : Prop :=
  ∀ id, id ∈ st_open st → Some id ∈ st_deferred st.

(** Neither the opening of a database handle nor the line that announces
    a loader. *)
Definition in_turn (e : Event) : Prop :=
  match e with
  | EvDbOpen | EvLog InfoLevel _ => False
  | _ => True
  end.

(** The grids of the sample database. *)
Definition demo_table (q : string) : Grid := demo_grid.

(** The refresh tokens the token source has sent to the provider. *)
Fixpoint refreshes (tr : list Event) : list string :=
  match tr with
  | [] => []
  | EvRefresh r :: tr' => r :: refreshes tr'
  | _ :: tr' => refreshes tr'
  end.

(** An installation whose provider refuses the authorization code. *)
Definition demo_env_refused : Env :=
  mkEnv (Some demo_config) (λ keys, keys) (λ _, inr demo_oauth)
        (λ _, "https://accounts.google.com/o/oauth2/auth")
        (inr "4/code") (λ _, inl "oauth2: cannot fetch token: 400 Bad Request")
        (λ _, None) (λ _, None) (λ _, None) (λ _ _, inr demo_rows) (λ _ _, true)
        (λ _ _, inr demo_token) (λ _ _ _, None).

(** ** Text that is not UTF-8 *)

(** [s] with every byte that does not belong to a well-formed UTF-8
    sequence replaced by U+FFFD; [skip] counts the continuation bytes still
    owed to the rune being copied, as in [utf8_valid]. *)
Fixpoint sanitize (s : string) (skip : nat) : string :=
  match s with
  | EmptyString => ""
  | String c s' =>
      match skip with
      | S k => String c (sanitize s' k)
      | O =>
          if byte c <? 0x80 then String c (sanitize s' 0)
          else
            let '(_, size) := DecodeRune s in
            match size with
            | S (S k) => String c (sanitize s' (S k))
            | _ => EncodeRune RuneError +:+ sanitize s' 0
            end
      end
  end.

Definition ToValidUTF8 (s : string) : string := sanitize s 0.

(** The credential with its three text fields made valid UTF-8. *)
Definition sanitized (t : Token) : Token :=
  mkToken (ToValidUTF8 (AccessToken t)) (ToValidUTF8 (TokenType t))
          (ToValidUTF8 (RefreshToken t)) (Expiry t).

(** A member name that is none of the four of [oauth2.Token]. *)
Definition foreign_key (k : string) : Prop :=
  equalFold k "access_token" = false
  ∧ equalFold k "token_type" = false
  ∧ equalFold k "refresh_token" = false
  ∧ equalFold k "expiry" = false.

(** A start on a cache file that holds an object without any field of a
    credential. *)
Definition demo_hollow_start : State :=
  mkState demo_config (<[cacheFile := "{" +:+ key "note" +:+ quote "to do" +:+ "}"]> demo_fs)
          [] [] 0 [] demo_token.

(** ** The parts of a loader's turn *)

(** The settings main reads for a loader (lines 121, 122 and 125). *)
Definition turn_sheet (cfg : Yaml) (l : string) : string :=
  GetString cfg ("loaders." +:+ l +:+ ".sheet").
Definition turn_query (cfg : Yaml) (l : string) : string :=
  GetString cfg ("loaders." +:+ l +:+ ".query").
Definition turn_request (cfg : Yaml) (grid : Grid) : BatchUpdateValuesRequest :=
  mkRequest "USER_ENTERED" [mkValueRange (GetString cfg "loaders.ulta.range") grid].

(** The state of a turn once the cursor [rows] has been read to its end
    (line 163): the events up to there, the cursor opened, deferred for
    closing, and closed already unless a further result set is left. *)
Definition after_rows (l : string) (rows : Rows) (st : State) : State :=
  let id := st_rows st in
  mkState (st_viper st) (st_fs st)
    (st_trace st
     ++ [EvLog InfoLevel ("Running Loader " +:+ l); EvDbOpen;
         EvLog DebugLevel "You are Successfully connected!";
         EvQuery (turn_query (st_viper st) l); EvRowsOpen id]
     ++ (if rows_next_set rows then [] else [EvRowsClose id]))
    (if rows_next_set rows then id :: st_open st
     else filter (λ j, j ≠ id) (id :: st_open st))
    (S id) (Some id :: st_deferred st) (st_source st).

(** Lines 165-176: the request is built and sent, and its outcome
    handled. *)
Definition write (env : Env) (cfg : Yaml) (l : string) (grid : Grid) : M unit :=
  m_bind (BatchUpdate_Do env (turn_sheet cfg l) (turn_request cfg grid))
    (λ err, match err with
            | Some e => log_Fatal e
            | None => emit (EvPrint ("Done." +:+ LF))
            end).

(** A state with events added to its trace, and with another token in
    its token source. *)
Definition with_events (st : State) (evs : list Event) : State :=
  mkState (st_viper st) (st_fs st) (st_trace st ++ evs) (st_open st) (st_rows st)
          (st_deferred st) (st_source st).
Definition with_source (st : State) (tok : Token) : State :=
  mkState (st_viper st) (st_fs st) (st_trace st) (st_open st) (st_rows st)
          (st_deferred st) tok.

(** What the Sheets API is sent for a loader whose query gives the grid
    [table q]: the access token, the spreadsheet, the body. *)
Definition request_of (cfg : Yaml) (access : string) (table : string → Grid)
    (l : string) : string * string * BatchUpdateValuesRequest :=
  (access, turn_sheet cfg l, turn_request cfg (table (turn_query cfg l))).

(** The line that announces a loader (line 120). *)
Definition announce (l : string) : string := "Running Loader " +:+ l.

(** A loader for which everything answers: its query gives a cursor, the
    cursor converts to a grid that can be encoded, and the write to its
    spreadsheet is accepted. *)
Definition works (env : Env) (cfg : Yaml) (answer : string → Rows)
    (table : string → Grid) (l : string) : Prop :=
  (∀ tr, env_Query env tr (turn_query cfg l) = inr (answer (turn_query cfg l)))
  ∧ convert (answer (turn_query cfg l)) = Ret (table (turn_query cfg l))
  ∧ grid_encode_error (table (turn_query cfg l)) = None
  ∧ (∀ tr rb, env_BatchUpdate env tr (turn_sheet cfg l) rb = None).

(** An installation with three loaders. *)
Definition demo_config3 : Yaml :=
  YMap [("loaders",
         YMap [("orders", YMap [("query", YStr "SELECT id, total FROM orders");
                                ("sheet", YStr "sheet-orders");
                                ("range", YStr "Orders!A1")]);
               ("ulta", YMap [("query", YStr "SELECT sku, price FROM ulta");
                              ("sheet", YStr "sheet-ulta");
                              ("range", YStr "Ulta!A1")]);
               ("stock", YMap [("query", YStr "SELECT sku, qty FROM stock");
                               ("sheet", YStr "sheet-stock");
                               ("range", YStr "Stock!A1")])])].

Definition demo_start3 : State :=
  mkState demo_config3 demo_fs [] [] 0 [] demo_token.


(** A cursor whose only row holds a float64 that is not a number, as
    SELECT 'NaN'::float8 gives it. *)
Definition demo_rows_nan : Rows :=
  mkRows ["ratio"] [RowData [VFloat64 0x7FF8000000000000]] false.
(** * Row-to-grid conversion *)

Section Conversion.
Implicit Types (values row : list Value) (data : list (list Value)) (columns : list string).

Lemma cells_seq values k : ∀ i x,
  (i + k = length values)%nat →
  cells values (seq i k) x = Ret (x ++ map coerce (drop i values)).
Proof.
  induction k as [|k IH]; intros i x Hlen; simpl.
  - rewrite drop_ge by lia. by rewrite app_nil_r.
  - destruct (values !! i) as [val|] eqn:Hval.
    + rewrite IH by lia.
      rewrite (drop_S _ _ _ Hval). simpl. by rewrite <- app_assoc.
    + apply lookup_ge_None in Hval. lia.
Qed.

Lemma cells_all values columns :
  length values = length columns →
  cells values (seq 0 (length columns)) [] = Ret (map coerce values).
Proof.
  intros Hlen. rewrite cells_seq by (simpl; lia). by rewrite drop_0.
Qed.

Lemma rows_Scan_data row values :
  length row = length values → rows_Scan (RowData row) values = ScanNil row.
Proof. intros H. unfold rows_Scan. by rewrite decide_True. Qed.

Lemma scan_loop_data columns data : ∀ values sheetValues,
  length values = length columns →
  Forall (λ row, length row = length columns) data →
  scan_loop columns (map RowData data) values sheetValues
  = Ret (sheetValues ++ map (map coerce) data).
Proof.
  induction data as [|row data IH]; intros values sheetValues Hv Hd; cbn [map scan_loop].
  - by rewrite app_nil_r.
  - inversion Hd as [|? ? Hrow Hdata]; subst.
    rewrite rows_Scan_data by congruence.
    rewrite cells_all by done.
    rewrite IH by done. by rewrite <- app_assoc.
Qed.

Lemma scan_loop_failure columns pre ev post : ∀ values sheetValues,
  length values = length columns →
  Forall (λ row, length row = length columns) pre →
  scan_loop columns (map RowData pre ++ ev :: post) values sheetValues
  = match rows_Scan ev (default values (last pre)) with
    | ScanErrNoRows => Panic "something went wrong.."
    | ScanErr _ => Panic "row scan failure"
    | ScanNil values' =>
        match cells values' (seq 0 (length columns)) [] with
        | Ret x => scan_loop columns post values'
                     (sheetValues ++ map (map coerce) pre ++ [x])
        | Fatal m => Fatal m
        | Panic m => Panic m
        end
    end.
Proof.
  induction pre as [|row pre IH]; intros values sheetValues Hv Hd.
  - cbn [map app scan_loop last default]. by destruct (rows_Scan ev values).
  - inversion Hd as [|? ? Hrow Hdata]; subst. cbn [map app scan_loop].
    rewrite rows_Scan_data by congruence.
    rewrite cells_all by done.
    rewrite IH by done.
    replace (default values (last (row :: pre))) with (default row (last pre)).
    2:{ clear. induction pre as [|r [|r' pre] IH]; done. }
    destruct (rows_Scan ev _); try done.
    destruct (cells _ _ _); try done.
    by rewrite <- !app_assoc.
Qed.

Lemma convert_data columns data more :
  Forall (λ row, length row = length columns) data →
  convert (mkRows columns (map RowData data) more)
  = Ret (map VString columns :: map (map coerce) data).
Proof.
  intros Hd. unfold convert; simpl.
  rewrite scan_loop_data; [done | by rewrite length_replicate | done].
Qed.

End Conversion.

(** C3: a cursor with C columns that yields R data rows, each of C values,
    converts to a grid of R+1 rows; row 0 is the header made of the column
    names, and every row, the header included, has length C. *)
Theorem convert_shape (columns : list string) (data : list (list Value)) (more : bool) :
  Forall (λ row, length row = length columns) data →
  ∃ grid : Grid,
    convert (mkRows columns (map RowData data) more) = Ret grid
    ∧ length grid = S (length data)
    ∧ grid !! 0%nat = Some (map VString columns)
    ∧ Forall (λ row, length row = length columns) grid.
Proof.
  intros Hd. eexists. split; [by apply convert_data|].
  split; [simpl; by rewrite length_map|]. split; [done|].
  constructor; [by rewrite length_map|].
  rewrite Forall_map. eapply Forall_impl; [exact Hd|].
  intros row Hrow; simpl. by rewrite length_map.
Qed.

Lemma convert_shape_witness :
  ∃ grid : Grid,
    convert (mkRows ["id"; "name"] (map RowData [[VInt64 1; VBytes "ann"]; [VInt64 2; VNil]]) false) = Ret grid
    ∧ length grid = 3%nat
    ∧ grid !! 0%nat = Some [VString "id"; VString "name"]
    ∧ Forall (λ row, length row = 2%nat) grid.
Proof.
  apply (convert_shape ["id"; "name"] [[VInt64 1; VBytes "ann"]; [VInt64 2; VNil]] false).
  repeat constructor.
Defined.

(** * A loader's turn, step by step *)

Lemma updates_app tr1 tr2 : updates (tr1 ++ tr2) = updates tr1 ++ updates tr2.
Proof.
  induction tr1 as [|e tr1 IH]; [done|].
  destruct e; cbn [app updates]; by rewrite ?IH.
Qed.

Lemma refreshes_app tr1 tr2 : refreshes (tr1 ++ tr2) = refreshes tr1 ++ refreshes tr2.
Proof.
  induction tr1 as [|e tr1 IH]; [done|].
  destruct e; cbn [app refreshes]; by rewrite ?IH.
Qed.

Lemma connections_app tr1 tr2 :
  connections (tr1 ++ tr2) = (connections tr1 + connections tr2)%nat.
Proof.
  induction tr1 as [|e tr1 IH]; [done|].
  destruct e; cbn [app connections]; by rewrite ?IH.
Qed.

Lemma started_app tr1 tr2 : started (tr1 ++ tr2) = started tr1 ++ started tr2.
Proof.
  induction tr1 as [|e tr1 IH]; [done|].
  destruct e as [[] ?| | | | | | | | | | |]; cbn [app started]; by rewrite ?IH.
Qed.


Lemma first_error_None {A} (f : A → option error) (l : list A) :
  Forall (λ a, f a = None) l → first_error f l = None.
Proof. induction 1 as [|a l Ha _ IH]; [done|]. cbn [first_error]. by rewrite Ha. Qed.

Lemma header_encodes (columns : list string) :
  first_error cell_encode_error (map VString columns) = None.
Proof. apply first_error_None. apply Forall_map. by apply Forall_true. Qed.

(** Up to the end of the conversion. *)
Lemma turn_converted env l st rows grid :
  (∀ tr, env_DbOpen env tr = None) →
  (∀ tr, env_Ping env tr = None) →
  (∀ tr, env_Query env tr (turn_query (st_viper st) l) = inr rows) →
  convert rows = Ret grid →
  run_loader env l st = write env (st_viper st) l grid (after_rows l rows st).
Proof.
  intros Hopen Hping Hquery Hconv.
  unfold run_loader, write, after_rows, turn_query in *.
  unfold m_bind at 1. unfold log_Infof at 1, emit at 1.
  unfold m_bind at 1. unfold get at 1. cbn [st_viper].
  unfold m_bind at 1. unfold DbConnect, m_bind at 1. unfold get at 1. cbn [st_trace].
  unfold m_bind at 1. unfold emit at 1. rewrite Hopen, Hping. unfold log_Debug, emit at 1.
  cbn [st_trace st_viper st_fs st_open st_rows st_deferred st_source].
  unfold m_bind at 1. unfold db_Query, m_bind at 1. unfold get at 1. cbn [st_trace].
  unfold m_bind at 1. unfold emit at 1. rewrite Hquery.
  cbn [st_trace st_viper st_fs st_open st_rows st_deferred st_source].
  unfold m_bind at 1. unfold open_rows at 1, m_ret at 1.
  cbn [st_trace st_viper st_fs st_open st_rows st_deferred st_source].
  unfold m_bind at 1. unfold defer_Close at 1.
  cbn [fst snd fmap option_fmap option_map st_trace st_viper st_fs st_open st_rows
       st_deferred st_source].
  unfold m_bind at 1. unfold lift at 1. rewrite Hconv.
  unfold m_bind at 1. unfold Next_false, close_rows, m_ret.
  cbn [st_trace st_viper st_fs st_open st_rows st_deferred st_source].
  destruct (rows_next_set rows).
  - rewrite app_nil_r, <- !app_assoc. reflexivity.
  - rewrite decide_True by (apply elem_of_cons; by left).
    cbn [st_trace st_viper st_fs st_open st_rows st_deferred st_source].
    rewrite <- !app_assoc. reflexivity.
Qed.

Lemma request_encode_turn cfg grid :
  request_encode_error (turn_request cfg grid) = grid_encode_error grid.
Proof.
  unfold request_encode_error, turn_request. cbn [Data Values first_error].
  by destruct (grid_encode_error grid).
Qed.

(** A grid that cannot be encoded: nothing is sent, no token is asked for. *)
Lemma write_unencodable env cfg l grid st e :
  grid_encode_error grid = Some e →
  write env cfg l grid st = (Fatal e, with_events st [EvLog FatalLevel e]).
Proof.
  intros He. unfold write, BatchUpdate_Do. rewrite request_encode_turn, He.
  reflexivity.
Qed.

(** A held token that is valid: the request goes out with it. *)
Lemma write_sent env cfg l grid st :
  grid_encode_error grid = None →
  env_valid env (st_trace st) (st_source st) = true →
  write env cfg l grid st
  = match env_BatchUpdate env (st_trace st) (turn_sheet cfg l) (turn_request cfg grid) with
    | None =>
        (Ret tt,
         with_events st [EvBatchUpdate (AccessToken (st_source st)) (turn_sheet cfg l)
                           (turn_request cfg grid);
                         EvPrint ("Done." +:+ LF)])
    | Some e =>
        (Fatal e,
         with_events st [EvBatchUpdate (AccessToken (st_source st)) (turn_sheet cfg l)
                           (turn_request cfg grid);
                         EvLog FatalLevel e])
    end.
Proof.
  intros He Hv. unfold write, BatchUpdate_Do. rewrite request_encode_turn, He.
  unfold source_Token, log_Fatal, set_source, emit, get, m_ret, m_bind, with_events.
  cbn [st_trace st_viper st_fs st_open st_rows st_deferred st_source]. rewrite Hv.
  cbn [st_trace st_viper st_fs st_open st_rows st_deferred st_source].
  destruct (env_BatchUpdate env _ _ _);
    cbn [st_trace st_viper st_fs st_open st_rows st_deferred st_source];
    by rewrite <- app_assoc.
Qed.

(** A held token that has expired and is refreshed: the request goes out
    with the new token, which is held from then on. *)
Lemma write_refreshed env cfg l grid st fresh :
  grid_encode_error grid = None →
  env_valid env (st_trace st) (st_source st) = false →
  env_refresh env (st_trace st) (st_source st) = inr fresh →
  write env cfg l grid st
  = match env_BatchUpdate env (st_trace st ++ [EvRefresh (RefreshToken (st_source st))])
            (turn_sheet cfg l) (turn_request cfg grid) with
    | None =>
        (Ret tt,
         with_source
           (with_events st [EvRefresh (RefreshToken (st_source st));
                            EvBatchUpdate (AccessToken fresh) (turn_sheet cfg l)
                              (turn_request cfg grid);
                            EvPrint ("Done." +:+ LF)]) fresh)
    | Some e =>
        (Fatal e,
         with_source
           (with_events st [EvRefresh (RefreshToken (st_source st));
                            EvBatchUpdate (AccessToken fresh) (turn_sheet cfg l)
                              (turn_request cfg grid);
                            EvLog FatalLevel e]) fresh)
    end.
Proof.
  intros He Hv Hr. unfold write, BatchUpdate_Do. rewrite request_encode_turn, He.
  unfold source_Token, log_Fatal, set_source, emit, get, m_ret, m_bind, with_events,
    with_source.
  cbn [st_trace st_viper st_fs st_open st_rows st_deferred st_source]. rewrite Hv.
  cbn [st_trace st_viper st_fs st_open st_rows st_deferred st_source]. rewrite Hr.
  cbn [st_trace st_viper st_fs st_open st_rows st_deferred st_source].
  destruct (env_BatchUpdate env _ _ _);
    cbn [st_trace st_viper st_fs st_open st_rows st_deferred st_source];
    by rewrite <- !app_assoc.
Qed.

(** A held token that has expired and cannot be refreshed: nothing is
    sent. *)
Lemma write_refresh_failed env cfg l grid st e :
  grid_encode_error grid = None →
  env_valid env (st_trace st) (st_source st) = false →
  env_refresh env (st_trace st) (st_source st) = inl e →
  write env cfg l grid st
  = (Fatal e, with_events st [EvRefresh (RefreshToken (st_source st)); EvLog FatalLevel e]).
Proof.
  intros He Hv Hr. unfold write, BatchUpdate_Do. rewrite request_encode_turn, He.
  unfold source_Token, log_Fatal, set_source, emit, get, m_ret, m_bind, with_events.
  cbn [st_trace st_viper st_fs st_open st_rows st_deferred st_source]. rewrite Hv.
  cbn [st_trace st_viper st_fs st_open st_rows st_deferred st_source]. rewrite Hr.
  cbn [st_trace st_viper st_fs st_open st_rows st_deferred st_source].
  by rewrite <- !app_assoc.
Qed.

(** ** Whole turns *)

Lemma turn_ok env l st rows grid :
  (∀ tr, env_DbOpen env tr = None) →
  (∀ tr, env_Ping env tr = None) →
  (∀ tr, env_Query env tr (turn_query (st_viper st) l) = inr rows) →
  convert rows = Ret grid →
  grid_encode_error grid = None →
  (∀ tr, env_valid env tr (st_source st) = true) →
  (∀ tr rb, env_BatchUpdate env tr (turn_sheet (st_viper st) l) rb = None) →
  run_loader env l st
  = (Ret tt,
     with_events (after_rows l rows st)
       [EvBatchUpdate (AccessToken (st_source st)) (turn_sheet (st_viper st) l)
          (turn_request (st_viper st) grid);
        EvPrint ("Done." +:+ LF)]).
Proof.
  intros Hopen Hping Hquery Hconv Henc Hvalid Hupdate.
  rewrite (turn_converted env l st rows grid Hopen Hping Hquery Hconv).
  rewrite write_sent by (done || apply Hvalid). by rewrite Hupdate.
Qed.

Lemma turn_rejected env l st rows grid e :
  (∀ tr, env_DbOpen env tr = None) →
  (∀ tr, env_Ping env tr = None) →
  (∀ tr, env_Query env tr (turn_query (st_viper st) l) = inr rows) →
  convert rows = Ret grid →
  grid_encode_error grid = None →
  (∀ tr, env_valid env tr (st_source st) = true) →
  (∀ tr rb, env_BatchUpdate env tr (turn_sheet (st_viper st) l) rb = Some e) →
  run_loader env l st
  = (Fatal e,
     with_events (after_rows l rows st)
       [EvBatchUpdate (AccessToken (st_source st)) (turn_sheet (st_viper st) l)
          (turn_request (st_viper st) grid);
        EvLog FatalLevel e]).
Proof.
  intros Hopen Hping Hquery Hconv Henc Hvalid Hupdate.
  rewrite (turn_converted env l st rows grid Hopen Hping Hquery Hconv).
  rewrite write_sent by (done || apply Hvalid). by rewrite Hupdate.
Qed.

Lemma turn_query_failed env l st :
  (∀ tr, env_DbOpen env tr = None) →
  (∀ tr, env_Ping env tr = None) →
  (∀ tr, ∃ e, env_Query env tr (turn_query (st_viper st) l) = inl e) →
  run_loader env l st
  = (Panic "runtime error: invalid memory address or nil pointer dereference",
     mkState (st_viper st) (st_fs st)
       (st_trace st ++ [EvLog InfoLevel (announce l); EvDbOpen;
                        EvLog DebugLevel "You are Successfully connected!";
                        EvQuery (turn_query (st_viper st) l)])
       (st_open st) (st_rows st) (None :: st_deferred st) (st_source st)).
Proof.
  intros Hopen Hping Hquery.
  unfold run_loader, DbConnect, db_Query, log_Infof, log_Debug, log_Fatal, defer_Close,
    panic, emit, get, m_ret, m_bind, turn_query, announce in *.
  cbn -[String.append GetString convert].
  rewrite Hopen, Hping. cbn -[String.append GetString convert].
  match goal with
  | |- context [env_Query env ?tr ?q] => destruct (Hquery tr) as [e ->]
  end.
  cbn -[String.append GetString]. by rewrite <- !app_assoc.
Qed.

(** The readers of a trace on the state a turn is in after its rows. *)
Lemma after_rows_reads l rows st :
  updates (st_trace (after_rows l rows st)) = updates (st_trace st)
  ∧ refreshes (st_trace (after_rows l rows st)) = refreshes (st_trace st)
  ∧ started (st_trace (after_rows l rows st)) = started (st_trace st) ++ [announce l]
  ∧ st_viper (after_rows l rows st) = st_viper st
  ∧ st_source (after_rows l rows st) = st_source st
  ∧ st_fs (after_rows l rows st) = st_fs st.
Proof.
  unfold after_rows. cbn [st_trace st_viper st_source st_fs].
  rewrite !updates_app, !refreshes_app, !started_app.
  destruct (rows_next_set rows); cbn [updates refreshes started app];
    by rewrite ?app_nil_r.
Qed.

(** A list of loaders for each of which everything answers. *)
Lemma run_loaders_work env cfg held answer table ls : ∀ st,
  st_viper st = cfg → st_source st = held →
  (∀ tr, env_DbOpen env tr = None) →
  (∀ tr, env_Ping env tr = None) →
  (∀ tr, env_valid env tr held = true) →
  Forall (works env cfg answer table) ls →
  ∃ st', run_loaders env ls st = (Ret tt, st')
    ∧ updates (st_trace st')
      = updates (st_trace st) ++ map (request_of cfg (AccessToken held) table) ls
    ∧ refreshes (st_trace st') = refreshes (st_trace st)
    ∧ started (st_trace st') = started (st_trace st) ++ map announce ls
    ∧ st_viper st' = cfg
    ∧ st_source st' = held
    ∧ st_fs st' = st_fs st.
Proof.
  induction ls as [|l ls IH]; intros st Hcfg Hsrc Hopen Hping Hvalid Hall.
  { exists st. cbn [run_loaders map]. by rewrite !app_nil_r. }
  inversion Hall as [|? ? (Hq & Hconv & Henc & Hupd) Hrest]; subst.
  pose proof (turn_ok env l st _ _ Hopen Hping Hq Hconv Henc Hvalid Hupd) as Hturn.
  destruct (after_rows_reads l (answer (turn_query (st_viper st) l)) st)
    as (Hu & Hr & Hs & Hv & Hsrc1 & Hf).
  set (st1 := with_events _ _) in Hturn.
  destruct (IH st1) as (st2 & Hrun & Hu2 & Hr2 & Hs2 & Hv2 & Hsrc2 & Hf2); try done.
  exists st2. cbn [run_loaders]. unfold m_bind. rewrite Hturn, Hrun.
  split; [done|]. rewrite Hu2, Hr2, Hs2, Hf2. subst st1. unfold with_events.
  cbn [st_trace st_fs]. rewrite !updates_app, !refreshes_app, !started_app, Hu, Hr, Hs, Hf.
  cbn [updates refreshes started map]. rewrite !app_nil_r, <- !app_assoc.
  repeat split; done.
Qed.

(** The same when every query is answered and every grid can be encoded. *)
Lemma run_loaders_ok env answer table held ls st :
  (∀ tr, env_DbOpen env tr = None) →
  (∀ tr, env_Ping env tr = None) →
  (∀ tr q, env_Query env tr q = inr (answer q)) →
  (∀ q, convert (answer q) = Ret (table q)) →
  (∀ q, grid_encode_error (table q) = None) →
  (∀ tr, env_valid env tr held = true) →
  (∀ tr sid rb, env_BatchUpdate env tr sid rb = None) →
  st_source st = held →
  ∃ st', run_loaders env ls st = (Ret tt, st')
    ∧ updates (st_trace st')
      = updates (st_trace st) ++ map (request_of (st_viper st) (AccessToken held) table) ls
    ∧ refreshes (st_trace st') = refreshes (st_trace st)
    ∧ st_viper st' = st_viper st
    ∧ st_source st' = held
    ∧ st_fs st' = st_fs st.
Proof.
  intros Hopen Hping Hquery Hconvert Hencode Hvalid Hupdate Hsrc.
  destruct (run_loaders_work env (st_viper st) held answer table ls st eq_refl Hsrc
              Hopen Hping Hvalid) as (st' & Hrun & Hu & Hr & _ & Hv & Hs & Hf).
  { apply Forall_forall. intros l _. repeat split; auto. }
  by exists st'.
Qed.

(** The readers of a trace on a state with events added. *)
Lemma with_events_reads st evs :
  updates (st_trace (with_events st evs)) = updates (st_trace st) ++ updates evs
  ∧ refreshes (st_trace (with_events st evs)) = refreshes (st_trace st) ++ refreshes evs
  ∧ st_viper (with_events st evs) = st_viper st
  ∧ st_source (with_events st evs) = st_source st
  ∧ st_fs (with_events st evs) = st_fs st.
Proof. unfold with_events. cbn [st_trace]. by rewrite updates_app, refreshes_app. Qed.
(** * The loop of main *)

Lemma run_loaders_abort env l rest st :
  is_Ret (run_loader env l st).1 = false →
  run_loaders env (l :: rest) st = run_loader env l st.
Proof.
  intros H. cbn [run_loaders]. unfold m_bind.
  destruct (run_loader env l st) as [[[]| |] st']; simpl in *; congruence.
Qed.

Lemma run_loaders_app env pre post st :
  run_loaders env (pre ++ post) st
  = match run_loaders env pre st with
    | (Ret _, st1) => run_loaders env post st1
    | (Fatal m, st1) => (Fatal m, st1)
    | (Panic m, st1) => (Panic m, st1)
    end.
Proof.
  revert st. induction pre as [|l pre IH]; intros st; [done|].
  cbn [app run_loaders]. unfold m_bind.
  destruct (run_loader env l st) as [[[]| |] st']; [apply IH|done|done].
Qed.

(** C2 (amended): the loaders are run in order and the batch ends at the
    first loader that fails; the loaders after it are not started and
    nothing is recorded for them.  With the loaders before [l] working:
    when the query of [l] fails, the process ends in the nil-pointer panic
    with the requests of the earlier loaders sent and none for [l]; when
    the write of [l] is rejected, the process ends through log.Fatal with
    the error of the API, the request of [l] being the last one sent; and
    in whatever way [l] fails to return, the loop ends as [l] does. *)
Theorem batch_ends_at_first_failure (env : Env) (cfg : Yaml) (held : Token)
    (answer : string → Rows) (table : string → Grid)
    (pre : list string) (l : string) (post : list string) (st : State) :
  st_viper st = cfg → st_source st = held →
  (∀ tr, env_DbOpen env tr = None) →
  (∀ tr, env_Ping env tr = None) →
  (∀ tr, env_valid env tr held = true) →
  Forall (works env cfg answer table) pre →
  ((∀ tr, ∃ e, env_Query env tr (turn_query cfg l) = inl e) →
   ∃ st', run_loaders env (pre ++ l :: post) st
          = (Panic "runtime error: invalid memory address or nil pointer dereference", st')
     ∧ updates (st_trace st')
       = updates (st_trace st) ++ map (request_of cfg (AccessToken held) table) pre
     ∧ started (st_trace st') = started (st_trace st) ++ map announce (pre ++ [l]))
  ∧ (∀ e,
     (∀ tr, env_Query env tr (turn_query cfg l) = inr (answer (turn_query cfg l))) →
     convert (answer (turn_query cfg l)) = Ret (table (turn_query cfg l)) →
     grid_encode_error (table (turn_query cfg l)) = None →
     (∀ tr rb, env_BatchUpdate env tr (turn_sheet cfg l) rb = Some e) →
     ∃ st', run_loaders env (pre ++ l :: post) st = (Fatal e, st')
       ∧ updates (st_trace st')
         = updates (st_trace st)
           ++ map (request_of cfg (AccessToken held) table) (pre ++ [l])
       ∧ started (st_trace st') = started (st_trace st) ++ map announce (pre ++ [l]))
  ∧ (∀ st1, run_loaders env pre st = (Ret tt, st1) →
     is_Ret (run_loader env l st1).1 = false →
     run_loaders env (pre ++ l :: post) st = run_loader env l st1).
Proof.
  intros Hcfg Hsrc Hopen Hping Hvalid Hpre.
  destruct (run_loaders_work env cfg held answer table pre st Hcfg Hsrc Hopen Hping
              Hvalid Hpre) as (st1 & Hrun & Hu & _ & Hs & Hv1 & Hsrc1 & _).
  split; [|split].
  - intros Hquery. rewrite <- Hv1 in Hquery.
    pose proof (turn_query_failed env l st1 Hopen Hping Hquery) as Hl.
    eexists. rewrite run_loaders_app, Hrun, run_loaders_abort by (by rewrite Hl).
    split; [exact Hl|]. cbn [st_trace].
    rewrite updates_app, started_app, Hu, Hs, map_app. cbn [updates started map].
    by rewrite app_nil_r, app_assoc.
  - intros e Hquery Hconv Henc Hupd. rewrite <- Hv1 in Hquery, Hconv, Henc, Hupd.
    rewrite <- Hsrc1 in Hvalid.
    pose proof (turn_rejected env l st1 _ _ e Hopen Hping Hquery Hconv Henc Hvalid Hupd)
      as Hl.
    destruct (after_rows_reads l (answer (turn_query (st_viper st1) l)) st1)
      as (Hu1 & _ & Hs1 & _).
    eexists. rewrite run_loaders_app, Hrun, run_loaders_abort by (by rewrite Hl).
    split; [exact Hl|]. unfold with_events. cbn [st_trace].
    rewrite updates_app, started_app, Hu1, Hs1, Hu, Hs, !map_app.
    cbn [updates started map]. unfold request_of. rewrite Hv1, Hsrc1.
    by rewrite !app_nil_r, !app_assoc.
  - intros st1' Hpre' Hl. rewrite run_loaders_app, Hpre'. by apply run_loaders_abort.
Qed.
Ltac unfold_M :=
  unfold run_loader, DbConnect, db_Query, BatchUpdate_Do, source_Token, Next_false,
    close_rows, getClient, tokenFromFile, getTokenFromWeb, saveToken, config_Client,
    m_bind, log_Infof, log_Debug, log_Fatal, emit, get, open_rows, defer_Close,
    lift, panic, set_source, set_file, set_viper, m_ret.
Ltac run := cbn -[convert GetString String.append json_Decode json_Marshal cacheFile].

(** * Frame of the loader runner *)

Lemma quiet_step_refl st : quiet_step st st.
Proof. repeat split. exists []. by rewrite app_nil_r. Qed.

Lemma quiet_step_trans st1 st2 st3 :
  quiet_step st1 st2 → quiet_step st2 st3 → quiet_step st1 st3.
Proof.
  intros (Hf1 & Hv1 & evs1 & Ht1 & He1) (Hf2 & Hv2 & evs2 & Ht2 & He2).
  split; [congruence|]. split; [congruence|].
  exists (evs1 ++ evs2). split.
  - by rewrite Ht2, Ht1, app_assoc.
  - by apply Forall_app.
Qed.

Lemma quiet_step_emit st fs vp tr op rw df src evs :
  st_fs st = fs → st_viper st = vp → tr = st_trace st ++ evs → Forall loader_event evs →
  quiet_step st (mkState vp fs tr op rw df src).
Proof. intros <- <- -> H. repeat split. by exists evs. Qed.

Lemma quiet_ret {A} (a : A) : quiet (m_ret a).
Proof. intros st. apply quiet_step_refl. Qed.

Lemma quiet_bind {A B} (c : M A) (k : A → M B) :
  quiet c → (∀ a, quiet (k a)) → quiet (m_bind c k).
Proof.
  intros Hc Hk st. unfold m_bind. specialize (Hc st).
  destruct (c st) as [[a| |] st1]; simpl in *; [|done|done].
  eapply quiet_step_trans; [exact Hc|apply Hk].
Qed.

Lemma quiet_get {A} (f : State → A) : quiet (get f).
Proof. intros st. apply quiet_step_refl. Qed.

Lemma quiet_lift {A} (r : Res A) : quiet (lift r).
Proof. intros st. apply quiet_step_refl. Qed.

Lemma quiet_panic {A} msg : quiet (@panic A msg).
Proof. intros st. apply quiet_step_refl. Qed.

Lemma quiet_emit e : loader_event e → quiet (emit e).
Proof. intros He st. eapply quiet_step_emit; eauto. Qed.

Lemma quiet_log_Fatal {A} msg : quiet (@log_Fatal A msg).
Proof. intros st. eapply quiet_step_emit; eauto. by repeat constructor. Qed.

Lemma quiet_set_source t : quiet (set_source t).
Proof. intros st. eapply (quiet_step_emit _ _ _ _ _ _ _ _ []); eauto. by rewrite app_nil_r. Qed.

Lemma quiet_defer_Close r : quiet (defer_Close r).
Proof. intros st. eapply (quiet_step_emit _ _ _ _ _ _ _ _ []); eauto. by rewrite app_nil_r. Qed.

Lemma quiet_open_rows : quiet open_rows.
Proof. intros st. eapply quiet_step_emit; eauto. by repeat constructor. Qed.

Lemma quiet_close_rows id : quiet (close_rows id).
Proof.
  intros st. unfold close_rows. case_decide.
  - eapply quiet_step_emit; eauto. by repeat constructor.
  - apply quiet_step_refl.
Qed.

Ltac quiet_tac :=
  repeat first
    [ apply quiet_ret | apply quiet_get | apply quiet_lift | apply quiet_panic
    | apply quiet_log_Fatal | apply quiet_set_source | apply quiet_defer_Close
    | apply quiet_open_rows | apply quiet_close_rows
    | apply quiet_emit; exact I
    | apply quiet_bind; [|intros ?]
    | case_match ].

Lemma quiet_run_loader env l : quiet (run_loader env l).
Proof.
  unfold run_loader, DbConnect, db_Query, BatchUpdate_Do, source_Token, Next_false,
    log_Infof, log_Debug.
  quiet_tac.
Qed.

Lemma quiet_run_loaders env ls : quiet (run_loaders env ls).
Proof.
  induction ls as [|l ls IH]; cbn [run_loaders].
  - apply quiet_ret.
  - apply quiet_bind; [apply quiet_run_loader|by intros _].
Qed.

(** * The credential cache *)

Lemma loader_event_in (e : Event) evs :
  Forall loader_event evs → e ∈ evs → loader_event e.
Proof. intros H Hin. by eapply Forall_forall in H. Qed.

Lemma cache_inv_quiet env fs0 st st' :
  cache_inv env fs0 st → quiet_step st st' → cache_inv env fs0 st'.
Proof.
  intros (Hc & Hw & Hf) (Hfs & _ & evs & Htr & Hev).
  assert (Hold : ∀ e, ¬ loader_event e → e ∈ st_trace st' → e ∈ st_trace st).
  { intros e Hne. rewrite Htr, elem_of_app. intros [?|Hin]; [done|].
    destruct Hne. by eapply loader_event_in. }
  assert (Hnew : ∀ e, e ∈ st_trace st → e ∈ st_trace st').
  { intros e. rewrite Htr, elem_of_app. by left. }
  split; [|split].
  - intros file Hin. apply Hold in Hin; [|by intros []].
    destruct (Hc file Hin) as (-> & (code & tok & Hx & Hok) & Hno).
    split; [done|]. split; [|done]. exists code, tok. split; [by apply Hnew|done].
  - intros file data Hin. apply Hold in Hin; [|by intros []].
    apply Hnew. by eapply Hw.
  - intros Hno. rewrite Hfs. apply Hf. intros file Hin. by eapply Hno, Hnew.
Qed.

Ltac in_list H :=
  repeat (apply elem_of_cons in H as [H|H]; [try discriminate H|]);
  try (by apply elem_of_nil in H).

Lemma cache_inv_no_write env fs0 st :
  st_fs st = fs0 → Forall no_write (st_trace st) → cache_inv env fs0 st.
Proof.
  intros Hfs Hall. rewrite Forall_forall in Hall.
  split; [|split].
  - intros file Hin. by destruct (Hall _ Hin).
  - intros file data Hin. by destruct (Hall _ Hin).
  - done.
Qed.

Lemma cache_inv_bootstrap env fs0 config st :
  st_trace st = [] → st_fs st = fs0 → ¬ cache_loads fs0 →
  cache_inv env fs0
    ((let* tok := (let* tok := getTokenFromWeb env config in
                   saveToken env cacheFile tok ;; m_ret tok) in
      config_Client config tok) st).2.
Proof.
  intros Htr Hfs Hno.
  unfold getTokenFromWeb, saveToken, config_Client, m_bind, log_Fatal, emit, set_file,
    set_source, m_ret.
  cbn -[json_Marshal cacheFile String.append]. rewrite Htr.
  destruct (env_Scan env) as [e|code] eqn:Hscan; cbn -[json_Marshal cacheFile String.append].
  { apply cache_inv_no_write; [done|]. cbn. by repeat constructor. }
  destruct (env_Exchange env code) as [e|tok] eqn:Hex;
    cbn -[json_Marshal cacheFile String.append].
  { apply cache_inv_no_write; [done|]. cbn. by repeat constructor. }
  destruct (env_Create env cacheFile) as [e|] eqn:Hcr;
    cbn -[json_Marshal cacheFile String.append].
  { apply cache_inv_no_write; [done|]. cbn. by repeat constructor. }
  destruct (json_Marshal tok) as [e|data] eqn:Hm; cbn -[cacheFile String.append].
  - split; [|split]; cbn -[cacheFile String.append].
    + intros file H. in_list H. injection H as ->. split; [done|]. split; [|done].
      exists code, tok. split; [cbn; set_solver|done].
    + intros file data H. in_list H.
    + intros H. destruct (H cacheFile). set_solver.
  - split; [|split]; cbn -[cacheFile String.append].
    + intros file H. in_list H. injection H as ->. split; [done|]. split; [|done].
      exists code, tok. split; [cbn; set_solver|done].
    + intros file d H. in_list H. injection H as -> ->. set_solver.
    + intros H. destruct (H cacheFile). set_solver.
Qed.

Lemma cache_inv_getClient env fs0 config st :
  st_trace st = [] → st_fs st = fs0 →
  cache_inv env fs0 (getClient env config st).2.
Proof.
  intros Htr Hfs.
  pose proof (cache_inv_bootstrap env fs0 config st Htr Hfs) as Hboot.
  unfold getClient, tokenFromFile. unfold m_bind at 1 2. unfold get, m_ret.
  cbn -[json_Decode cacheFile m_bind getTokenFromWeb saveToken config_Client].
  rewrite Hfs.
  destruct (fs0 !! cacheFile) as [data|] eqn:Hfile;
    cbn -[json_Decode cacheFile m_bind getTokenFromWeb saveToken config_Client].
  - destruct (json_Decode data zero_Token) as [tok [e|]] eqn:Hdec;
      cbn -[cacheFile m_bind getTokenFromWeb saveToken config_Client].
    + apply Hboot. intros (data' & tok' & Hf & Hd). congruence.
    + unfold config_Client, m_bind, set_source, m_ret. cbn.
      apply cache_inv_no_write; [done|]. cbn. rewrite Htr. constructor.
  - apply Hboot. intros (data' & tok' & Hf & Hd). congruence.
Qed.

Lemma cache_inv_main env fs0 st :
  st_trace st = [] → st_fs st = fs0 → cache_inv env fs0 (main env st).2.
Proof.
  intros Htr Hfs. unfold main. unfold m_bind at 1. unfold get at 1. cbn [fst snd].
  destruct (st_fs st !! "client_secret.json") as [b|].
  2:{ eapply cache_inv_quiet; [|apply quiet_log_Fatal].
      apply cache_inv_no_write; [done|]. rewrite Htr. constructor. }
  destruct (env_ConfigFromJSON env b) as [e|config].
  { eapply cache_inv_quiet; [|apply quiet_log_Fatal].
    apply cache_inv_no_write; [done|]. rewrite Htr. constructor. }
  pose proof (cache_inv_getClient env fs0 config st Htr Hfs) as Hc.
  unfold m_bind at 1.
  destruct (getClient env config st) as [[client| |] st1]; cbn [snd] in *; try done.
  eapply cache_inv_quiet; [exact Hc|].
  apply (quiet_bind (get st_viper) (λ cfg, run_loaders env _)).
  - apply quiet_get.
  - intros cfg. apply quiet_run_loaders.
Qed.

Lemma quiet_run_deferred st : quiet_step st (run_deferred st).
Proof.
  unfold run_deferred. generalize (st_deferred st) as ds. intros ds. revert st.
  induction ds as [|d ds IH]; intros st; cbn [foldl].
  - apply quiet_step_refl.
  - eapply quiet_step_trans; [|apply IH].
    destruct d as [id|]; [apply quiet_close_rows|apply quiet_step_refl].
Qed.

Lemma cache_inv_program env fs : cache_inv env fs (program env fs).2.
Proof.
  unfold program.
  assert (H : cache_inv env fs (m_bind (config env) (λ _, main env) (init_State fs)).2).
  { unfold m_bind, config.
    destruct (env_config env) as [y|]; cbn [panic set_viper fst snd].
    - by apply cache_inv_main.
    - apply cache_inv_no_write; [done|]. constructor. }
  destruct (m_bind (config env) (λ _, main env) (init_State fs)) as [[[]| |] st];
    cbn [snd] in *.
  - eapply cache_inv_quiet; [exact H|apply quiet_run_deferred].
  - done.
  - eapply cache_inv_quiet; [exact H|apply quiet_run_deferred].
Qed.

(** C10: the cache file is created only on the bootstrap path, after a
    code-for-token exchange that succeeded; a run that loads the cached
    credential leaves every file as it was, whatever the token source
    refreshes on the way. *)
Theorem cache_written_only_at_bootstrap (env : Env) (fs : gmap string string) :
  let st := (program env fs).2 in
  (∀ file, EvCreate file ∈ st_trace st →
     file = cacheFile
     ∧ (∃ code tok, EvExchange code ∈ st_trace st ∧ env_Exchange env code = inr tok)
     ∧ ¬ cache_loads fs)
  ∧ (∀ file data, EvWrite file data ∈ st_trace st → EvCreate file ∈ st_trace st)
  ∧ ((∀ file, EvCreate file ∉ st_trace st) → st_fs st = fs)
  ∧ (cache_loads fs →
     st_fs st = fs
     ∧ (∀ file data, (EvCreate file ∉ st_trace st) ∧ (EvWrite file data ∉ st_trace st))).
Proof.
  intros st. destruct (cache_inv_program env fs) as (Hc & Hw & Hf). fold st in Hc, Hw, Hf.
  split; [exact Hc|]. split; [exact Hw|]. split; [exact Hf|].
  intros Hloads.
  assert (Hno : ∀ file, EvCreate file ∉ st_trace st).
  { intros file Hin. by destruct (Hc file Hin) as (_ & _ & Hnot). }
  split; [by apply Hf|].
  intros file data. split; [apply Hno|]. intros Hin. by eapply Hno, Hw.
Qed.

(** * The delegated-auth client *)

Lemma getClient_hit env config st data tok :
  st_fs st !! cacheFile = Some data →
  json_Decode data zero_Token = (tok, None) →
  getClient env config st = (Ret (HttpClient config), (set_source tok st).2).
Proof.
  intros Hfile Hdec. unfold getClient, tokenFromFile, config_Client, m_bind, get, m_ret.
  cbn -[json_Decode cacheFile]. rewrite Hfile. cbn -[json_Decode cacheFile].
  by rewrite Hdec.
Qed.

(** With no usable cache, getClient is the interactive bootstrap. *)
Lemma getClient_miss env config st :
  (st_fs st !! cacheFile = None
   ∨ ∃ data tok e, st_fs st !! cacheFile = Some data
                   ∧ json_Decode data zero_Token = (tok, Some e)) →
  getClient env config st
  = m_bind (m_bind (getTokenFromWeb env config)
                   (λ tok, m_bind (saveToken env cacheFile tok) (λ _, m_ret tok)))
           (config_Client config) st.
Proof.
  intros H. unfold getClient, tokenFromFile. unfold m_bind at 1 2. unfold get, m_ret at 1 2.
  cbn -[json_Decode cacheFile m_bind getTokenFromWeb saveToken config_Client].
  destruct H as [Hnone|(data & tok & e & Hfile & Hdec)].
  - by rewrite Hnone.
  - rewrite Hfile. cbn -[json_Decode cacheFile m_bind getTokenFromWeb saveToken config_Client].
    by rewrite Hdec.
Qed.





(** * What one loader does *)

Ltac run_l := cbn -[convert GetString String.append].
Ltac unfold_loader :=
  unfold run_loader, DbConnect, db_Query, BatchUpdate_Do, source_Token, Next_false,
    close_rows, m_bind, log_Infof, log_Debug, log_Fatal, emit, get, open_rows,
    defer_Close, lift, panic, set_source, m_ret.

(** C5: a cursor that yields no row converts to the header row alone, and
    the loader goes on to write that grid and finishes normally. *)
Theorem empty_result_is_not_an_error (env : Env) (loader : string) (st : State)
    (columns : list string) (more : bool) :
  (∀ tr, env_DbOpen env tr = None) →
  (∀ tr, env_Ping env tr = None) →
  (∀ tr q, env_Query env tr q = inr (mkRows columns [] more)) →
  (∀ tr tok, env_valid env tr tok = true) →
  (∀ tr sid rb, env_BatchUpdate env tr sid rb = None) →
  convert (mkRows columns [] more) = Ret [map VString columns]
  ∧ ∃ st', run_loader env loader st = (Ret tt, st')
      ∧ EvBatchUpdate (AccessToken (st_source st))
          (GetString (st_viper st) ("loaders." +:+ loader +:+ ".sheet"))
          (mkRequest "USER_ENTERED"
             [mkValueRange (GetString (st_viper st) "loaders.ulta.range")
                           [map VString columns]])
        ∈ st_trace st'.
Proof.
  intros Hopen Hping Hquery Hvalid Hupdate.
  assert (Hconv : convert (mkRows columns [] more) = Ret [map VString columns]) by done.
  split; [exact Hconv|].
  rewrite (turn_converted env loader st _ _ Hopen Hping (λ tr, Hquery tr _) Hconv).
  rewrite write_sent.
  - rewrite Hupdate. eexists. split; [reflexivity|].
    unfold with_events, after_rows, turn_sheet, turn_request.
    cbn [st_trace st_source st_viper]. apply elem_of_app. right. by left.
  - unfold grid_encode_error. cbn [first_error]. by rewrite header_encodes.
  - apply Hvalid.
Qed.

Lemma empty_result_is_not_an_error_witness :
  convert (mkRows ["id"; "total"] [] false) = Ret [map VString ["id"; "total"]]
  ∧ ∃ st', run_loader (demo_env (λ _, inr (mkRows ["id"; "total"] [] false)) (λ _, None) true)
             "orders" demo_start = (Ret tt, st')
      ∧ EvBatchUpdate "ya29.access" "sheet-orders"
          (mkRequest "USER_ENTERED"
             [mkValueRange "Ulta!A1" [[VString "id"; VString "total"]]])
        ∈ st_trace st'.
Proof.
  apply (empty_result_is_not_an_error
           (demo_env (λ _, inr (mkRows ["id"; "total"] [] false)) (λ _, None) true)
           "orders" demo_start ["id"; "total"] false); intros; reflexivity.
Defined.




(** * Runs of the sample installation *)

(** C1: on the sample installation both loaders write to the range of the
    loader named ulta, although orders has a range of its own. *)
Theorem every_loader_writes_to_the_ulta_range :
  GetString demo_config "loaders.orders.range" = "Orders!A1"
  ∧ GetString demo_config "loaders.ulta.range" = "Ulta!A1"
  ∧ written_ranges
      (st_trace (program (demo_env (λ _, inr demo_rows) (λ _, None) true) demo_fs).2)
    = [("sheet-orders", ["Ulta!A1"]); ("sheet-ulta", ["Ulta!A1"])].
Proof. split; [|split]; vm_compute; reflexivity. Qed.

(** C9: with cursors that database/sql does not close by itself, the
    cursor of the first loader is open when its turn is over and stays
    open while the second loader runs; both are closed by the deferred
    calls when main returns, and never if the process exits on log.Fatal. *)
Theorem cursor_stays_open_until_main_returns :
  st_open (run_loader (demo_env (λ _, inr demo_rows_more) (λ _, None) true)
                      "orders" demo_start).2 = [0%nat]
  ∧ cursor_events
      (st_trace (program (demo_env (λ _, inr demo_rows_more) (λ _, None) true) demo_fs).2)
    = [EvQuery "SELECT id, total FROM orders"; EvRowsOpen 0; EvPrint ("Done." +:+ LF);
       EvQuery "SELECT sku, price FROM ulta"; EvRowsOpen 1; EvPrint ("Done." +:+ LF);
       EvRowsClose 1; EvRowsClose 0]
  ∧ (program (demo_env (λ _, inr demo_rows_more) (reject "sheet-ulta") true) demo_fs).1
    = Fatal "googleapi: Error 403: forbidden"
  ∧ st_open (program (demo_env (λ _, inr demo_rows_more) (reject "sheet-ulta") true)
                     demo_fs).2 = [1%nat; 0%nat].
Proof. repeat split; vm_compute; reflexivity. Qed.

(** C2 (counterexample): the write of orders is rejected, the process exits,
    and ulta, which is configured, is never started. *)
Lemma rejected_write_ends_the_batch :
  GetStringMap_keys demo_config "loaders" = ["orders"; "ulta"]
  ∧ (program (demo_env (λ _, inr demo_rows) (reject "sheet-orders") true) demo_fs).1
    = Fatal "googleapi: Error 403: forbidden"
  ∧ started (st_trace (program (demo_env (λ _, inr demo_rows) (reject "sheet-orders") true)
                               demo_fs).2)
    = ["Running Loader orders"].
Proof. repeat split; vm_compute; reflexivity. Qed.

Lemma batch_ends_at_first_failure_witness :
  ∃ st', run_loaders (demo_env (λ _, inr demo_rows) (reject "sheet-ulta") true)
           (["orders"] ++ "ulta" :: ["stock"]) demo_start3
         = (Fatal "googleapi: Error 403: forbidden", st')
    ∧ updates (st_trace st')
      = updates (st_trace demo_start3)
        ++ map (request_of demo_config3 (AccessToken demo_token) demo_table)
               (["orders"] ++ ["ulta"])
    ∧ started (st_trace st')
      = started (st_trace demo_start3) ++ map announce (["orders"] ++ ["ulta"]).
Proof.
  destruct (batch_ends_at_first_failure
              (demo_env (λ _, inr demo_rows) (reject "sheet-ulta") true)
              demo_config3 demo_token (λ _, demo_rows) demo_table
              ["orders"] "ulta" ["stock"] demo_start3) as (_ & Hwrite & _).
  - reflexivity.
  - reflexivity.
  - intros; reflexivity.
  - intros; reflexivity.
  - intros; reflexivity.
  - repeat constructor.
  - apply Hwrite; intros; reflexivity.
Defined.




(** C10 on the sample installation, on a run that refreshes its token. *)
Lemma cache_written_only_at_bootstrap_witness :
  st_fs (program (demo_env (λ _, inr demo_rows) (λ _, None) false) demo_fs).2 = demo_fs
  ∧ AccessToken (st_source (program (demo_env (λ _, inr demo_rows) (λ _, None) false)
                                    demo_fs).2) = "ya29.minted".
Proof.
  split.
  - apply (cache_written_only_at_bootstrap
             (demo_env (λ _, inr demo_rows) (λ _, None) false) demo_fs).
    exists (saved demo_token), demo_token. split; vm_compute; reflexivity.
  - vm_compute. reflexivity.
Defined.

(** * Strings, bytes and JSON string literals *)

Lemma append_cons c s t : String c s +:+ t = String c (s +:+ t).
Proof. reflexivity. Qed.

Lemma append_nil_l t : "" +:+ t = t.
Proof. reflexivity. Qed.

Lemma append_assoc s t u : (s +:+ t) +:+ u = s +:+ t +:+ u.
Proof. induction s as [|c s IH]; [done|]. by rewrite !append_cons, IH. Qed.

Lemma byte_range c : 0 ≤ byte c < 256.
Proof.
  unfold byte. pose proof (N_ascii_bounded c) as H. lia.
Qed.

Lemma chr_byte c : chr (byte c) = c.
Proof. unfold chr, byte. by rewrite N2Z.id, ascii_N_embedding. Qed.

Lemma byte_chr n : 0 ≤ n < 256 → byte (chr n) = n.
Proof.
  intros H. unfold chr, byte. rewrite N_ascii_embedding by lia. lia.
Qed.

Lemma byte_inj c d : byte c = byte d → c = d.
Proof. intros H. by rewrite <- (chr_byte c), <- (chr_byte d), H. Qed.

Lemma str1_byte c : str1 (byte c) = String c "".
Proof. unfold str1. by rewrite chr_byte. Qed.

(** One ASCII byte through the encoder and back through the decoder. *)
Lemma unquote_ascii c q :
  byte c < 0x80 →
  unquote_body ((if htmlSafe (byte c) then String c "" else escape_ascii (byte c)) +:+ q) 0
  = push (String c "") (htmlSafe (byte c)) (unquote_body q 0).
Proof.
  destruct c as [[] [] [] [] [] [] [] []]; intros H;
    first [ reflexivity | vm_compute in H; discriminate H ].
Qed.

Lemma between_spec lo x hi : between lo x hi = true ↔ lo ≤ x ≤ hi.
Proof. unfold between. rewrite andb_true_iff, !Z.leb_le. tauto. Qed.

(** The shapes a multi-byte rune can have: the decoder looks at no byte
    past the rune, U+2028 and U+2029 have one encoding each. *)
Lemma DecodeRune_multi c s' r n :
  DecodeRune (String c s') = (r, S (S n)) →
  (n = 0%nat ∧ ∃ c1 t, s' = String c1 t ∧ r < 0x2028
     ∧ ∀ t', DecodeRune (String c (String c1 t')) = (r, 2%nat))
  ∨ (n = 1%nat ∧ ∃ c1 c2 t, s' = String c1 (String c2 t)
     ∧ (r = 0x2028 ∨ r = 0x2029 →
        c = chr 0xE2 ∧ c1 = chr 0x80 ∧ c2 = chr (r - 0x2028 + 0xA8))
     ∧ ∀ t', DecodeRune (String c (String c1 (String c2 t'))) = (r, 3%nat))
  ∨ (n = 2%nat ∧ ∃ c1 c2 c3 t, s' = String c1 (String c2 (String c3 t)) ∧ 0x2029 < r
     ∧ ∀ t', DecodeRune (String c (String c1 (String c2 (String c3 t')))) = (r, 4%nat)).
Proof.
  unfold DecodeRune.
  pose proof (byte_range c) as Hc.
  destruct (byte c <? 0x80) eqn:H0; [intros [= _ ?]; lia|].
  destruct (between 0xC2 (byte c) 0xDF) eqn:H2.
  { destruct s' as [|c1 t]; [intros [= _ ?]; lia|].
    destruct (is_cont c1) eqn:Hc1; [|intros [= _ ?]; lia].
    intros [= <- <-]. left. split; [done|]. exists c1, t. split; [done|].
    split; [|intros t'; by rewrite Hc1].
    apply between_spec in H2. unfold is_cont in Hc1. apply between_spec in Hc1.
    unfold low6. lia. }
  destruct (between 0xE0 (byte c) 0xEF) eqn:H3.
  { destruct s' as [|c1 [|c2 t]]; [intros [= _ ?]; lia..|].
    destruct (between _ (byte c1) _ && is_cont c2) eqn:Hc12; [|intros [= _ ?]; lia].
    intros [= <- <-]. right; left. split; [done|]. exists c1, c2, t. split; [done|].
    split; [|intros t'; by rewrite Hc12].
    apply andb_true_iff in Hc12 as [Hc1 Hc2].
    apply between_spec in H3, Hc1. unfold is_cont in Hc2. apply between_spec in Hc2.
    unfold low6. intros Hr.
    assert (byte c = 0xE2 ∧ byte c1 = 0x80
            ∧ byte c2 = (byte c - 224) * 4096 + (byte c1 - 128) * 64 + (byte c2 - 128)
                        - 0x2028 + 0xA8) as (E0 & E1 & E2).
    { destruct (byte c =? 224), (byte c =? 237); lia. }
    split; [by rewrite <- E0, chr_byte|]. split; [by rewrite <- E1, chr_byte|].
    by rewrite <- E2, chr_byte. }
  destruct (between 0xF0 (byte c) 0xF4) eqn:H4; [|intros [= _ ?]; lia].
  destruct s' as [|c1 [|c2 [|c3 t]]]; [intros [= _ ?]; lia..|].
  destruct (between _ (byte c1) _ && is_cont c2 && is_cont c3) eqn:Hc123;
    [|intros [= _ ?]; lia].
  intros [= <- <-]. right; right. split; [done|]. exists c1, c2, c3, t. split; [done|].
  split; [|intros t'; by rewrite Hc123].
  apply andb_true_iff in Hc123 as [Hc12 Hc3]. apply andb_true_iff in Hc12 as [Hc1 Hc2].
  apply between_spec in H4, Hc1. unfold is_cont in Hc2, Hc3.
  apply between_spec in Hc2, Hc3. unfold low6.
  destruct (byte c =? 240) eqn:E, (byte c =? 244); lia.
Qed.

Lemma quote_body_skip c s k :
  quote_body (String c s) (S k) true = String c (quote_body s k true).
Proof. reflexivity. Qed.

Lemma quote_body_drop c s k :
  quote_body (String c s) (S k) false = quote_body s k false.
Proof. reflexivity. Qed.

Lemma quote_body_keep s keep : quote_body s 0 keep = quote_body s 0 true.
Proof. by destruct s. Qed.

Lemma quote_body_ascii c s :
  byte c < 0x80 →
  quote_body (String c s) 0 true
  = (if htmlSafe (byte c) then String c "" else escape_ascii (byte c))
    +:+ quote_body s 0 true.
Proof.
  intros H. cbn [quote_body]. by rewrite (proj2 (Z.ltb_lt _ _) H).
Qed.

Lemma quote_body_multi c s r n :
  ¬ byte c < 0x80 →
  DecodeRune (String c s) = (r, S (S n)) →
  quote_body (String c s) 0 true
  = if (r =? 0x2028) || (r =? 0x2029)
    then "\u202" +:+ hex (r mod 16) +:+ quote_body s (S n) false
    else String c (quote_body s (S n) true).
Proof.
  intros H Hd. cbn [quote_body]. rewrite (proj2 (Z.ltb_ge _ _)) by lia.
  rewrite Hd. cbn [Nat.eqb]. rewrite andb_false_r.
  replace (S (S n) - 1)%nat with (S n) by lia. done.
Qed.

Lemma unquote_body_skip c s k :
  unquote_body (String c s) (S k) = push (String c "") true (unquote_body s k).
Proof. reflexivity. Qed.

Lemma unquote_body_multi c s r n :
  ¬ byte c < 0x80 →
  DecodeRune (String c s) = (r, S (S n)) →
  unquote_body (String c s) 0 = push (String c "") true (unquote_body s (S n)).
Proof.
  intros H Hd. cbn [unquote_body]. pose proof (byte_range c).
  rewrite (proj2 (Z.eqb_neq _ _)) by lia. rewrite (proj2 (Z.eqb_neq _ _)) by lia.
  rewrite (proj2 (Z.ltb_ge _ _)) by lia. rewrite (proj2 (Z.ltb_ge _ _)) by lia.
  by rewrite Hd.
Qed.

Lemma push_inv d raw r t plain rest :
  push d raw r = Some (d +:+ t, plain, rest) →
  ∃ plain', r = Some (t, plain', rest).
Proof.
  destruct r as [[[t' p'] rest']|]; [|done]. cbn. intros [= Ht _ ->].
  apply (inj (String.app d)) in Ht as ->. by exists p'.
Qed.

(** A string literal written by the encoder for well-formed UTF-8 is
    read back as the string it was written for. *)
Lemma unquote_quote_body s : ∀ k rest,
  utf8_valid s k = true →
  ∃ plain, unquote_body (quote_body s k true +:+ DQ +:+ rest) k = Some (s, plain, rest).
Proof.
  induction s as [|c s IH]; intros k rest Hv.
  { destruct k; [|done]. by exists true. }
  destruct k as [|k].
  2:{ cbn [utf8_valid] in Hv. destruct (IH k rest Hv) as [plain Hp].
      rewrite quote_body_skip, append_cons, unquote_body_skip, Hp. by eexists. }
  cbn [utf8_valid] in Hv.
  destruct (byte c <? 0x80) eqn:Hascii.
  { apply Z.ltb_lt in Hascii. destruct (IH 0%nat rest Hv) as [plain Hp].
    rewrite quote_body_ascii, append_assoc, unquote_ascii, Hp by done. by eexists. }
  apply Z.ltb_ge in Hascii. assert (Hna : ¬ byte c < 0x80) by lia.
  destruct (DecodeRune (String c s)) as [r [|[|n]]] eqn:Hd; try done.
  destruct (IH (S n) rest Hv) as [plain Hp].
  rewrite (quote_body_multi _ _ _ _ Hna Hd).
  destruct (DecodeRune_multi _ _ _ _ Hd)
    as [(-> & c1 & t & -> & Hr & Hd')
       |[(-> & c1 & c2 & t & -> & Hr & Hd')|(-> & c1 & c2 & c3 & t & -> & Hr & Hd')]].
  - rewrite (proj2 (Z.eqb_neq r _)), (proj2 (Z.eqb_neq r _)) by lia. cbn [orb].
    rewrite append_cons, quote_body_skip, append_cons.
    rewrite (unquote_body_multi _ _ r 0 Hna (Hd' _)).
    rewrite quote_body_skip, append_cons in Hp. rewrite Hp. by eexists.
  - destruct ((r =? 0x2028) || (r =? 0x2029)) eqn:Hsep.
    + assert (Hr' : r = 0x2028 ∨ r = 0x2029) by lia.
      destruct (Hr Hr') as (-> & -> & ->).
      rewrite !quote_body_skip, !append_cons, !unquote_body_skip in Hp.
      apply (push_inv (String _ "") true _ (String _ t)) in Hp as [p1 Hp].
      apply (push_inv (String _ "") true _ t) in Hp as [p2 Hp].
      rewrite !quote_body_drop, quote_body_keep.
      destruct Hr' as [-> | ->].
      * change (unquote_body (("\u202" +:+ hex (0x2028 mod 16) +:+ quote_body t 0 true)
                              +:+ DQ +:+ rest) 0)
          with (push (EncodeRune 0x2028) false
                  (unquote_body (quote_body t 0 true +:+ DQ +:+ rest) 0)).
        rewrite Hp. by eexists.
      * change (unquote_body (("\u202" +:+ hex (0x2029 mod 16) +:+ quote_body t 0 true)
                              +:+ DQ +:+ rest) 0)
          with (push (EncodeRune 0x2029) false
                  (unquote_body (quote_body t 0 true +:+ DQ +:+ rest) 0)).
        rewrite Hp. by eexists.
    + rewrite append_cons, !quote_body_skip, !append_cons.
      rewrite (unquote_body_multi _ _ r 1 Hna (Hd' _)).
      rewrite !quote_body_skip, !append_cons in Hp. rewrite Hp. by eexists.
  - rewrite (proj2 (Z.eqb_neq r _)), (proj2 (Z.eqb_neq r _)) by lia. cbn [orb].
    rewrite append_cons, !quote_body_skip, !append_cons.
    rewrite (unquote_body_multi _ _ r 2 Hna (Hd' _)).
    rewrite !quote_body_skip, !append_cons in Hp. rewrite Hp. by eexists.
Qed.

Lemma unquote_quote s rest :
  ValidString s = true →
  ∃ plain, unquote_body (quote_body s 0 true +:+ DQ +:+ rest) 0 = Some (s, plain, rest).
Proof. apply unquote_quote_body. Qed.

(** * Plain literals and RFC 3339 time stamps *)

Ltac Zify.zify_post_hook ::= Z.div_mod_to_equations.

Lemma is_plain_app a b : is_plain (a +:+ b) = is_plain a && is_plain b.
Proof.
  induction a as [|c a IH]; [done|].
  rewrite append_cons. cbn [is_plain]. rewrite IH. by rewrite andb_assoc.
Qed.

Lemma unquote_plain p rest :
  is_plain p = true → unquote_body (p +:+ DQ +:+ rest) 0 = Some (p, true, rest).
Proof.
  induction p as [|c p IH]; intros Hp; [done|].
  cbn [is_plain] in Hp. apply andb_true_iff in Hp as [Hc Hp].
  apply andb_true_iff in Hc as [Hlt Hsafe]. apply Z.ltb_lt in Hlt.
  pose proof (unquote_ascii c (p +:+ DQ +:+ rest) Hlt) as H.
  rewrite Hsafe in H. rewrite append_cons.
  change (String c (p +:+ DQ +:+ rest)) with (String c "" +:+ p +:+ DQ +:+ rest).
  rewrite H, IH by done. done.
Qed.

Lemma byte_digit d : 0 ≤ d ≤ 9 → byte (digit d) = 0x30 + d.
Proof. intros H. unfold digit. apply byte_chr. lia. Qed.

Lemma digit_val_digit d : 0 ≤ d ≤ 9 → digit_val (digit d) = Some d.
Proof.
  intros H. unfold digit_val. rewrite byte_digit by done.
  rewrite (proj2 (between_spec _ _ _)) by lia. f_equal. lia.
Qed.

Lemma is_plain_digit d s : 0 ≤ d ≤ 9 → is_plain (String (digit d) s) = is_plain s.
Proof.
  intros H. cbn [is_plain]. rewrite byte_digit by done.
  rewrite (proj2 (Z.ltb_lt _ _)) by lia.
  unfold htmlSafe. rewrite (proj2 (Z.leb_le _ _)) by lia.
  by rewrite !(proj2 (Z.eqb_neq _ _)) by lia.
Qed.

Lemma num2_pad n :
  0 ≤ n < 100 → num2 (digit (n / 10)) (digit (n mod 10)) = Some n.
Proof.
  intros H. unfold num2. rewrite !digit_val_digit by lia. f_equal. lia.
Qed.

Lemma num4_pad n :
  0 ≤ n < 10000 →
  num4 (digit (n / 1000)) (digit (n / 100 mod 10)) (digit (n / 10 mod 10)) (digit (n mod 10))
  = Some n.
Proof.
  intros H. unfold num4, num2. rewrite !digit_val_digit by lia. f_equal. lia.
Qed.

Lemma is_plain_pad2 n : 0 ≤ n < 100 → is_plain (pad2 n) = true.
Proof. intros H. unfold pad2. by rewrite !is_plain_digit by lia. Qed.

Lemma is_plain_pad4 n : 0 ≤ n < 10000 → is_plain (pad4 n) = true.
Proof. intros H. unfold pad4. by rewrite !is_plain_digit by lia. Qed.

(** ** The fraction of a second *)

Lemma parse_frac_stop w s : starts_without_digit s → parse_frac w s = (0, s).
Proof. destruct s as [|c s]; [by destruct w|]. cbn. intros ->. by destruct w. Qed.

Lemma pow10_succ w : 10 ^ Z.of_nat (S w) = 10 * 10 ^ Z.of_nat w.
Proof. rewrite Nat2Z.inj_succ, Z.pow_succ_r by lia. done. Qed.

Lemma frac_digit w n :
  0 ≤ n < 10 ^ Z.of_nat (S w) →
  0 ≤ n / 10 ^ Z.of_nat w ≤ 9 ∧ 0 ≤ n mod 10 ^ Z.of_nat w < 10 ^ Z.of_nat w
  ∧ n = n / 10 ^ Z.of_nat w * 10 ^ Z.of_nat w + n mod 10 ^ Z.of_nat w.
Proof.
  rewrite pow10_succ. intros H.
  assert (Hp : 0 < 10 ^ Z.of_nat w) by (apply Z.pow_pos_nonneg; lia).
  pose proof (Z.div_mod n _ (Z.neq_sym _ _ (Z.lt_neq _ _ Hp))) as Hdm.
  pose proof (Z.mod_pos_bound n _ Hp) as Hm.
  split; [|split; [done|lia]].
  split; [apply Z.div_pos; lia|].
  assert (n / 10 ^ Z.of_nat w < 10); [|lia].
  apply Z.div_lt_upper_bound; lia.
Qed.

Lemma parse_fmt_frac w : ∀ n rest,
  0 ≤ n < 10 ^ Z.of_nat w → starts_without_digit rest →
  parse_frac w (fmt_frac w n +:+ rest) = (n, rest).
Proof.
  induction w as [|w IH]; intros n rest Hn Hrest.
  - cbn in Hn. assert (n = 0) as -> by lia. by apply parse_frac_stop.
  - cbn [fmt_frac]. destruct (n =? 0) eqn:Hz.
    + apply Z.eqb_eq in Hz as ->. by apply parse_frac_stop.
    + destruct (frac_digit w n Hn) as (Hd & Hm & Hsum).
      rewrite append_cons. cbn [parse_frac]. rewrite digit_val_digit by done.
      rewrite IH by done. by rewrite <- Hsum.
Qed.

Lemma is_plain_fmt_frac w : ∀ n,
  0 ≤ n < 10 ^ Z.of_nat w → is_plain (fmt_frac w n) = true.
Proof.
  induction w as [|w IH]; intros n Hn; [done|].
  cbn [fmt_frac]. destruct (n =? 0); [done|].
  destruct (frac_digit w n Hn) as (Hd & Hm & _).
  rewrite is_plain_digit by done. by apply IH.
Qed.

Lemma fmt_zone_start off : starts_without_digit (fmt_zone off).
Proof. unfold fmt_zone. destruct (off =? 0); [done|]. by destruct (off <? 0). Qed.

Lemma fmt_frac_S w n :
  (n =? 0) = false →
  fmt_frac (S w) n
  = String (digit (n / 10 ^ Z.of_nat w)) (fmt_frac w (n mod 10 ^ Z.of_nat w)).
Proof. intros H. cbn [fmt_frac]. by rewrite H. Qed.

Lemma parse_fmt_nano ns off :
  0 ≤ ns < 1000000000 →
  parse_nano (fmt_nano ns +:+ fmt_zone off) = Some (ns, fmt_zone off).
Proof.
  intros Hns. unfold fmt_nano. destruct (ns =? 0) eqn:Hz.
  - apply Z.eqb_eq in Hz as ->. rewrite append_nil_l.
    unfold fmt_zone. destruct (off =? 0); [done|]. by destruct (off <? 0).
  - change 1000000000 with (10 ^ Z.of_nat 9) in Hns.
    pose proof (parse_fmt_frac 9 ns (fmt_zone off) Hns (fmt_zone_start off)) as Hp.
    destruct (frac_digit 8 ns Hns) as (Hd & _ & _).
    rewrite (fmt_frac_S 8) in * by done.
    rewrite append_cons in Hp. rewrite !append_cons, append_nil_l, append_cons.
    cbn [parse_nano]. change (byte "." =? 46) with true. cbv iota.
    rewrite digit_val_digit by done. by rewrite Hp.
Qed.

Lemma is_plain_fmt_nano ns : 0 ≤ ns < 1000000000 → is_plain (fmt_nano ns) = true.
Proof.
  intros Hns. unfold fmt_nano. destruct (ns =? 0); [done|].
  rewrite is_plain_app. change 1000000000 with (10 ^ Z.of_nat 9) in Hns.
  by rewrite is_plain_fmt_frac.
Qed.

(** ** The zone *)

Lemma parse_fmt_zone off : -1440 < off < 1440 → parse_zone (fmt_zone off) = Some off.
Proof.
  intros Hoff. unfold fmt_zone. destruct (off =? 0) eqn:Hz.
  { apply Z.eqb_eq in Hz as ->. done. }
  apply Z.eqb_neq in Hz.
  assert (Hh : 0 ≤ Z.abs off / 60 < 24).
  { split; [apply Z.div_pos; lia|apply Z.div_lt_upper_bound; lia]. }
  assert (Hm : 0 ≤ Z.abs off mod 60 < 60) by (apply Z.mod_pos_bound; lia).
  pose proof (Z.div_mod (Z.abs off) 60 ltac:(lia)) as Hdm.
  unfold pad2. destruct (off <? 0) eqn:Hneg.
  - apply Z.ltb_lt in Hneg. rewrite !append_cons, !append_nil_l.
    cbn [parse_zone].
    change (byte "-" =? 43) with false. change (byte "-" =? 45) with true.
    change (byte ":" =? 58) with true. cbn [orb andb].
    rewrite !num2_pad by lia.
    rewrite (proj2 (Z.ltb_lt _ _)), (proj2 (Z.ltb_lt _ _)) by lia. cbn [andb].
    f_equal. lia.
  - apply Z.ltb_ge in Hneg. rewrite !append_cons, !append_nil_l.
    cbn [parse_zone].
    change (byte "+" =? 43) with true. change (byte "+" =? 45) with false.
    change (byte ":" =? 58) with true. cbn [orb andb].
    rewrite !num2_pad by lia.
    rewrite (proj2 (Z.ltb_lt _ _)), (proj2 (Z.ltb_lt _ _)) by lia. cbn [andb].
    f_equal. lia.
Qed.

Lemma is_plain_fmt_zone off : -1440 < off < 1440 → is_plain (fmt_zone off) = true.
Proof.
  intros Hoff. unfold fmt_zone. destruct (off =? 0) eqn:Hz; [done|].
  apply Z.eqb_neq in Hz.
  assert (Hh : 0 ≤ Z.abs off / 60 < 24).
  { split; [apply Z.div_pos; lia|apply Z.div_lt_upper_bound; lia]. }
  assert (Hm : 0 ≤ Z.abs off mod 60 < 60) by (apply Z.mod_pos_bound; lia).
  rewrite !is_plain_app, !is_plain_pad2 by lia. by destruct (off <? 0).
Qed.

(** ** The whole time stamp *)

Lemma daysIn_le m y : daysIn m y ≤ 31.
Proof. unfold daysIn. repeat case_match; lia. Qed.

Ltac decide_tests :=
  repeat match goal with
  | |- context [?a <=? ?b] => rewrite (proj2 (Z.leb_le a b)) by lia
  | |- context [?a <? ?b] => rewrite (proj2 (Z.ltb_lt a b)) by lia
  end.

Lemma parse_RFC3339_fmt t : wf_Time t → parse_RFC3339 (RFC3339Nano t) = Some t.
Proof.
  destruct t as [y mo da h mi se ns off]. unfold wf_Time. cbn.
  intros (Hy & Hmo & Hda & Hh & Hmi & Hse & Hns & Hoff).
  pose proof (daysIn_le mo y) as Hdays.
  unfold RFC3339Nano, pad4, pad2. cbn [t_year t_month t_day t_hour t_minute t_second t_nsec t_offset].
  repeat (rewrite append_cons || rewrite append_nil_l).
  cbn [parse_RFC3339].
  change (byte "-" =? 45) with true. change (byte "T" =? 84) with true.
  change (byte ":" =? 58) with true. cbn [andb].
  rewrite num4_pad, !num2_pad by lia.
  rewrite parse_fmt_nano, parse_fmt_zone by done.
  decide_tests. done.
Qed.

Lemma is_plain_RFC3339Nano t : wf_Time t → is_plain (RFC3339Nano t) = true.
Proof.
  destruct t as [y mo da h mi se ns off]. unfold wf_Time. cbn.
  intros (Hy & Hmo & Hda & Hh & Hmi & Hse & Hns & Hoff).
  pose proof (daysIn_le mo y) as Hdays.
  unfold RFC3339Nano. cbn [t_year t_month t_day t_hour t_minute t_second t_nsec t_offset].
  rewrite !is_plain_app, is_plain_pad4, !is_plain_pad2 by lia.
  by rewrite is_plain_fmt_nano, is_plain_fmt_zone.
Qed.

(** * Decoding what the encoder wrote *)

Lemma parse_value_literal f d body :
  parse_value (S f) d (DQ +:+ body)
  = match unquote_body body 0 with
    | Some (str, plain, rest) => Some (JString str plain, rest)
    | None => None
    end.
Proof. reflexivity. Qed.

Lemma parse_value_object f body :
  parse_value (S f) 0 ("{" +:+ DQ +:+ body)
  = match parse_members f 1 (DQ +:+ body) with
    | Some (kvs, rest) => Some (JObject kvs, rest)
    | None => None
    end.
Proof. reflexivity. Qed.

Lemma parse_members_key f d k r :
  is_plain k = true →
  parse_members (S f) d (key k +:+ r)
  = match skip_ws (":" +:+ r) with
    | String c1 r2 =>
        if byte c1 =? 0x3A then
          match parse_value f d r2 with
          | None => None
          | Some (v, r3) =>
              match skip_ws r3 with
              | EmptyString => None
              | String c2 r4 =>
                  if byte c2 =? 0x2C then
                    match parse_members f d r4 with
                    | Some (kvs, r5) => Some ((k, v) :: kvs, r5)
                    | None => None
                    end
                  else if byte c2 =? 0x7D then Some ([(k, v)], r4)
                  else None
              end
          end
        else None
    | EmptyString => None
    end.
Proof.
  intros Hk. unfold key. rewrite !append_assoc.
  change (parse_members (S f) d (DQ +:+ k +:+ DQ +:+ ":" +:+ r))
    with (match unquote_body (k +:+ DQ +:+ ":" +:+ r) 0 with
          | None => None
          | Some (k, _, r1) =>
              match skip_ws r1 with
              | EmptyString => None
              | String c1 r2 =>
                  if byte c1 =? 0x3A then
                    match parse_value f d r2 with
                    | None => None
                    | Some (v, r3) =>
                        match skip_ws r3 with
                        | EmptyString => None
                        | String c2 r4 =>
                            if byte c2 =? 0x2C then
                              match parse_members f d r4 with
                              | Some (kvs, r5) => Some ((k, v) :: kvs, r5)
                              | None => None
                              end
                            else if byte c2 =? 0x7D then Some ([(k, v)], r4)
                            else None
                        end
                    end
                  else None
              end
          end).
  by rewrite (unquote_plain k _ Hk).
Qed.

(** A member with a string value, followed by a comma. *)
Lemma parse_member_more f d k body s plain R :
  is_plain k = true →
  unquote_body body 0 = Some (s, plain, "," +:+ R) →
  parse_members (S (S f)) d (key k +:+ DQ +:+ body)
  = match parse_members (S f) d R with
    | Some (kvs, r5) => Some ((k, JString s plain) :: kvs, r5)
    | None => None
    end.
Proof.
  intros Hk Hb. rewrite parse_members_key by done.
  change (skip_ws (":" +:+ DQ +:+ body)) with (String ":" (DQ +:+ body)).
  change (byte ":" =? 58) with true. cbv iota.
  rewrite parse_value_literal, Hb. reflexivity.
Qed.

(** The last member, followed by the closing brace. *)
Lemma parse_member_last f d k body s plain R :
  is_plain k = true →
  unquote_body body 0 = Some (s, plain, "}" +:+ R) →
  parse_members (S (S f)) d (key k +:+ DQ +:+ body) = Some ([(k, JString s plain)], R).
Proof.
  intros Hk Hb. rewrite parse_members_key by done.
  change (skip_ws (":" +:+ DQ +:+ body)) with (String ":" (DQ +:+ body)).
  change (byte ":" =? 58) with true. cbv iota.
  rewrite parse_value_literal, Hb. reflexivity.
Qed.

Lemma store_access_token v t :
  store_field "access_token" v t
  = store_string v (λ s, mkToken s (TokenType t) (RefreshToken t) (Expiry t)) t.
Proof. reflexivity. Qed.

Lemma store_token_type v t :
  store_field "token_type" v t
  = store_string v (λ s, mkToken (AccessToken t) s (RefreshToken t) (Expiry t)) t.
Proof. reflexivity. Qed.

Lemma store_refresh_token v t :
  store_field "refresh_token" v t
  = store_string v (λ s, mkToken (AccessToken t) (TokenType t) s (Expiry t)) t.
Proof. reflexivity. Qed.

Lemma store_expiry v t : store_field "expiry" v t = store_time v t.
Proof. reflexivity. Qed.

Lemma json_Decode_object body t :
  json_Decode ("{" +:+ key "access_token" +:+ body) t
  = match parse_members (5 + (11 + String.length body)) 1
            (key "access_token" +:+ body) with
    | Some (kvs, _) => store_members kvs t
    | None => (t, Some "json: syntax error")
    end.
Proof.
  unfold json_Decode.
  change (skip_ws ("{" +:+ key "access_token" +:+ body))
    with ("{" +:+ key "access_token" +:+ body).
  change (String.length ("{" +:+ key "access_token" +:+ body))
    with (5 + (11 + String.length body))%nat.
  change ("{" +:+ key "access_token" +:+ body)
    with ("{" +:+ DQ +:+ "access_token" +:+ DQ +:+ ":" +:+ body) at 2.
  rewrite parse_value_object.
  change (DQ +:+ "access_token" +:+ DQ +:+ ":" +:+ body)
    with (key "access_token" +:+ body).
  by destruct (parse_members _ _) as [[kvs rest]|].
Qed.

Ltac member_more :=
  match goal with
  | |- context [parse_members (S (S ?f)) ?d
                  (key ?k +:+ DQ +:+ quote_body ?s 0 true +:+ DQ +:+ "," +:+ ?R)] =>
      let p := fresh "p" in
      let H := fresh "H" in
      destruct (unquote_quote s ("," +:+ R)) as [p H]; [assumption|];
      rewrite (parse_member_more f d k _ s p R eq_refl H)
  end.

Ltac member_last :=
  match goal with
  | |- context [parse_members (S (S ?f)) ?d (key ?k +:+ DQ +:+ ?s +:+ DQ +:+ "}" +:+ ?R)] =>
      rewrite (parse_member_last f d k _ s true R eq_refl (unquote_plain s ("}" +:+ R)
                 ltac:(by apply is_plain_RFC3339Nano)))
  end.

(** What [Encode] writes for a well-formed credential, [Decode] reads back
    as the same credential. *)
Lemma json_Decode_Marshal tok :
  wf_Token tok →
  ∃ data, json_Marshal tok = inr data
          ∧ json_Decode (data +:+ LF) zero_Token = (tok, None).
Proof.
  destruct tok as [a tt rt e]. unfold wf_Token.
  cbn [AccessToken TokenType RefreshToken Expiry].
  intros (Ha & Htt & Hrt & He).
  unfold json_Marshal, Time_MarshalJSON.
  cbn [AccessToken TokenType RefreshToken Expiry].
  destruct He as (Hy & He'). pose proof (conj Hy He') as He.
  rewrite (proj2 (Z.ltb_ge _ _)), (proj2 (Z.leb_gt _ _)) by lia. cbn [orb].
  eexists. split; [reflexivity|].
  unfold quote. rewrite !append_assoc. rewrite json_Decode_object.
  cbn [Nat.add].
  destruct (String.eqb_spec tt "") as [->|_], (String.eqb_spec rt "") as [->|_];
    rewrite ?append_nil_l, ?append_assoc;
    repeat member_more; member_last;
    cbn [store_members]; unfold zero_Token;
    repeat progress
      (rewrite ?store_access_token, ?store_token_type, ?store_refresh_token,
         ?store_expiry;
       cbn [store_string store_time AccessToken TokenType RefreshToken Expiry];
       rewrite ?parse_RFC3339_fmt by done);
    done.
Qed.

(** * Saving and loading the credential *)

(** C7 (amended): for every well-formed credential (text fields in valid
    UTF-8, expiry a calendar time with a year from 0 to 9999) and every
    file that can be created, [saveToken] returns and leaves the file
    holding the encoded credential, and [tokenFromFile] on that file then
    returns, without an error, a credential equal to the saved one in
    all four fields, leaving the state as it is. *)
Theorem save_then_load_restores env file tok st :
  env_Create env file = None →
  wf_Token tok →
  ∃ st1,
    saveToken env file tok st = (Ret tt, st1)
    ∧ st_fs st1 !! file = Some (saved tok)
    ∧ tokenFromFile file st1 = (Ret (tok, None), st1).
Proof.
  intros Hcreate Hwf.
  destruct (json_Decode_Marshal tok Hwf) as (data & Hm & Hd).
  unfold saveToken, tokenFromFile, saved, m_bind, emit, set_file, get, m_ret.
  rewrite Hcreate, Hm. cbn [st_fs st_trace st_viper st_open st_rows st_deferred st_source].
  eexists. split; [reflexivity|].
  cbn [st_fs]. rewrite lookup_insert_eq. split; [reflexivity|].
  by rewrite Hd.
Qed.

Lemma save_then_load_restores_witness :
  ∃ st1,
    saveToken (demo_env (λ _, inr demo_rows) (λ _, None) true) cacheFile demo_token
      demo_start = (Ret tt, st1)
    ∧ st_fs st1 !! cacheFile = Some (saved demo_token)
    ∧ tokenFromFile cacheFile st1 = (Ret (demo_token, None), st1).
Proof.
  apply (save_then_load_restores (demo_env (λ _, inr demo_rows) (λ _, None) true)
           cacheFile demo_token demo_start).
  - reflexivity.
  - unfold wf_Token, wf_Time. cbn. repeat split; (reflexivity || lia).
Defined.

(** C7 (counterexample): a credential whose access token is not valid
    UTF-8 comes back with U+FFFD in place of the offending byte, and a
    credential expiring after the year 9999 leaves an empty file, from
    which loading fails. *)
Lemma save_then_load_changes_the_credential :
  let env := demo_env (λ _, inr demo_rows) (λ _, None) true in
  (saveToken env cacheFile odd_token demo_start).1 = Ret tt
  ∧ (tokenFromFile cacheFile (after_save env cacheFile odd_token demo_start)).1
    = Ret (mkToken (str1 0xEF +:+ str1 0xBF +:+ str1 0xBD) "Bearer" "1/refresh"
             (mkTime 2018 6 1 12 30 0 0 120), None)
  ∧ AccessToken odd_token ≠ str1 0xEF +:+ str1 0xBF +:+ str1 0xBD
  ∧ (saveToken env cacheFile late_token demo_start).1 = Ret tt
  ∧ st_fs (after_save env cacheFile late_token demo_start) !! cacheFile = Some ""
  ∧ (tokenFromFile cacheFile (after_save env cacheFile late_token demo_start)).1
    = Ret (zero_Token, Some "EOF").
Proof.
  cbv zeta. split; [reflexivity|]. split; [vm_compute; reflexivity|].
  split; [discriminate|]. split; [reflexivity|]. split; [reflexivity|].
  vm_compute; reflexivity.
Qed.

(** * More on the row-to-grid conversion *)

Lemma cells_ret values : ∀ idx x x',
  cells values idx x = Ret x' →
  ∃ l, x' = x ++ l ∧ length l = length idx ∧ Forall no_bytes l.
Proof.
  induction idx as [|i idx IH]; intros x x' H; cbn [cells] in H.
  - exists []. inversion H. by rewrite app_nil_r.
  - destruct (values !! i) as [val|]; [|done].
    destruct (IH _ _ H) as (l & -> & Hlen & Hl).
    exists (coerce val :: l). rewrite <- app_assoc. split; [done|].
    split; [simpl; by rewrite Hlen|]. constructor; [by destruct val|done].
Qed.

Lemma scan_loop_ret columns : ∀ stream values sheetValues grid,
  scan_loop columns stream values sheetValues = Ret grid →
  ∃ rows, grid = sheetValues ++ rows
          ∧ length rows = length stream
          ∧ Forall (λ row, length row = length columns ∧ Forall no_bytes row) rows.
Proof.
  induction stream as [|ev stream IH]; intros values sheetValues grid H;
    cbn [scan_loop] in H.
  - exists []. inversion H. by rewrite app_nil_r.
  - destruct (rows_Scan ev values) as [values'| |]; [|done|done].
    destruct (cells values' (seq 0 (length columns)) []) as [x| |] eqn:Hx; [|done|done].
    destruct (cells_ret _ _ _ _ Hx) as (l & -> & Hlen & Hl).
    destruct (IH _ _ _ H) as (rows & -> & Hrows & Hall).
    exists (l :: rows). rewrite <- app_assoc. split; [done|].
    split; [simpl; by rewrite Hrows|].
    constructor; [|done]. split; [|done]. by rewrite Hlen, length_seq.
Qed.

(** X1: Whatever the cursor yields, a conversion that returns has produced a
    rectangular grid: the header of column names first, one row per row
    of the cursor after it, every row as long as the header. *)
Theorem convert_returns_a_rectangle (rows : Rows) (grid : Grid) :
  convert rows = Ret grid →
  grid !! 0%nat = Some (map VString (rows_columns rows))
  ∧ length grid = S (length (rows_stream rows))
  ∧ Forall (λ row, length row = length (rows_columns rows)) grid.
Proof.
  unfold convert. intros H.
  destruct (scan_loop_ret _ _ _ _ _ H) as (body & -> & Hlen & Hall).
  split; [done|]. split; [simpl; by rewrite Hlen|].
  constructor; [by rewrite length_map|].
  eapply Forall_impl; [exact Hall|]. by intros row [? _].
Qed.

Lemma convert_returns_a_rectangle_witness :
  demo_grid !! 0%nat = Some (map VString (rows_columns demo_rows))
  ∧ length demo_grid = S (length (rows_stream demo_rows))
  ∧ Forall (λ row, length row = length (rows_columns demo_rows)) demo_grid.
Proof.
  apply (convert_returns_a_rectangle demo_rows demo_grid). reflexivity.
Defined.

(** X2: No cell of a grid the conversion returns is a byte slice: every
    [[]byte] the driver hands over has been turned into a string. *)
Theorem grid_has_no_byte_slices (rows : Rows) (grid : Grid) :
  convert rows = Ret grid → Forall (Forall no_bytes) grid.
Proof.
  unfold convert. intros H.
  destruct (scan_loop_ret _ _ _ _ _ H) as (body & -> & _ & Hall).
  constructor.
  - apply Forall_map. by apply Forall_true.
  - eapply Forall_impl; [exact Hall|]. by intros row [_ ?].
Qed.

Lemma grid_has_no_byte_slices_witness : Forall (Forall no_bytes) demo_grid.
Proof. apply (grid_has_no_byte_slices demo_rows). reflexivity. Defined.

(** X3: A row for which Scan reports [sql.ErrNoRows] ends the conversion in the
    panic of line 145, whatever the cursor holds after it. *)
Theorem no_rows_error_ends_the_conversion columns pre post more :
  Forall (λ row, length row = length columns) pre →
  convert (mkRows columns (map RowData pre ++ RowErrNoRows :: post) more)
  = Panic "something went wrong..".
Proof.
  intros Hpre. unfold convert. cbn [rows_columns rows_stream].
  rewrite scan_loop_failure; [done | by rewrite length_replicate | done].
Qed.

Lemma no_rows_error_ends_the_conversion_witness :
  convert demo_rows_norows = Panic "something went wrong..".
Proof.
  apply (no_rows_error_ends_the_conversion ["id"; "total"]
           [[VInt64 1; VBytes "9.50"]; [VInt64 2; VNil]] [RowData [VInt64 3; VNil]] false).
  repeat constructor.
Defined.

Lemma rows_Scan_length ev values values' :
  rows_Scan ev values = ScanNil values' → length values' = length values.
Proof.
  unfold rows_Scan. destruct ev as [vs| |e]; [|done|done].
  case_decide; [|done]. by intros [= <-].
Qed.

Lemma scan_loop_outcomes columns : ∀ stream values sheetValues,
  length values = length columns →
  (∃ grid, scan_loop columns stream values sheetValues = Ret grid)
  ∨ scan_loop columns stream values sheetValues = Panic "something went wrong.."
  ∨ scan_loop columns stream values sheetValues = Panic "row scan failure".
Proof.
  induction stream as [|ev stream IH]; intros values sheetValues Hlen; cbn [scan_loop].
  - left. by eexists.
  - destruct (rows_Scan ev values) as [values'| |e] eqn:Hscan; [|by right; left|by right; right].
    apply rows_Scan_length in Hscan.
    rewrite cells_all by congruence. apply IH. congruence.
Qed.

(** X4: The conversion ends in one of three ways: it returns a grid, or it
    panics with one of the two messages of lines 145 and 161.  It never
    exits through log.Fatal and never runs past the end of the row
    buffer. *)
Theorem convert_outcomes (rows : Rows) :
  (∃ grid, convert rows = Ret grid)
  ∨ convert rows = Panic "something went wrong.."
  ∨ convert rows = Panic "row scan failure".
Proof.
  unfold convert. apply scan_loop_outcomes. by rewrite length_replicate.
Qed.

(** * More on the credential store and the bootstrap *)

(** X5: getTokenFromWeb (lines 36-51) prints the prompt and reads the code; it
    asks for the exchange only once a code was read, returns exactly when
    both succeeded, and exits fatally otherwise.  It never panics and
    never touches a file or the token source. *)
Theorem getTokenFromWeb_outcomes (env : Env) (config : OAuthConfig) (st : State) :
  let r := getTokenFromWeb env config st in
  st_fs r.2 = st_fs st
  ∧ st_source r.2 = st_source st
  ∧ (∀ m, r.1 ≠ Panic m)
  ∧ (∀ tok, r.1 = Ret tok
       ↔ ∃ code, env_Scan env = inr code ∧ env_Exchange env code = inr tok)
  ∧ (∀ code tok, env_Scan env = inr code → env_Exchange env code = inr tok →
       st_trace r.2 = st_trace st ++
         [EvPrint (prompt (env_AuthCodeURL env config)); EvScan; EvExchange code])
  ∧ (∀ err, env_Scan env = inl err →
       r.1 = Fatal ("Unable to read authorization code " +:+ err)
       ∧ st_trace r.2 = st_trace st ++
           [EvPrint (prompt (env_AuthCodeURL env config)); EvScan;
            EvLog FatalLevel ("Unable to read authorization code " +:+ err)])
  ∧ (∀ code err, env_Scan env = inr code → env_Exchange env code = inl err →
       r.1 = Fatal ("Unable to retrieve token from web " +:+ err)).
Proof.
  unfold getTokenFromWeb, m_bind, log_Fatal, emit, m_ret, prompt.
  cbn -[String.append].
  destruct (env_Scan env) as [e|code]; cbn -[String.append].
  - repeat apply conj; try done.
    + intros tok. split; [intros [=]|intros (code & [=] & _)].
    + intros err [= <-]. split; [done|]. by rewrite <- !app_assoc.
  - destruct (env_Exchange env code) as [e|tok] eqn:Hex; cbn -[String.append].
    + repeat apply conj; try done.
      * intros tok. split; [intros [=]|]. intros (code' & [= <-] & ?). congruence.
      * intros code' tok [= <-]. congruence.
      * intros code' err [= <-]. congruence.
    + repeat apply conj; try done.
      * intros tok'. split.
        -- intros [= <-]. by exists code.
        -- intros (code' & [= <-] & ?). congruence.
      * intros code' tok' [= <-] _. by rewrite <- !app_assoc.
      * intros code' err [= <-]. congruence.
Qed.

(** X6: saveToken (lines 66-74): when the file cannot be created the process
    exits and no file has changed; otherwise the file holds the encoded
    credential and nothing of what it held before, and every other file
    is as it was. *)
Theorem saveToken_outcomes (env : Env) (file : string) (tok : Token) (st : State) :
  let r := saveToken env file tok st in
  (∀ err, env_Create env file = Some err →
     r.1 = Fatal ("Unable to cache oauth token: " +:+ err)
     ∧ st_fs r.2 = st_fs st
     ∧ st_trace r.2 = st_trace st ++
         [EvPrint ("Saving credential file to: " +:+ file +:+ LF);
          EvLog FatalLevel ("Unable to cache oauth token: " +:+ err)])
  ∧ (env_Create env file = None →
     r.1 = Ret tt
     ∧ st_fs r.2 = <[file := saved tok]> (st_fs st)
     ∧ ∀ other, other ≠ file → st_fs r.2 !! other = st_fs st !! other).
Proof.
  unfold saveToken, m_bind, log_Fatal, emit, set_file, m_ret, saved.
  cbn -[String.append json_Marshal].
  split.
  - intros err ->. cbn -[String.append]. by rewrite <- !app_assoc.
  - intros ->. cbn -[String.append json_Marshal].
    destruct (json_Marshal tok) as [e|data]; cbn -[String.append].
    + repeat apply conj; try done. intros other Hne. by rewrite lookup_insert_ne.
    + rewrite insert_insert_eq. repeat apply conj; try done.
      intros other Hne. by rewrite lookup_insert_ne.
Qed.

(** X7: A credential whose expiry has a year outside 0..9999 cannot be
    encoded: saveToken returns all the same, the cache file is left empty,
    and loading it reports EOF. *)
Theorem unrepresentable_expiry_empties_the_file (env : Env) (file : string)
    (tok : Token) (st : State) :
  env_Create env file = None →
  t_year (Expiry tok) < 0 ∨ 10000 ≤ t_year (Expiry tok) →
  ∃ st1, saveToken env file tok st = (Ret tt, st1)
    ∧ st_fs st1 = <[file := ""]> (st_fs st)
    ∧ (∀ data, EvWrite file data ∈ st_trace st1 → EvWrite file data ∈ st_trace st)
    ∧ tokenFromFile file st1 = (Ret (zero_Token, Some "EOF"), st1).
Proof.
  intros Hcreate Hyear.
  assert (Hm : ∃ e, json_Marshal tok = inl e).
  { unfold json_Marshal, Time_MarshalJSON.
    destruct Hyear as [H|H].
    - rewrite (proj2 (Z.ltb_lt _ _) H). by eexists.
    - rewrite (proj2 (Z.leb_le _ _) H), orb_true_r. by eexists. }
  destruct Hm as [e Hm].
  unfold saveToken, tokenFromFile, m_bind, emit, set_file, get, m_ret.
  rewrite Hcreate, Hm. cbn -[String.append].
  eexists. split; [reflexivity|]. cbn -[String.append].
  split; [done|]. split.
  - intros data. rewrite !elem_of_app, !list_elem_of_singleton.
    intros [[?|?]|?]; [done|done|done].
  - by rewrite lookup_insert_eq.
Qed.

Lemma unrepresentable_expiry_empties_the_file_witness :
  ∃ st1, saveToken (demo_env (λ _, inr demo_rows) (λ _, None) true) cacheFile late_token
           demo_start = (Ret tt, st1)
    ∧ st_fs st1 = <[cacheFile := ""]> (st_fs demo_start)
    ∧ (∀ data, EvWrite cacheFile data ∈ st_trace st1
               → EvWrite cacheFile data ∈ st_trace demo_start)
    ∧ tokenFromFile cacheFile st1 = (Ret (zero_Token, Some "EOF"), st1).
Proof.
  apply (unrepresentable_expiry_empties_the_file
           (demo_env (λ _, inr demo_rows) (λ _, None) true) cacheFile late_token demo_start).
  - reflexivity.
  - right. cbn. lia.
Defined.

(** X8: tokenFromFile (lines 55-64) reports an error, and changes nothing, for
    a file that is missing and for a file that holds nothing but white
    space. *)
Theorem tokenFromFile_without_content (file : string) (st : State) :
  (st_fs st !! file = None →
     tokenFromFile file st
     = (Ret (zero_Token, Some ("open " +:+ file +:+ ": no such file or directory")), st))
  ∧ (∀ data, st_fs st !! file = Some data → skip_ws data = "" →
       tokenFromFile file st = (Ret (zero_Token, Some "EOF"), st)).
Proof.
  unfold tokenFromFile, m_bind, get, m_ret. cbn -[String.append json_Decode]. split.
  - by intros ->.
  - intros data -> Hblank. unfold json_Decode. by rewrite Hblank.
Qed.

(** ** What a loaded expiry can be *)












(** A cache file whose expiry names the 30th of February is refused. *)
Lemma feb30_is_refused :
  (tokenFromFile cacheFile (mkState demo_config demo_fs_feb30 [] [] 0 [] zero_Token)).1
  = Ret (mkToken "ya29.access" "" "" zero_Time,
         Some "parsing time: cannot parse as RFC 3339").
Proof. vm_compute. reflexivity. Qed.

Lemma getTokenFromWeb_outcomes_witness :
  (getTokenFromWeb (demo_env (λ _, inr demo_rows) (λ _, None) true) demo_oauth
     demo_start).1 = Ret demo_token
  ∧ (getTokenFromWeb demo_env_refused demo_oauth demo_start).1
    = Fatal ("Unable to retrieve token from web "
             +:+ "oauth2: cannot fetch token: 400 Bad Request").
Proof.
  split.
  - apply (getTokenFromWeb_outcomes (demo_env (λ _, inr demo_rows) (λ _, None) true)
             demo_oauth demo_start).
    exists "4/code". split; reflexivity.
  - apply (getTokenFromWeb_outcomes demo_env_refused demo_oauth demo_start)
      with (code := "4/code"); reflexivity.
Defined.

Lemma saveToken_outcomes_witness :
  (saveToken (demo_env (λ _, inr demo_rows) (λ _, None) true) cacheFile demo_fresh_token
     demo_start).1 = Ret tt
  ∧ st_fs (saveToken (demo_env (λ _, inr demo_rows) (λ _, None) true) cacheFile
             demo_fresh_token demo_start).2
    = <[cacheFile := saved demo_fresh_token]> (st_fs demo_start)
  ∧ ∀ other, other ≠ cacheFile →
      st_fs (saveToken (demo_env (λ _, inr demo_rows) (λ _, None) true) cacheFile
               demo_fresh_token demo_start).2 !! other
      = st_fs demo_start !! other.
Proof.
  apply (saveToken_outcomes (demo_env (λ _, inr demo_rows) (λ _, None) true) cacheFile
           demo_fresh_token demo_start).
  reflexivity.
Defined.

Lemma tokenFromFile_without_content_witness :
  tokenFromFile cacheFile
    (mkState demo_config (<[cacheFile := " " +:+ LF]> demo_fs) [] [] 0 [] zero_Token)
  = (Ret (zero_Token, Some "EOF"),
     mkState demo_config (<[cacheFile := " " +:+ LF]> demo_fs) [] [] 0 [] zero_Token).
Proof.
  apply (tokenFromFile_without_content cacheFile
           (mkState demo_config (<[cacheFile := " " +:+ LF]> demo_fs) [] [] 0 [] zero_Token))
    with (data := " " +:+ LF).
  - vm_compute. reflexivity.
  - reflexivity.
Defined.

(** * Frames of the primitives *)

Section Frames.
Variable R : State → State → Prop.
Hypothesis R_refl : ∀ st, R st st.
Hypothesis R_trans : ∀ st1 st2 st3, R st1 st2 → R st2 st3 → R st1 st3.

Lemma frames_ret {A} (a : A) : frames R (m_ret a).
Proof. intros st. apply R_refl. Qed.

Lemma frames_get {A} (f : State → A) : frames R (get f).
Proof. intros st. apply R_refl. Qed.

Lemma frames_lift {A} (r : Res A) : frames R (lift r).
Proof. intros st. apply R_refl. Qed.

Lemma frames_panic {A} msg : frames R (@panic A msg).
Proof. intros st. apply R_refl. Qed.

Lemma frames_bind {A B} (c : M A) (k : A → M B) :
  frames R c → (∀ a, frames R (k a)) → frames R (m_bind c k).
Proof.
  intros Hc Hk st. unfold m_bind. specialize (Hc st).
  destruct (c st) as [[a| |] st1]; cbn [snd] in *; [|done|done].
  eapply R_trans; [exact Hc|apply Hk].
Qed.
End Frames.

(** ** Cursors *)

Lemma settles_refl st : settles st st.
Proof. by repeat split. Qed.

Lemma settles_trans st1 st2 st3 : settles st1 st2 → settles st2 st3 → settles st1 st3.
Proof.
  intros (H1 & H2 & H3) (H4 & H5 & H6).
  split; [by etrans|]. split; congruence.
Qed.

Lemma settles_emit e : frames settles (emit e).
Proof. intros st. by repeat split. Qed.

Lemma settles_log_Fatal {A} msg : frames settles (@log_Fatal A msg).
Proof. intros st. by repeat split. Qed.

Lemma settles_set_source t : frames settles (set_source t).
Proof. intros st. by repeat split. Qed.

Lemma settles_set_file f d : frames settles (set_file f d).
Proof. intros st. by repeat split. Qed.

Lemma settles_set_viper y : frames settles (set_viper y).
Proof. intros st. by repeat split. Qed.

Lemma settles_close_rows id : frames settles (close_rows id).
Proof.
  intros st. unfold close_rows. case_decide; cbn [snd]; [|apply settles_refl].
  split; [|done]. cbn [st_open]. intros j Hj. by apply list_elem_of_filter in Hj as [_ ?].
Qed.

Ltac settles_tac :=
  repeat first
    [ apply (frames_ret settles settles_refl)
    | apply (frames_get settles settles_refl)
    | apply (frames_lift settles settles_refl)
    | apply (frames_panic settles settles_refl)
    | apply settles_log_Fatal | apply settles_set_source | apply settles_set_file
    | apply settles_set_viper | apply settles_close_rows | apply settles_emit
    | apply (frames_bind settles settles_trans); [|intros ?]
    | case_match ].

Lemma tidy_settles st st' : tidy st → settles st st' → tidy st'.
Proof.
  intros Ht (Ho & Hd & _) id Hid. rewrite Hd. apply Ht. by apply Ho.
Qed.

(** * Cursors over a whole run *)

Lemma settles_getClient env config : frames settles (getClient env config).
Proof.
  unfold getClient, tokenFromFile, getTokenFromWeb, saveToken, config_Client.
  settles_tac.
Qed.

Lemma tidy_query env q {B} (k : option (nat * Rows) → M B) :
  (∀ rows, frames settles (k rows)) →
  ∀ st, tidy st →
    tidy (m_bind (db_Query env q)
            (λ rows, m_bind (defer_Close (fst <$> rows)) (λ _, k rows)) st).2.
Proof.
  intros Hk st Ht. unfold db_Query, get, emit, open_rows, defer_Close, m_ret, m_bind.
  cbn [fst snd st_trace st_viper st_fs st_open st_rows st_deferred st_source].
  match goal with
  | |- context [env_Query env ?tr q] => destruct (env_Query env tr q) as [e|rows]
  end;
    cbn [fst snd fmap option_fmap option_map st_trace st_viper st_fs st_open st_rows
         st_deferred st_source].
  - eapply tidy_settles; [|apply Hk].
    intros id Hid. cbn [st_open st_deferred] in *. right. by apply Ht.
  - eapply tidy_settles; [|apply Hk].
    intros id Hid. cbn [st_open st_deferred] in *.
    apply elem_of_cons in Hid as [->|Hid]; [left|right; by apply Ht].
Qed.

Lemma tidy_bind {A B} (c : M A) (k : A → M B) :
  frames settles c → (∀ a st, tidy st → tidy (k a st).2) →
  ∀ st, tidy st → tidy (m_bind c k st).2.
Proof.
  intros Hc Hk st Ht. unfold m_bind. specialize (Hc st).
  destruct (c st) as [[a| |] st1]; cbn [snd] in *.
  - apply Hk. by eapply tidy_settles.
  - by eapply tidy_settles.
  - by eapply tidy_settles.
Qed.

Lemma tidy_run_loader env l st : tidy st → tidy (run_loader env l st).2.
Proof.
  unfold run_loader. revert st.
  apply tidy_bind; [unfold log_Infof; settles_tac|]. intros _.
  apply tidy_bind; [settles_tac|]. intros cfg.
  apply tidy_bind; [unfold DbConnect, log_Debug; settles_tac|]. intros _.
  apply tidy_query. intros rows.
  unfold Next_false, BatchUpdate_Do, source_Token. settles_tac.
Qed.

Lemma tidy_run_loaders env ls : ∀ st, tidy st → tidy (run_loaders env ls st).2.
Proof.
  induction ls as [|l ls IH]; intros st Ht; [done|].
  cbn [run_loaders]. unfold m_bind.
  pose proof (tidy_run_loader env l st Ht) as H1.
  destruct (run_loader env l st) as [[[]| |] st1]; cbn [snd] in *; [by apply IH|done|done].
Qed.

Lemma tidy_main env st : tidy st → tidy (main env st).2.
Proof.
  unfold main. revert st.
  apply tidy_bind; [settles_tac|]. intros fs.
  destruct (fs !! "client_secret.json") as [b|].
  2:{ intros st Ht. eapply tidy_settles; [exact Ht|apply settles_log_Fatal]. }
  destruct (env_ConfigFromJSON env b) as [e|config].
  { intros st Ht. eapply tidy_settles; [exact Ht|apply settles_log_Fatal]. }
  apply tidy_bind; [apply settles_getClient|]. intros client.
  apply tidy_bind; [settles_tac|]. intros cfg.
  apply tidy_run_loaders.
Qed.

Lemma elem_close_rows id j st :
  id ∈ st_open (close_rows j st).2 → id ∈ st_open st ∧ id ≠ j.
Proof.
  unfold close_rows. case_decide as Hin; cbn [snd st_open].
  - intros H. by apply list_elem_of_filter in H as [? ?].
  - intros H. split; [done|]. by intros ->.
Qed.

Lemma elem_run_deferred ds : ∀ st id,
  id ∈ st_open (foldl (λ st d, match d with
                               | Some id => snd (close_rows id st)
                               | None => st
                               end) st ds) →
  id ∈ st_open st ∧ Some id ∉ ds.
Proof.
  induction ds as [|d ds IH]; intros st id Hin; cbn [foldl] in Hin.
  - split; [done|]. apply not_elem_of_nil.
  - apply IH in Hin as [Hin Hnot]. destruct d as [j|].
    + apply elem_close_rows in Hin as [Hin Hne].
      split; [done|]. apply not_elem_of_cons. split; [congruence|done].
    + split; [done|]. by apply not_elem_of_cons.
Qed.

Lemma run_deferred_closes st : tidy st → st_open (run_deferred st) = [].
Proof.
  intros Ht. apply elem_of_nil_inv. intros id Hin.
  apply elem_run_deferred in Hin as [Hin Hnot]. by apply Hnot, Ht.
Qed.

(** X19: When main returns or panics, no cursor is left open: every cursor a
    loader opened has its Close among the deferred calls, and these run
    before the process ends.  (Only an exit through log.Fatal, which skips
    the deferred calls, can leave cursors open.) *)
Theorem no_cursor_survives_main (env : Env) (fs : gmap string string) :
  (∀ m, (program env fs).1 ≠ Fatal m) →
  st_open (program env fs).2 = [].
Proof.
  intros Hnf. unfold program in *.
  assert (Ht : tidy (m_bind (config env) (λ _, main env) (init_State fs)).2).
  { assert (Ht0 : tidy (init_State fs)).
    { intros id Hid. by apply not_elem_of_nil in Hid. }
    revert Ht0. generalize (init_State fs).
    apply tidy_bind; [unfold config; settles_tac|]. intros _. apply tidy_main. }
  destruct (m_bind (config env) (λ _, main env) (init_State fs)) as [[[]|m|m] st];
    cbn [fst snd] in *.
  - by apply run_deferred_closes.
  - by destruct (Hnf m).
  - by apply run_deferred_closes.
Qed.

Lemma no_cursor_survives_main_witness :
  st_open (program (demo_env (λ _, inr demo_rows_more) (λ _, None) true) demo_fs).2 = [].
Proof.
  apply (no_cursor_survives_main (demo_env (λ _, inr demo_rows_more) (λ _, None) true)
           demo_fs).
  intros m H. vm_compute in H. discriminate H.
Defined.

(** ** A cursor with a single result set *)

Lemma same_cursors_refl st : same_cursors st st.
Proof. by split. Qed.

Lemma same_cursors_trans st1 st2 st3 :
  same_cursors st1 st2 → same_cursors st2 st3 → same_cursors st1 st3.
Proof. intros [H1 H2] [H3 H4]. split; congruence. Qed.

Lemma same_cursors_emit e : frames same_cursors (emit e).
Proof. intros st. by split. Qed.

Lemma same_cursors_log_Fatal {A} msg : frames same_cursors (@log_Fatal A msg).
Proof. intros st. by split. Qed.

Lemma same_cursors_set_source t : frames same_cursors (set_source t).
Proof. intros st. by split. Qed.

Ltac same_cursors_tac :=
  repeat first
    [ apply (frames_ret same_cursors same_cursors_refl)
    | apply (frames_get same_cursors same_cursors_refl)
    | apply (frames_lift same_cursors same_cursors_refl)
    | apply (frames_panic same_cursors same_cursors_refl)
    | apply same_cursors_log_Fatal | apply same_cursors_set_source
    | apply same_cursors_emit
    | apply (frames_bind same_cursors same_cursors_trans); [|intros ?]
    | case_match ].

Lemma same_cursors_DbConnect env : frames same_cursors (DbConnect env).
Proof. unfold DbConnect, log_Debug. same_cursors_tac. Qed.

Lemma same_cursors_write env sid rb :
  frames same_cursors
    (m_bind (BatchUpdate_Do env sid rb)
       (λ err, match err with
               | Some e => log_Fatal e
               | None => emit (EvPrint ("Done." +:+ LF))
               end)).
Proof. unfold BatchUpdate_Do, source_Token. same_cursors_tac. Qed.

Lemma filter_ne_id (id : nat) (l : list nat) :
  id ∉ l → filter (λ j, j ≠ id) l = l.
Proof.
  induction l as [|j l IH]; intros H; [done|].
  apply not_elem_of_cons in H as [Hne H].
  rewrite filter_cons_True by congruence. f_equal. by apply IH.
Qed.

Lemma cells_not_Fatal values : ∀ idx x m, cells values idx x ≠ Fatal m.
Proof.
  induction idx as [|i idx IH]; intros x m; cbn [cells]; [done|].
  destruct (values !! i); [apply IH|done].
Qed.

Lemma convert_not_Fatal rows m : convert rows ≠ Fatal m.
Proof.
  unfold convert. generalize (replicate (length (rows_columns rows)) VNil).
  generalize [map VString (rows_columns rows)].
  induction (rows_stream rows) as [|ev stream IH]; intros sv values; cbn [scan_loop]; [done|].
  destruct (rows_Scan ev values) as [values'| |]; [|done|done].
  destruct (cells values' _ []) as [x|m'|m'] eqn:Hx; [apply IH| |done].
  by apply cells_not_Fatal in Hx.
Qed.

Lemma turn_of_single_result_cursor env l st r st' :
  (∀ tr q rows, env_Query env tr q = inr rows → rows_next_set rows = false) →
  st_rows st ∉ st_open st →
  run_loader env l st = (r, st') →
  (∀ m, r ≠ Panic m) →
  st_open st' = st_open st.
Proof.
  intros Hsingle Hfresh Hrun Hr. unfold run_loader in Hrun.
  unfold m_bind at 1 in Hrun. unfold log_Infof at 1, emit at 1 in Hrun.
  unfold m_bind at 1 in Hrun. unfold get at 1 in Hrun. cbn [st_viper] in Hrun.
  unfold m_bind at 1 in Hrun.
  match type of Hrun with context [DbConnect env ?s] =>
    pose proof (same_cursors_DbConnect env s) as [Hc1 Hc2];
    destruct (DbConnect env s) as [[[]|m|m] st1]
  end; cbn [snd st_open st_rows] in Hc1, Hc2; [|congruence|congruence].
  unfold m_bind at 1 in Hrun. unfold db_Query at 1 in Hrun.
  unfold m_bind at 1 2 in Hrun. unfold get at 1, emit at 1 in Hrun.
  cbn [st_trace st_viper st_fs st_open st_rows st_deferred st_source] in Hrun.
  match type of Hrun with
  | context [env_Query env ?tr ?q] =>
      pose proof (Hsingle tr q) as Hs; destruct (env_Query env tr q) as [e|rows]
  end.
  { unfold m_ret at 1 in Hrun. unfold m_bind at 1 in Hrun.
    unfold defer_Close at 1, panic in Hrun. injection Hrun as <- _. exfalso. by eapply Hr. }
  specialize (Hs rows eq_refl).
  unfold m_bind at 1 in Hrun. unfold open_rows at 1, m_ret at 1 in Hrun.
  cbn [st_trace st_viper st_fs st_open st_rows st_deferred st_source] in Hrun.
  unfold m_bind at 1 in Hrun. unfold defer_Close at 1 in Hrun.
  cbn [fst snd fmap option_fmap option_map st_trace st_viper st_fs st_open st_rows
       st_deferred st_source] in Hrun.
  unfold m_bind at 1 in Hrun. unfold lift at 1 in Hrun.
  destruct (convert rows) as [grid|m|m] eqn:Hconv.
  2:{ by apply convert_not_Fatal in Hconv. }
  2:{ injection Hrun as <- _. exfalso. by eapply Hr. }
  unfold m_bind at 1 in Hrun. unfold Next_false at 1 in Hrun. rewrite Hs in Hrun.
  unfold close_rows at 1 in Hrun.
  cbn [st_trace st_viper st_fs st_open st_rows st_deferred st_source] in Hrun.
  rewrite decide_True in Hrun by (apply elem_of_cons; by left).
  match type of Hrun with context [m_bind (BatchUpdate_Do env ?sid ?rb) ?k ?s] =>
    pose proof (same_cursors_write env sid rb s) as [Hw _]
  end.
  rewrite Hrun in Hw. cbn [snd st_open] in Hw. rewrite Hw, Hc2.
  rewrite filter_cons_False by (intros H; by apply H).
  rewrite Hc1. by apply filter_ne_id.
Qed.

(** X20: When the cursors the database returns have no further result set,
    database/sql closes each at the end of its rows: a loader's turn that
    ends without a panic, by returning or by a fatal exit, leaves open
    exactly the cursors that were open before it. *)
Theorem single_result_cursor_is_closed_in_turn (env : Env) (l : string) (st : State) :
  (∀ tr q rows, env_Query env tr q = inr rows → rows_next_set rows = false) →
  st_rows st ∉ st_open st →
  (∀ m, (run_loader env l st).1 ≠ Panic m) →
  st_open (run_loader env l st).2 = st_open st.
Proof.
  intros Hsingle Hfresh Hr.
  destruct (run_loader env l st) as [r st'] eqn:Hrun.
  by eapply turn_of_single_result_cursor.
Qed.

Lemma single_result_cursor_is_closed_in_turn_witness :
  st_open (run_loader (demo_env (λ _, inr demo_rows) (reject "sheet-orders") true)
             "orders" demo_start).2 = st_open demo_start.
Proof.
  apply (single_result_cursor_is_closed_in_turn
           (demo_env (λ _, inr demo_rows) (reject "sheet-orders") true) "orders" demo_start).
  - intros tr q rows [= <-]. reflexivity.
  - apply not_elem_of_nil.
  - intros m H. vm_compute in H. discriminate H.
Defined.

(** * The outcomes of a loader's turn *)

(** X14: DbConnect (lines 180-198): when sql.Open or db.Ping fails the process
    exits with the one message of lines 187 and 192, which does not carry
    the cause; no query has been sent and no cursor opened. *)
Theorem connection_failure_is_fatal (env : Env) (l : string) (st : State) (e : error) :
  let tr := st_trace st ++ [EvLog InfoLevel ("Running Loader " +:+ l)] in
  env_DbOpen env tr = Some e ∨ env_Ping env tr = Some e →
  ∃ st', run_loader env l st = (Fatal "Unable to connect to Postgres DB", st')
    ∧ st_trace st' = st_trace st ++
        [EvLog InfoLevel ("Running Loader " +:+ l); EvDbOpen;
         EvLog FatalLevel "Unable to connect to Postgres DB"]
    ∧ st_open st' = st_open st
    ∧ st_deferred st' = st_deferred st.
Proof.
  intros tr Hfail. subst tr.
  unfold run_loader, DbConnect, log_Infof, log_Debug, log_Fatal, emit, get, m_ret, m_bind.
  cbn -[String.append GetString convert].
  destruct (env_DbOpen env _) as [e1|] eqn:Hopen.
  - cbn -[String.append]. eexists. split; [reflexivity|].
    cbn -[String.append]. by rewrite <- !app_assoc.
  - destruct Hfail as [?|Hping]; [done|]. rewrite Hping.
    cbn -[String.append]. eexists. split; [reflexivity|].
    cbn -[String.append]. by rewrite <- !app_assoc.
Qed.

Lemma connection_failure_is_fatal_witness :
  ∃ st', run_loader (mkEnv (Some demo_config) (λ keys, keys) (λ _, inr demo_oauth)
                       (λ _, "") (inr "4/code") (λ _, inr demo_token) (λ _, None)
                       (λ _, None) (λ _, Some "pq: the database system is starting up")
                       (λ _ _, inr demo_rows) (λ _ _, true) (λ _ _, inr demo_token)
                       (λ _ _ _, None))
             "orders" demo_start
         = (Fatal "Unable to connect to Postgres DB", st')
    ∧ st_trace st' = st_trace demo_start ++
        [EvLog InfoLevel ("Running Loader " +:+ "orders"); EvDbOpen;
         EvLog FatalLevel "Unable to connect to Postgres DB"]
    ∧ st_open st' = st_open demo_start
    ∧ st_deferred st' = st_deferred demo_start.
Proof.
  apply (connection_failure_is_fatal _ "orders" demo_start
           "pq: the database system is starting up").
  right. reflexivity.
Defined.

(** X15: The error of db.Query is dropped (line 125): when the query fails the
    cursor is nil, and the loader ends in the nil-pointer panic of
    rows.Columns(), the query's own error reported nowhere.  Nothing is
    written for the loader. *)
Theorem query_error_is_a_nil_panic (env : Env) (l : string) (st : State) :
  (∀ tr, env_DbOpen env tr = None) →
  (∀ tr, env_Ping env tr = None) →
  (∀ tr q, ∃ e, env_Query env tr q = inl e) →
  ∃ st', run_loader env l st
         = (Panic "runtime error: invalid memory address or nil pointer dereference", st')
    ∧ st_trace st' = st_trace st ++
        [EvLog InfoLevel ("Running Loader " +:+ l); EvDbOpen;
         EvLog DebugLevel "You are Successfully connected!";
         EvQuery (GetString (st_viper st) ("loaders." +:+ l +:+ ".query"))]
    ∧ st_open st' = st_open st
    ∧ st_deferred st' = None :: st_deferred st.
Proof.
  intros Hopen Hping Hquery.
  unfold run_loader, DbConnect, db_Query, log_Infof, log_Debug, log_Fatal, defer_Close,
    panic, emit, get, m_ret, m_bind.
  cbn -[String.append GetString convert].
  rewrite Hopen, Hping. cbn -[String.append GetString convert].
  match goal with
  | |- context [env_Query env ?tr ?q] => destruct (Hquery tr q) as [e ->]
  end.
  cbn -[String.append GetString]. eexists. split; [reflexivity|].
  cbn -[String.append GetString]. by rewrite <- !app_assoc.
Qed.

Lemma query_error_is_a_nil_panic_witness :
  ∃ st', run_loader (demo_env (λ _, inl "pq: relation does not exist") (λ _, None) true)
           "orders" demo_start
         = (Panic "runtime error: invalid memory address or nil pointer dereference", st')
    ∧ st_trace st' = st_trace demo_start ++
        [EvLog InfoLevel ("Running Loader " +:+ "orders"); EvDbOpen;
         EvLog DebugLevel "You are Successfully connected!";
         EvQuery (GetString (st_viper demo_start) ("loaders." +:+ "orders" +:+ ".query"))]
    ∧ st_open st' = st_open demo_start
    ∧ st_deferred st' = None :: st_deferred demo_start.
Proof.
  apply (query_error_is_a_nil_panic
           (demo_env (λ _, inl "pq: relation does not exist") (λ _, None) true)
           "orders" demo_start).
  - intros; reflexivity.
  - intros; reflexivity.
  - intros tr q. by eexists.
Defined.

(** X16: When the database, the token source and the Sheets API all answer
    and every grid can be encoded as the body of a request (no NaN or
    infinite float64, no time whose year lies outside 0..9999), the loop
    of main returns after sending exactly one request per loader, in the
    order of the loop: each goes to the loader's own spreadsheet with
    input option USER_ENTERED and a single value range, the one
    configured for ulta, holding the grid of the loader's own query. *)
Theorem one_request_per_loader (env : Env) (answer : string → Rows)
    (table : string → Grid) (ls : list string) (st : State) :
  (∀ tr, env_DbOpen env tr = None) →
  (∀ tr, env_Ping env tr = None) →
  (∀ tr q, env_Query env tr q = inr (answer q)) →
  (∀ q, convert (answer q) = Ret (table q)) →
  (∀ q, grid_encode_error (table q) = None) →
  (∀ tr tok, env_valid env tr tok = true) →
  (∀ tr sid rb, env_BatchUpdate env tr sid rb = None) →
  ∃ st', run_loaders env ls st = (Ret tt, st')
    ∧ updates (st_trace st')
      = updates (st_trace st)
        ++ map (request_of (st_viper st) (AccessToken (st_source st)) table) ls
    ∧ st_fs st' = st_fs st.
Proof.
  intros Hopen Hping Hquery Hconvert Hencode Hvalid Hupdate.
  destruct (run_loaders_ok env answer table (st_source st) ls st Hopen Hping Hquery
              Hconvert Hencode (λ tr, Hvalid tr _) Hupdate eq_refl)
    as (st' & Hrun & Hu & _ & _ & _ & Hf).
  by exists st'.
Qed.

Lemma one_request_per_loader_witness :
  ∃ st', run_loaders (demo_env (λ _, inr demo_rows) (λ _, None) true) ["orders"; "ulta"]
           demo_start = (Ret tt, st')
    ∧ updates (st_trace st')
      = updates (st_trace demo_start)
        ++ map (request_of (st_viper demo_start) (AccessToken (st_source demo_start))
                  demo_table) ["orders"; "ulta"]
    ∧ st_fs st' = st_fs demo_start.
Proof.
  apply (one_request_per_loader (demo_env (λ _, inr demo_rows) (λ _, None) true)
           (λ _, demo_rows) demo_table ["orders"; "ulta"] demo_start);
    intros; reflexivity.
Defined.

(** ** A whole run *)

Lemma updates_close_rows id st :
  updates (st_trace (close_rows id st).2) = updates (st_trace st)
  ∧ st_fs (close_rows id st).2 = st_fs st.
Proof.
  unfold close_rows. case_decide; cbn [snd st_trace st_fs]; [|done].
  rewrite updates_app. cbn [updates]. by rewrite app_nil_r.
Qed.

Lemma updates_run_deferred st :
  updates (st_trace (run_deferred st)) = updates (st_trace st)
  ∧ st_fs (run_deferred st) = st_fs st.
Proof.
  unfold run_deferred. generalize (st_deferred st) as ds. intros ds. revert st.
  induction ds as [|d ds IH]; intros st; cbn [foldl]; [done|].
  destruct (IH (match d with Some id => (close_rows id st).2 | None => st end)) as [-> ->].
  destruct d as [id|]; [apply updates_close_rows|done].
Qed.



(** * Database handles *)

Lemma adds_refl P st : adds P st st.
Proof. exists []. by rewrite app_nil_r. Qed.

Lemma adds_trans P st1 st2 st3 : adds P st1 st2 → adds P st2 st3 → adds P st1 st3.
Proof.
  intros (evs1 & H1 & Hp1) (evs2 & H2 & Hp2). exists (evs1 ++ evs2).
  split; [by rewrite H2, H1, app_assoc|by apply Forall_app].
Qed.

Lemma adds_emit P e : P e → frames (adds P) (emit e).
Proof. intros He st. exists [e]. split; [done|by constructor]. Qed.

Lemma adds_log_Fatal P {A} msg : P (EvLog FatalLevel msg) → frames (adds P) (@log_Fatal A msg).
Proof. intros He st. exists [EvLog FatalLevel msg]. split; [done|by constructor]. Qed.

Lemma adds_set_source P t : frames (adds P) (set_source t).
Proof. intros st. exists []. cbn. by rewrite app_nil_r. Qed.

Lemma adds_defer_Close P r : frames (adds P) (defer_Close r).
Proof. intros st. exists []. cbn. by rewrite app_nil_r. Qed.

Lemma adds_open_rows P : (∀ id, P (EvRowsOpen id)) → frames (adds P) open_rows.
Proof. intros He st. exists [EvRowsOpen (st_rows st)]. split; [done|by constructor]. Qed.

Lemma adds_close_rows P id : P (EvRowsClose id) → frames (adds P) (close_rows id).
Proof.
  intros He st. unfold close_rows. case_decide; [|apply adds_refl].
  exists [EvRowsClose id]. split; [done|by constructor].
Qed.

Ltac adds_tac P :=
  repeat first
    [ apply (frames_ret (adds P) (adds_refl P))
    | apply (frames_get (adds P) (adds_refl P))
    | apply (frames_lift (adds P) (adds_refl P))
    | apply (frames_panic (adds P) (adds_refl P))
    | apply adds_set_source | apply adds_defer_Close
    | apply adds_log_Fatal; exact I
    | apply adds_open_rows; intros; exact I
    | apply adds_close_rows; exact I
    | apply adds_emit; exact I
    | apply (frames_bind (adds P) (adds_trans P)); [|intros ?]
    | case_match ].

Lemma m_bind_assoc {A B C} (c : M A) (k : A → M B) (k' : B → M C) st :
  m_bind (m_bind c k) k' st = m_bind c (λ a, m_bind (k a) k') st.
Proof. unfold m_bind. by destruct (c st) as [[a| |] st1]. Qed.

(** The events of one turn: the announcement, the opening of a handle,
    and then neither of the two again. *)
Lemma run_loader_trace env l st :
  ∃ evs, st_trace (run_loader env l st).2
         = st_trace st ++ EvLog InfoLevel ("Running Loader " +:+ l) :: EvDbOpen :: evs
    ∧ Forall in_turn evs.
Proof.
  unfold run_loader. unfold m_bind at 1. unfold log_Infof at 1, emit at 1.
  unfold m_bind at 1. unfold get at 1. cbn [st_viper].
  unfold DbConnect. rewrite m_bind_assoc. unfold m_bind at 1. unfold get at 1.
  cbn [st_trace]. rewrite m_bind_assoc. unfold m_bind at 1. unfold emit at 1.
  cbn [st_trace st_viper st_fs st_open st_rows st_deferred st_source].
  match goal with
  | |- context [m_bind ?c ?k ?s] =>
      assert (Hrest : frames (adds in_turn) (m_bind c k));
        [|destruct (Hrest s) as (evs & -> & Hevs)]
  end.
  { unfold log_Debug, db_Query, Next_false, BatchUpdate_Do, source_Token.
    adds_tac in_turn. }
  cbn [st_trace].
  exists evs. split; [|done]. by rewrite <- !app_assoc.
Qed.

Lemma in_turn_counts evs :
  Forall in_turn evs → connections evs = 0%nat ∧ started evs = [].
Proof.
  induction 1 as [|e evs He _ [IH1 IH2]]; [done|].
  destruct e as [[] ?| | | | | | | | | | |]; cbn [connections started]; done.
Qed.

(** X18: In every run of the loop, whatever fails, the loaders that were
    started are the first ones of the list, in order, and every started
    loader has opened exactly one database handle of its own (DbConnect is
    called inside the loop, and no handle is shared between loaders). *)
Theorem one_handle_per_started_loader (env : Env) (ls : list string) (st : State) :
  ∃ evs n,
    st_trace (run_loaders env ls st).2 = st_trace st ++ evs
    ∧ started evs = map (λ l, "Running Loader " +:+ l) (take n ls)
    ∧ connections evs = length (started evs).
Proof.
  revert st. induction ls as [|l ls IH]; intros st.
  - exists [], 0%nat. cbn [run_loaders]. by rewrite app_nil_r.
  - cbn [run_loaders]. unfold m_bind.
    destruct (run_loader_trace env l st) as (evs1 & Htr & Hevs).
    destruct (in_turn_counts evs1 Hevs) as [Hc Hs].
    destruct (run_loader env l st) as [[[]|m|m] st1]; cbn [snd] in *.
    + destruct (IH st1) as (evs2 & n & Htr2 & Hst2 & Hc2).
      exists ((EvLog InfoLevel ("Running Loader " +:+ l) :: EvDbOpen :: evs1) ++ evs2), (S n).
      split; [by rewrite Htr2, Htr, <- app_assoc|].
      rewrite started_app, connections_app. cbn [started connections take map].
      rewrite Hs, Hc, Hst2, Hc2, Hst2. cbn [app length Nat.add]. done.
    + exists (EvLog InfoLevel ("Running Loader " +:+ l) :: EvDbOpen :: evs1), 1%nat.
      split; [done|]. cbn [started connections take map]. rewrite Hs, Hc. by rewrite take_0.
    + exists (EvLog InfoLevel ("Running Loader " +:+ l) :: EvDbOpen :: evs1), 1%nat.
      split; [done|]. cbn [started connections take map]. rewrite Hs, Hc. by rewrite take_0.
Qed.

(** * The token source during the loop *)

(** X21: When the held token has expired, the provider refreshes it and
    every grid can be encoded as the body of a request, the refresh
    happens once, at the first loader's request: that request and those
    of all later loaders carry the new access token, which the token
    source holds from then on, and no file is changed. *)
Theorem refreshed_token_is_reused (env : Env) (answer : string → Rows)
    (table : string → Grid) (held fresh : Token) (l : string) (ls : list string)
    (st : State) :
  st_source st = held →
  (∀ tr, env_DbOpen env tr = None) →
  (∀ tr, env_Ping env tr = None) →
  (∀ tr q, env_Query env tr q = inr (answer q)) →
  (∀ q, convert (answer q) = Ret (table q)) →
  (∀ q, grid_encode_error (table q) = None) →
  (∀ tr, env_valid env tr held = false) →
  (∀ tr, env_refresh env tr held = inr fresh) →
  (∀ tr, env_valid env tr fresh = true) →
  (∀ tr sid rb, env_BatchUpdate env tr sid rb = None) →
  ∃ st', run_loaders env (l :: ls) st = (Ret tt, st')
    ∧ updates (st_trace st')
      = updates (st_trace st)
        ++ map (request_of (st_viper st) (AccessToken fresh) table) (l :: ls)
    ∧ refreshes (st_trace st') = refreshes (st_trace st) ++ [RefreshToken held]
    ∧ st_source st' = fresh
    ∧ st_fs st' = st_fs st.
Proof.
  intros Hsrc Hopen Hping Hquery Hconvert Hencode Hexpired Hrefresh Hvalid Hupdate.
  pose proof (turn_converted env l st _ _ Hopen Hping (λ tr, Hquery tr _) (Hconvert _))
    as Hturn.
  destruct (after_rows_reads l (answer (turn_query (st_viper st) l)) st)
    as (Hu & Hr & _ & Hv & Hs & Hf).
  rewrite write_refreshed with (fresh := fresh) in Hturn
    by (rewrite ?Hs, ?Hsrc; auto).
  rewrite Hupdate in Hturn.
  match type of Hturn with _ = (_, ?s) => set (st1 := s) in Hturn end.
  destruct (run_loaders_ok env answer table fresh ls st1 Hopen Hping Hquery Hconvert
              Hencode Hvalid Hupdate eq_refl)
    as (st2 & Hrest & Hu2 & Hr2 & Hv2 & Hs2 & Hf2).
  exists st2. cbn [run_loaders]. unfold m_bind. rewrite Hturn, Hrest.
  split; [done|]. rewrite Hu2, Hr2, Hs2, Hf2. subst st1.
  unfold with_source, with_events. cbn [st_trace st_viper st_fs].
  rewrite !updates_app, !refreshes_app, Hu, Hr, Hv, Hs, Hf, Hsrc.
  cbn [updates refreshes map app]. rewrite <- !app_assoc.
  repeat split; done.
Qed.

Lemma refreshed_token_is_reused_witness :
  ∃ st', run_loaders (demo_env (λ _, inr demo_rows) (λ _, None) false) ["orders"; "ulta"]
           demo_start = (Ret tt, st')
    ∧ updates (st_trace st')
      = updates (st_trace demo_start)
        ++ map (request_of (st_viper demo_start) (AccessToken demo_fresh_token) demo_table)
               ["orders"; "ulta"]
    ∧ refreshes (st_trace st') = refreshes (st_trace demo_start) ++ [RefreshToken demo_token]
    ∧ st_source st' = demo_fresh_token
    ∧ st_fs st' = st_fs demo_start.
Proof.
  apply (refreshed_token_is_reused (demo_env (λ _, inr demo_rows) (λ _, None) false)
           (λ _, demo_rows) demo_table demo_token demo_fresh_token "orders" ["ulta"]
           demo_start); intros; reflexivity.
Defined.

(** X22: When the held token has expired and the refresh fails, the
    request of a loader whose grid can be encoded is not sent: the
    process exits through log.Fatal with the error of the refresh, after
    the query has run and the grid was built. *)
Theorem failed_refresh_ends_the_run (env : Env) (answer : string → Rows)
    (table : string → Grid) (l : string) (st : State) (e : error) :
  (∀ tr, env_DbOpen env tr = None) →
  (∀ tr, env_Ping env tr = None) →
  (∀ tr q, env_Query env tr q = inr (answer q)) →
  (∀ q, convert (answer q) = Ret (table q)) →
  (∀ q, grid_encode_error (table q) = None) →
  (∀ tr, env_valid env tr (st_source st) = false) →
  (∀ tr, env_refresh env tr (st_source st) = inl e) →
  ∃ st', run_loader env l st = (Fatal e, st')
    ∧ updates (st_trace st') = updates (st_trace st)
    ∧ refreshes (st_trace st') = refreshes (st_trace st) ++ [RefreshToken (st_source st)]
    ∧ st_source st' = st_source st
    ∧ st_fs st' = st_fs st.
Proof.
  intros Hopen Hping Hquery Hconvert Hencode Hexpired Hrefresh.
  pose proof (turn_converted env l st _ _ Hopen Hping (λ tr, Hquery tr _) (Hconvert _))
    as Hturn.
  destruct (after_rows_reads l (answer (turn_query (st_viper st) l)) st)
    as (Hu & Hr & _ & Hv & Hs & Hf).
  rewrite write_refresh_failed with (e := e) in Hturn by (rewrite ?Hs; auto).
  eexists. split; [exact Hturn|].
  unfold with_events. cbn [st_trace st_source st_fs].
  rewrite !updates_app, !refreshes_app, Hu, Hr, Hs, Hf.
  cbn [updates refreshes]. by rewrite !app_nil_r.
Qed.

Lemma failed_refresh_ends_the_run_witness :
  ∃ st', run_loader (mkEnv (Some demo_config) (λ keys, keys) (λ _, inr demo_oauth)
                       (λ _, "") (inr "4/code") (λ _, inr demo_token) (λ _, None)
                       (λ _, None) (λ _, None) (λ _ _, inr demo_rows) (λ _ _, false)
                       (λ _ _, inl "oauth2: cannot fetch token: 400 Bad Request")
                       (λ _ _ _, None))
           "orders" demo_start
         = (Fatal "oauth2: cannot fetch token: 400 Bad Request", st')
    ∧ updates (st_trace st') = updates (st_trace demo_start)
    ∧ refreshes (st_trace st')
      = refreshes (st_trace demo_start) ++ [RefreshToken (st_source demo_start)]
    ∧ st_source st' = st_source demo_start
    ∧ st_fs st' = st_fs demo_start.
Proof.
  apply (failed_refresh_ends_the_run _ (λ _, demo_rows) demo_table "orders" demo_start
           "oauth2: cannot fetch token: 400 Bad Request"); intros; reflexivity.
Defined.

(** * A rejected write *)

(** X23: When the Sheets API rejects the write of a loader whose grid can
    be encoded, the request has been sent, once, and the process exits
    through log.Fatal with the error of the API: "Done." is not printed
    for the loader and no file is changed. *)
Theorem rejected_write_is_fatal (env : Env) (answer : string → Rows)
    (table : string → Grid) (l : string) (st : State) (e : error) :
  (∀ tr, env_DbOpen env tr = None) →
  (∀ tr, env_Ping env tr = None) →
  (∀ tr q, env_Query env tr q = inr (answer q)) →
  (∀ q, convert (answer q) = Ret (table q)) →
  (∀ q, grid_encode_error (table q) = None) →
  (∀ tr, env_valid env tr (st_source st) = true) →
  (∀ tr rb, env_BatchUpdate env tr (GetString (st_viper st) ("loaders." +:+ l +:+ ".sheet")) rb
            = Some e) →
  ∃ st', run_loader env l st = (Fatal e, st')
    ∧ updates (st_trace st')
      = updates (st_trace st)
        ++ [request_of (st_viper st) (AccessToken (st_source st)) table l]
    ∧ (EvPrint ("Done." +:+ LF) ∈ st_trace st' → EvPrint ("Done." +:+ LF) ∈ st_trace st)
    ∧ st_fs st' = st_fs st.
Proof.
  intros Hopen Hping Hquery Hconvert Hencode Hvalid Hupdate.
  pose proof (turn_rejected env l st _ _ e Hopen Hping (λ tr, Hquery tr _) (Hconvert _)
                (Hencode _) Hvalid Hupdate) as Hturn.
  destruct (after_rows_reads l (answer (turn_query (st_viper st) l)) st)
    as (Hu & _ & _ & _ & _ & Hf).
  eexists. split; [exact Hturn|].
  unfold with_events. cbn [st_trace st_fs].
  rewrite !updates_app, Hu, Hf. cbn [updates].
  split; [done|]. split; [|done].
  unfold after_rows. cbn [st_trace].
  destruct (rows_next_set _);
    rewrite !elem_of_app, ?elem_of_cons, ?elem_of_nil; intros Hin;
    decompose [or] Hin; done.
Qed.

Lemma rejected_write_is_fatal_witness :
  ∃ st', run_loader (demo_env (λ _, inr demo_rows) (reject "sheet-orders") true) "orders"
           demo_start = (Fatal "googleapi: Error 403: forbidden", st')
    ∧ updates (st_trace st')
      = updates (st_trace demo_start)
        ++ [request_of (st_viper demo_start) (AccessToken (st_source demo_start))
              demo_table "orders"]
    ∧ (EvPrint ("Done." +:+ LF) ∈ st_trace st'
       → EvPrint ("Done." +:+ LF) ∈ st_trace demo_start)
    ∧ st_fs st' = st_fs demo_start.
Proof.
  apply (rejected_write_is_fatal (demo_env (λ _, inr demo_rows) (reject "sheet-orders") true)
           (λ _, demo_rows) demo_table "orders" demo_start
           "googleapi: Error 403: forbidden"); intros; reflexivity.
Defined.

(** * A grid that cannot be encoded *)

(** X26: When the grid of a loader holds a value that encoding/json
    refuses (a float64 that is NaN or infinite, a time whose year lies
    outside 0..9999), Do fails while it encodes the body: no request is
    sent and the token source is not asked, so that an expired token is
    not refreshed, and the process exits through log.Fatal with the
    error of the encoder, whatever the token source and the Sheets API
    would have answered. *)
Theorem unencodable_grid_is_fatal (env : Env) (rows : Rows) (grid : Grid) (l : string)
    (st : State) (e : error) :
  (∀ tr, env_DbOpen env tr = None) →
  (∀ tr, env_Ping env tr = None) →
  (∀ tr, env_Query env tr (turn_query (st_viper st) l) = inr rows) →
  convert rows = Ret grid →
  grid_encode_error grid = Some e →
  ∃ st', run_loader env l st = (Fatal e, st')
    ∧ updates (st_trace st') = updates (st_trace st)
    ∧ refreshes (st_trace st') = refreshes (st_trace st)
    ∧ st_source st' = st_source st
    ∧ st_fs st' = st_fs st.
Proof.
  intros Hopen Hping Hquery Hconvert Hencode.
  pose proof (turn_converted env l st rows grid Hopen Hping Hquery Hconvert) as Hturn.
  rewrite write_unencodable with (e := e) in Hturn by done.
  destruct (after_rows_reads l rows st) as (Hu & Hr & _ & _ & Hs & Hf).
  eexists. split; [exact Hturn|].
  unfold with_events. cbn [st_trace st_source st_fs].
  rewrite !updates_app, !refreshes_app, Hu, Hr, Hs, Hf.
  cbn [updates refreshes]. by rewrite !app_nil_r.
Qed.

Lemma unencodable_grid_is_fatal_witness :
  ∃ st', run_loader (demo_env (λ _, inr demo_rows_nan) (λ _, None) false) "orders"
           demo_start = (Fatal "json: unsupported value: NaN", st')
    ∧ updates (st_trace st') = updates (st_trace demo_start)
    ∧ refreshes (st_trace st') = refreshes (st_trace demo_start)
    ∧ st_source st' = st_source demo_start
    ∧ st_fs st' = st_fs demo_start.
Proof.
  apply (unencodable_grid_is_fatal (demo_env (λ _, inr demo_rows_nan) (λ _, None) false)
           demo_rows_nan [[VString "ratio"]; [VFloat64 0x7FF8000000000000]] "orders"
           demo_start "json: unsupported value: NaN"); intros; reflexivity.
Defined.

(** * Starting up *)

(** X11: getClient (lines 24-32) never panics, and when it ends the process
    (the code could not be read or exchanged, or the cache file could not
    be created) no file has been changed and the token source is as it
    was: a cache file that did not parse is still there, unchanged. *)
Theorem failed_bootstrap_changes_no_file (env : Env) (config : OAuthConfig) (st : State) :
  let r := getClient env config st in
  (∀ m, r.1 ≠ Panic m)
  ∧ (∀ m, r.1 = Fatal m → st_fs r.2 = st_fs st ∧ st_source r.2 = st_source st).
Proof.
  unfold getClient, tokenFromFile, getTokenFromWeb, saveToken, config_Client, log_Fatal,
    set_source, set_file, emit, get, m_ret, m_bind.
  cbn -[json_Decode json_Marshal cacheFile String.append].
  destruct (st_fs st !! cacheFile) as [data|];
    [destruct (json_Decode data zero_Token) as [tok [e|]]|];
    cbn -[json_Marshal cacheFile String.append]; try (split; intros; done).
  - destruct (env_Scan env) as [e1|code]; cbn -[json_Marshal cacheFile String.append];
      [by split|].
    destruct (env_Exchange env code) as [e2|tok'];
      cbn -[json_Marshal cacheFile String.append]; [by split|].
    destruct (env_Create env cacheFile) as [e3|];
      cbn -[json_Marshal cacheFile String.append]; [by split|].
    destruct (json_Marshal tok'); cbn -[cacheFile String.append]; by split.
  - destruct (env_Scan env) as [e1|code]; cbn -[json_Marshal cacheFile String.append];
      [by split|].
    destruct (env_Exchange env code) as [e2|tok'];
      cbn -[json_Marshal cacheFile String.append]; [by split|].
    destruct (env_Create env cacheFile) as [e3|];
      cbn -[json_Marshal cacheFile String.append]; [by split|].
    destruct (json_Marshal tok'); cbn -[cacheFile String.append]; by split.
Qed.

Lemma failed_bootstrap_changes_no_file_witness :
  (getClient demo_env_refused demo_oauth demo_broken_start).1
    = Fatal "Unable to retrieve token from web oauth2: cannot fetch token: 400 Bad Request"
  ∧ st_fs (getClient demo_env_refused demo_oauth demo_broken_start).2
    = st_fs demo_broken_start
  ∧ st_source (getClient demo_env_refused demo_oauth demo_broken_start).2
    = st_source demo_broken_start.
Proof.
  split; [vm_compute; reflexivity|].
  apply (failed_bootstrap_changes_no_file demo_env_refused demo_oauth demo_broken_start)
    with (m := "Unable to retrieve token from web oauth2: cannot fetch token: 400 Bad Request").
  vm_compute. reflexivity.
Defined.

(** X13: Before the client exists nothing else is done.  When the
    configuration cannot be read, init panics and main does not start;
    when the client secret file is missing or does not parse, main exits
    through log.Fatal at once: the fatal line is the only event, nobody
    is prompted, no database handle is opened and no file is changed. *)
Theorem startup_failures (env : Env) (fs : gmap string string) :
  (env_config env = None → ∃ m, program env fs = (Panic m, init_State fs))
  ∧ (∀ cfg, env_config env = Some cfg →
       fs !! "client_secret.json" = None
       ∨ (∃ b err, fs !! "client_secret.json" = Some b
                   ∧ env_ConfigFromJSON env b = inl err) →
       ∃ m st', program env fs = (Fatal m, st')
         ∧ st_trace st' = [EvLog FatalLevel m]
         ∧ st_fs st' = fs
         ∧ st_viper st' = cfg).
Proof.
  unfold program, config, main, set_viper, panic, log_Fatal, emit, get, m_bind.
  split.
  - intros ->. by eexists.
  - intros cfg -> Hsecret. cbn -[getClient run_loaders String.append].
    destruct Hsecret as [->|(b & err & -> & ->)]; by do 2 eexists.
Qed.

Lemma startup_failures_witness :
  ∃ m st', program (demo_env (λ _, inr demo_rows) (λ _, None) true) ∅ = (Fatal m, st')
    ∧ st_trace st' = [EvLog FatalLevel m]
    ∧ st_fs st' = ∅
    ∧ st_viper st' = demo_config.
Proof.
  apply (startup_failures (demo_env (λ _, inr demo_rows) (λ _, None) true) ∅).
  - reflexivity.
  - left. reflexivity.
Defined.

(** ** From one run to the next *)



(** ** A cache file without a credential *)

Lemma store_field_foreign k v t : foreign_key k → store_field k v t = (t, None).
Proof. intros (H1 & H2 & H3 & H4). unfold store_field. by rewrite H1, H2, H3, H4. Qed.

Lemma store_members_foreign kvs t :
  Forall (λ kv, foreign_key kv.1) kvs → store_members kvs t = (t, None).
Proof.
  induction 1 as [|[k v] kvs Hk _ IH]; [done|].
  cbn [store_members]. by rewrite store_field_foreign, IH.
Qed.

(** X24: A cache file whose JSON value is an object with none of the four
    fields of a credential (the empty object, for one) loads without an
    error: getClient takes the empty credential it gives for a cached one,
    builds the client from it and does not start the bootstrap. *)
Theorem hollow_cache_counts_as_loaded (env : Env) (config : OAuthConfig) (st : State)
    (data : string) (kvs : list (string * Json)) (rest : string) :
  st_fs st !! cacheFile = Some data →
  parse_value (S (String.length data)) 0 data = Some (JObject kvs, rest) →
  Forall (λ kv, foreign_key kv.1) kvs →
  ∃ st', getClient env config st = (Ret (HttpClient config), st')
    ∧ st_source st' = zero_Token
    ∧ st_trace st' = st_trace st
    ∧ st_fs st' = st_fs st.
Proof.
  intros Hfile Hparse Hkeys.
  assert (Hdec : json_Decode data zero_Token = (zero_Token, None)).
  { unfold json_Decode. rewrite Hparse.
    destruct (skip_ws data) eqn:Hws.
    - cbn [parse_value] in Hparse. by rewrite Hws in Hparse.
    - cbn [unmarshal_Token]. by apply store_members_foreign. }
  rewrite (getClient_hit env config st data zero_Token Hfile Hdec).
  eexists. split; [reflexivity|]. done.
Qed.

Lemma hollow_cache_counts_as_loaded_witness :
  ∃ st', getClient (demo_env (λ _, inr demo_rows) (λ _, None) true) demo_oauth
           demo_hollow_start = (Ret (HttpClient demo_oauth), st')
    ∧ st_source st' = zero_Token
    ∧ st_trace st' = st_trace demo_hollow_start
    ∧ st_fs st' = st_fs demo_hollow_start.
Proof.
  apply (hollow_cache_counts_as_loaded (demo_env (λ _, inr demo_rows) (λ _, None) true)
           demo_oauth demo_hollow_start
           ("{" +:+ key "note" +:+ quote "to do" +:+ "}")
           [("note", JString "to do" true)] "").
  - vm_compute. reflexivity.
  - vm_compute. reflexivity.
  - repeat constructor.
Defined.

(** ** The first run *)

Lemma bootstrap_leaves env config st code tok :
  env_Scan env = inr code → env_Exchange env code = inr tok →
  env_Create env cacheFile = None →
  ∃ st', m_bind (m_bind (getTokenFromWeb env config)
                   (λ tok, m_bind (saveToken env cacheFile tok) (λ _, m_ret tok)))
           (config_Client config) st = (Ret (HttpClient config), st')
    ∧ st_source st' = tok
    ∧ st_viper st' = st_viper st
    ∧ st_fs st' = <[cacheFile := saved tok]> (st_fs st)
    ∧ updates (st_trace st') = updates (st_trace st)
    ∧ EvScan ∈ st_trace st'.
Proof.
  intros Hscan Hex Hcr.
  unfold getTokenFromWeb, saveToken, config_Client, m_bind, log_Fatal, emit, set_file,
    set_source, m_ret, saved.
  cbn -[json_Marshal cacheFile String.append prompt]. rewrite Hscan.
  cbn -[json_Marshal cacheFile String.append]. rewrite Hex.
  cbn -[json_Marshal cacheFile String.append]. rewrite Hcr.
  cbn -[json_Marshal cacheFile String.append].
  destruct (json_Marshal tok) as [e|data]; cbn -[cacheFile String.append].
  - eexists. split; [reflexivity|]. cbn -[cacheFile String.append].
    repeat apply conj; try done.
    + rewrite !updates_app. cbn [updates]. by rewrite !app_nil_r.
    + rewrite !elem_of_app, !list_elem_of_singleton. tauto.
  - eexists. split; [reflexivity|]. cbn -[cacheFile String.append].
    repeat apply conj; try done.
    + by rewrite insert_insert_eq.
    + rewrite !updates_app. cbn [updates]. by rewrite !app_nil_r.
    + rewrite !elem_of_app, !list_elem_of_singleton. tauto.
Qed.

(** X25: On a first run, with no cache file and an installation where
    everything answers and every grid can be encoded as the body of a
    request, the program prompts for the code, writes the cache file with
    the credential obtained, sends one request per configured loader,
    each with that credential's access token, and returns; the cache file
    is the only file changed. *)
Theorem first_run_bootstraps_and_loads (env : Env) (fs : gmap string string)
    (cfg : Yaml) (b code : string) (oc : OAuthConfig) (tok : Token)
    (answer : string → Rows) (table : string → Grid) :
  env_config env = Some cfg →
  fs !! "client_secret.json" = Some b →
  env_ConfigFromJSON env b = inr oc →
  fs !! cacheFile = None →
  env_Scan env = inr code →
  env_Exchange env code = inr tok →
  env_Create env cacheFile = None →
  (∀ tr, env_DbOpen env tr = None) →
  (∀ tr, env_Ping env tr = None) →
  (∀ tr q, env_Query env tr q = inr (answer q)) →
  (∀ q, convert (answer q) = Ret (table q)) →
  (∀ q, grid_encode_error (table q) = None) →
  (∀ tr, env_valid env tr tok = true) →
  (∀ tr sid rb, env_BatchUpdate env tr sid rb = None) →
  ∃ st', program env fs = (Ret tt, st')
    ∧ updates (st_trace st')
      = map (request_of cfg (AccessToken tok) table)
            (env_range env (GetStringMap_keys cfg "loaders"))
    ∧ st_fs st' = <[cacheFile := saved tok]> fs
    ∧ EvScan ∈ st_trace st'.
Proof.
  intros Hcfg Hsecret Hjson Hcache Hscan Hex Hcreate Hopen Hping Hquery Hconvert Hencode
    Hvalid Hupdate.
  unfold program, config. unfold m_bind at 1. rewrite Hcfg.
  unfold set_viper. cbn [init_State st_viper st_fs st_trace st_open st_rows
    st_deferred st_source].
  unfold main. unfold m_bind at 1. unfold get at 1. cbn [st_fs]. rewrite Hsecret, Hjson.
  unfold m_bind at 1.
  rewrite (getClient_miss env oc) by (left; exact Hcache).
  match goal with
  | |- context [m_bind (m_bind (getTokenFromWeb env oc) ?k) ?k' ?s] =>
      destruct (bootstrap_leaves env oc s code tok Hscan Hex Hcreate)
        as (st1 & -> & Hs1 & Hv1 & Hf1 & Hu1 & Hscan1)
  end.
  cbn [st_viper st_fs st_trace updates] in Hv1, Hf1, Hu1.
  unfold m_bind at 1. unfold get at 1. rewrite Hv1.
  match goal with
  | |- context [run_loaders env ?ls ?s] =>
      destruct (run_loaders_ok env answer table tok ls s Hopen Hping Hquery Hconvert
                  Hencode Hvalid Hupdate Hs1)
        as (st' & Hrun & Hu & _ & _ & _ & Hf);
      pose proof (quiet_run_loaders env ls s) as (_ & _ & evs & Htr & _)
  end.
  rewrite Hrun in *. cbn [snd] in Htr.
  exists (run_deferred st'). split; [done|].
  destruct (updates_run_deferred st') as [-> ->].
  rewrite Hu, Hu1, Hv1, Hf, Hf1. cbn [app]. repeat split.
  destruct (quiet_run_deferred st') as (_ & _ & evs' & -> & _).
  rewrite Htr, !elem_of_app. by do 2 left.
Qed.

Lemma first_run_bootstraps_and_loads_witness :
  ∃ st', program (demo_env (λ _, inr demo_rows) (λ _, None) true) demo_fs_first_run
         = (Ret tt, st')
    ∧ updates (st_trace st')
      = map (request_of demo_config (AccessToken demo_token) demo_table)
            (env_range (demo_env (λ _, inr demo_rows) (λ _, None) true)
               (GetStringMap_keys demo_config "loaders"))
    ∧ st_fs st' = <[cacheFile := saved demo_token]> demo_fs_first_run
    ∧ EvScan ∈ st_trace st'.
Proof.
  apply (first_run_bootstraps_and_loads (demo_env (λ _, inr demo_rows) (λ _, None) true)
           demo_fs_first_run demo_config "{}" "4/code" demo_oauth demo_token
           (λ _, demo_rows) demo_table);
    intros; try reflexivity; vm_compute; reflexivity.
Defined.

(** * Credentials whose text is not UTF-8 *)

Lemma sanitize_valid s : ∀ k, utf8_valid s k = true → sanitize s k = s.
Proof.
  induction s as [|c s IH]; intros k Hv; [done|].
  cbn [utf8_valid sanitize] in *. destruct k as [|k]; [|by rewrite IH].
  destruct (byte c <? 0x80); [by rewrite IH|].
  destruct (DecodeRune (String c s)) as [r [|[|n]]]; [done|done|by rewrite IH].
Qed.

Lemma DecodeRune_invalid c s r n :
  (byte c <? 0x80) = false →
  DecodeRune (String c s) = (r, n) → (n ≤ 1)%nat → r = RuneError ∧ n = 1%nat.
Proof.
  unfold DecodeRune. intros -> H Hn.
  repeat case_match; simplify_eq; first [lia | done].
Qed.

Lemma quote_body_invalid c s :
  (byte c <? 0x80) = false →
  (∃ r n, DecodeRune (String c s) = (r, n) ∧ (n ≤ 1)%nat) →
  quote_body (String c s) 0 true = "\u" +:+ "fffd" +:+ quote_body s 0 true.
Proof.
  intros Hc (r & n & Hd & Hn). destruct (DecodeRune_invalid _ _ _ _ Hc Hd Hn) as [-> ->].
  cbn [quote_body]. rewrite Hc, Hd. done.
Qed.

Lemma unquote_body_replaced q :
  unquote_body (("\u" +:+ "fffd" +:+ q)) 0
  = push (EncodeRune RuneError) false (unquote_body q 0).
Proof. reflexivity. Qed.

(** A string literal written by the encoder is read back as the string it
    was written for, with U+FFFD in place of every ill-formed byte. *)
Lemma unquote_quote_any s : ∀ k rest,
  (k ≤ String.length s)%nat →
  ∃ plain, unquote_body (quote_body s k true +:+ DQ +:+ rest) k
           = Some (sanitize s k, plain, rest).
Proof.
  induction s as [|c s IH]; intros k rest Hk.
  { cbn [String.length] in Hk. assert (k = 0%nat) as -> by lia. by exists true. }
  cbn [String.length] in Hk. destruct k as [|k].
  2:{ destruct (IH k rest ltac:(lia)) as [plain Hp].
      rewrite quote_body_skip, append_cons, unquote_body_skip, Hp. by eexists. }
  cbn [sanitize].
  destruct (byte c <? 0x80) eqn:Hascii.
  { apply Z.ltb_lt in Hascii. destruct (IH 0%nat rest ltac:(lia)) as [plain Hp].
    rewrite quote_body_ascii, append_assoc, unquote_ascii, Hp by done. by eexists. }
  pose proof Hascii as Hc.
  apply Z.ltb_ge in Hascii. assert (Hna : ¬ byte c < 0x80) by lia.
  destruct (DecodeRune (String c s)) as [r [|[|n]]] eqn:Hd.
  { destruct (IH 0%nat rest ltac:(lia)) as [plain Hp].
    rewrite quote_body_invalid by (done || (exists r, 0%nat; split; [done|lia])).
    rewrite !append_assoc, unquote_body_replaced, Hp. by eexists. }
  { destruct (IH 0%nat rest ltac:(lia)) as [plain Hp].
    rewrite quote_body_invalid by (done || (exists r, 1%nat; split; [done|lia])).
    rewrite !append_assoc, unquote_body_replaced, Hp. by eexists. }
  rewrite (quote_body_multi _ _ _ _ Hna Hd).
  destruct (DecodeRune_multi _ _ _ _ Hd)
    as [(-> & c1 & t & -> & Hr & Hd')
       |[(-> & c1 & c2 & t & -> & Hr & Hd')|(-> & c1 & c2 & c3 & t & -> & Hr & Hd')]].
  - destruct (IH 1%nat rest ltac:(cbn; lia)) as [plain Hp].
    rewrite (proj2 (Z.eqb_neq r _)), (proj2 (Z.eqb_neq r _)) by lia. cbn [orb].
    rewrite append_cons, quote_body_skip, append_cons.
    rewrite (unquote_body_multi _ _ r 0 Hna (Hd' _)).
    rewrite quote_body_skip, append_cons in Hp. rewrite Hp. by eexists.
  - destruct (IH 2%nat rest ltac:(cbn; lia)) as [plain Hp].
    destruct ((r =? 0x2028) || (r =? 0x2029)) eqn:Hsep.
    + assert (Hr' : r = 0x2028 ∨ r = 0x2029) by lia.
      destruct (Hr Hr') as (-> & -> & ->).
      rewrite !quote_body_skip, !append_cons, !unquote_body_skip in Hp.
      cbn [sanitize] in Hp.
      apply (push_inv (String _ "") true _ (String _ (sanitize t 0))) in Hp as [p1 Hp].
      apply (push_inv (String _ "") true _ (sanitize t 0)) in Hp as [p2 Hp].
      rewrite !quote_body_drop, quote_body_keep. cbn [sanitize].
      destruct Hr' as [-> | ->].
      * change (unquote_body (("\u202" +:+ hex (0x2028 mod 16) +:+ quote_body t 0 true)
                              +:+ DQ +:+ rest) 0)
          with (push (EncodeRune 0x2028) false
                  (unquote_body (quote_body t 0 true +:+ DQ +:+ rest) 0)).
        rewrite Hp. by eexists.
      * change (unquote_body (("\u202" +:+ hex (0x2029 mod 16) +:+ quote_body t 0 true)
                              +:+ DQ +:+ rest) 0)
          with (push (EncodeRune 0x2029) false
                  (unquote_body (quote_body t 0 true +:+ DQ +:+ rest) 0)).
        rewrite Hp. by eexists.
    + rewrite append_cons, !quote_body_skip, !append_cons.
      rewrite (unquote_body_multi _ _ r 1 Hna (Hd' _)).
      rewrite !quote_body_skip, !append_cons in Hp. rewrite Hp. by eexists.
  - destruct (IH 3%nat rest ltac:(cbn; lia)) as [plain Hp].
    rewrite (proj2 (Z.eqb_neq r _)), (proj2 (Z.eqb_neq r _)) by lia. cbn [orb].
    rewrite append_cons, !quote_body_skip, !append_cons.
    rewrite (unquote_body_multi _ _ r 2 Hna (Hd' _)).
    rewrite !quote_body_skip, !append_cons in Hp. rewrite Hp. by eexists.
Qed.

Lemma utf8_valid_replaced s : utf8_valid (EncodeRune RuneError +:+ s) 0 = utf8_valid s 0.
Proof. reflexivity. Qed.

Lemma utf8_valid_sanitize s : ∀ k,
  (k ≤ String.length s)%nat → utf8_valid (sanitize s k) k = true.
Proof.
  induction s as [|c s IH]; intros k Hk; cbn [String.length] in Hk.
  { by assert (k = 0%nat) as -> by lia. }
  destruct k as [|k]; [|cbn [sanitize utf8_valid]; apply IH; lia].
  cbn [sanitize]. destruct (byte c <? 0x80) eqn:Hascii.
  { cbn [utf8_valid]. rewrite Hascii. apply IH. lia. }
  destruct (DecodeRune (String c s)) as [r [|[|n]]] eqn:Hd.
  { rewrite utf8_valid_replaced. apply IH. lia. }
  { rewrite utf8_valid_replaced. apply IH. lia. }
  destruct (DecodeRune_multi _ _ _ _ Hd)
    as [(-> & c1 & t & -> & Hr & Hd')
       |[(-> & c1 & c2 & t & -> & Hr & Hd')|(-> & c1 & c2 & c3 & t & -> & Hr & Hd')]].
  - pose proof (IH 1%nat ltac:(cbn; lia)) as Hv. cbn [sanitize] in *.
    cbn [utf8_valid]. rewrite Hascii, Hd'. exact Hv.
  - pose proof (IH 2%nat ltac:(cbn; lia)) as Hv. cbn [sanitize] in *.
    cbn [utf8_valid]. rewrite Hascii, Hd'. exact Hv.
  - pose proof (IH 3%nat ltac:(cbn; lia)) as Hv. cbn [sanitize] in *.
    cbn [utf8_valid]. rewrite Hascii, Hd'. exact Hv.
Qed.

Ltac member_any :=
  match goal with
  | |- context [parse_members (S (S ?f)) ?d
                  (key ?k +:+ DQ +:+ quote_body ?s 0 true +:+ DQ +:+ "," +:+ ?R)] =>
      let p := fresh "p" in
      let H := fresh "H" in
      destruct (unquote_quote_any s 0 ("," +:+ R) (Nat.le_0_l _)) as [p H];
      rewrite (parse_member_more f d k _ (sanitize s 0) p R eq_refl H)
  end.

(** What [Encode] writes for a credential with a representable expiry,
    [Decode] reads back as the sanitized credential. *)
Lemma json_Decode_Marshal_any tok :
  wf_Time (Expiry tok) →
  ∃ data, json_Marshal tok = inr data
          ∧ json_Decode (data +:+ LF) zero_Token = (sanitized tok, None).
Proof.
  destruct tok as [a tt rt e]. unfold sanitized, ToValidUTF8.
  cbn [AccessToken TokenType RefreshToken Expiry].
  intros He.
  unfold json_Marshal, Time_MarshalJSON.
  cbn [AccessToken TokenType RefreshToken Expiry].
  destruct He as (Hy & He'). pose proof (conj Hy He') as He.
  rewrite (proj2 (Z.ltb_ge _ _)), (proj2 (Z.leb_gt _ _)) by lia. cbn [orb].
  eexists. split; [reflexivity|].
  unfold quote. rewrite !append_assoc. rewrite json_Decode_object.
  cbn [Nat.add].
  destruct (String.eqb_spec tt "") as [->|_], (String.eqb_spec rt "") as [->|_];
    rewrite ?append_nil_l, ?append_assoc;
    repeat member_any; member_last;
    cbn [store_members]; unfold zero_Token;
    repeat progress
      (rewrite ?store_access_token, ?store_token_type, ?store_refresh_token,
         ?store_expiry;
       cbn [store_string store_time AccessToken TokenType RefreshToken Expiry];
       rewrite ?parse_RFC3339_fmt by done);
    done.
Qed.

(** X10: For every credential whose expiry can be encoded, loading what
    saveToken wrote returns the credential with each byte of its text
    fields that is not well-formed UTF-8 replaced by U+FFFD.  The fields
    that come back are valid UTF-8, so that the credential loaded is one
    that a further save and load returns unchanged. *)
Theorem save_then_load_sanitizes (env : Env) (file : string) (tok : Token) (st : State) :
  env_Create env file = None →
  wf_Time (Expiry tok) →
  (∃ st1, saveToken env file tok st = (Ret tt, st1)
     ∧ tokenFromFile file st1 = (Ret (sanitized tok, None), st1))
  ∧ wf_Token (sanitized tok)
  ∧ sanitized (sanitized tok) = sanitized tok.
Proof.
  intros Hcreate He.
  assert (Hwf : wf_Token (sanitized tok)).
  { unfold wf_Token, sanitized, ToValidUTF8, ValidString.
    cbn [AccessToken TokenType RefreshToken Expiry].
    repeat split; try (apply utf8_valid_sanitize; lia); apply He. }
  split; [|split; [exact Hwf|]].
  - destruct (json_Decode_Marshal_any tok He) as (data & Hm & Hd).
    unfold saveToken, tokenFromFile, m_bind, emit, set_file, get, m_ret.
    rewrite Hcreate, Hm. cbn [st_fs st_trace st_viper st_open st_rows st_deferred st_source].
    eexists. split; [reflexivity|].
    cbn [st_fs]. rewrite lookup_insert_eq. by rewrite Hd.
  - destruct Hwf as (Ha & Ht & Hr & _). unfold sanitized at 1. unfold ToValidUTF8 at 1 2 3.
    unfold ValidString in *.
    rewrite !sanitize_valid by done. by destruct tok.
Qed.

Lemma save_then_load_sanitizes_witness :
  (∃ st1, saveToken (demo_env (λ _, inr demo_rows) (λ _, None) true) cacheFile odd_token
            demo_start = (Ret tt, st1)
     ∧ tokenFromFile cacheFile st1 = (Ret (sanitized odd_token, None), st1))
  ∧ wf_Token (sanitized odd_token)
  ∧ sanitized (sanitized odd_token) = sanitized odd_token.
Proof.
  apply (save_then_load_sanitizes (demo_env (λ _, inr demo_rows) (λ _, None) true)
           cacheFile odd_token demo_start).
  - reflexivity.
  - unfold wf_Time. cbn. lia.
Defined.
